(** * Radar tile reconciliation and playback engine of bom-radar-card

    A shallow embedding of the TypeScript sources and the properties the
    specification states about them.

    Conventions of the embedding.
    - Integer-valued JavaScript numbers (epoch milliseconds, timer delays,
      tile indices, array indices, counters) are [Z] or [nat].
    - Projected coordinates (EPSG:3857 metres) and percentages are exact
      rationals [Q]: IEEE-754 rounding of the intermediate products is not
      modelled.  [Math.floor] is [Qfloor], [Math.round] is
      [Qfloor (x + 1/2)] (ties go up, as in ECMAScript).  Where a bound
      on a computed number is proved (the overlay opacity of the
      interval-driven cards), each operation is rounded to binary64
      ([Js.binary64]).
    - Strings the code builds, compares and uses as keys (timestamps, layer
      ids, URLs) are [string]s; strings it trims and tests for a prefix
      (entity ids, the card title) are sequences of UTF-16 code units
      ([Js.utf16]).
    - Instance fields of a card are the fields of a record that every method
      takes and returns; an armed timer is a field holding its delay; a
      thrown exception is the [Throw] outcome.
    - The model comes first, one module per source file; the properties
      follow. *)

From Stdlib Require Import ZArith QArith Qround Qpower Qminmax List String Ascii.
From Stdlib Require Import Lia Lqa Bool DecimalString.
From stdpp Require Import gmap strings.

Local Open Scope string_scope.
Local Open Scope list_scope.
Local Open Scope Z_scope.

(* ===================================================================== *)
(** ** ECMAScript built-ins used by the sources *)
(* ===================================================================== *)

Module Js.

(** [String(n)] for an integer-valued number. *)
Definition number_to_string (n : Z) : string :=
  NilZero.string_of_int (Z.to_int n).

Fixpoint repeat_char (c : ascii) (n : nat) : string :=
  match n with
  | O => EmptyString
  | S k => String c (repeat_char c k)
  end.

(** [s.padStart(w, '0')]. *)
Definition padStart (w : nat) (s : string) : string :=
  repeat_char "0"%char (w - String.length s) +:+ s.

(** [Math.round]: nearest integer, ties toward plus infinity. *)
Definition round (x : Q) : Z := Qfloor (x + (1 # 2))%Q.

(** [arr.slice(start)] for an integer [start]. *)
Definition slice_from {A} (start : Z) (l : list A) : list A :=
  let len := Z.of_nat (length l) in
  let k := if start <? 0 then Z.max (len + start) 0 else Z.min start len in
  drop (Z.to_nat k) l.

(** [arr.findIndex(p)]: [None] stands for [-1]. *)
Fixpoint findIndex {A} (p : A -> bool) (l : list A) : option nat :=
  match l with
  | [] => None
  | x :: r => if p x then Some O else option_map S (findIndex p r)
  end.

(** Outcome of a call that may throw. *)
Inductive outcome (A : Type) : Type :=
| Return (a : A)
| Throw.
Arguments Return {A} a.
Arguments Throw {A}.

Definition hex_digit (n : N) : ascii :=
  match n with
  | 0 => "0" | 1 => "1" | 2 => "2" | 3 => "3" | 4 => "4" | 5 => "5"
  | 6 => "6" | 7 => "7" | 8 => "8" | 9 => "9" | 10 => "A" | 11 => "B"
  | 12 => "C" | 13 => "D" | 14 => "E" | _ => "F"
  end%N%char.

(** Characters [encodeURIComponent] leaves alone: letters, digits and
    [- _ . ! ~ * ' ( )]. *)
Definition uri_unreserved (c : ascii) : bool :=
  let n := N_of_ascii c in
  ((65 <=? n) && (n <=? 90) || (97 <=? n) && (n <=? 122)
   || (48 <=? n) && (n <=? 57)
   || (n =? 45) || (n =? 95) || (n =? 46) || (n =? 33) || (n =? 126)
   || (n =? 42) || (n =? 39) || (n =? 40) || (n =? 41))%N.

(** [encodeURIComponent] on a string of ASCII characters. *)
Fixpoint encodeURIComponent (s : string) : string :=
  match s with
  | EmptyString => EmptyString
  | String c r =>
      if uri_unreserved c then String c (encodeURIComponent r)
      else
        let n := N_of_ascii c in
        String "%" (String (hex_digit (n / 16)) (String (hex_digit (n mod 16))
          (encodeURIComponent r)))
  end.

(** A string as ECMAScript has it: a sequence of UTF-16 code units.  The
    strings the code trims (the entity id, the card title) come from the
    user and are modelled so; those it only builds from digits and
    punctuation stay [string]s. *)
Definition utf16 : Type := list N.

(** The code units of a literal written in ASCII. *)
Definition units (s : string) : utf16 := map N_of_ascii (list_ascii_of_string s).

(** WhiteSpace and LineTerminator of ECMA-262, the code points
    [String.prototype.trim] strips: TAB, LF, VT, FF, CR, SP, NBSP, the
    Unicode space separators (Zs), LS, PS and the byte-order mark.  All of
    them are single code units. *)
Definition is_space (c : N) : bool :=
  ((9 <=? c) && (c <=? 13)            (* TAB LF VT FF CR *)
   || (c =? 32)                       (* SP *)
   || (c =? 160)                      (* U+00A0 NBSP *)
   || (c =? 5760)                     (* U+1680 *)
   || (8192 <=? c) && (c <=? 8202)    (* U+2000 .. U+200A *)
   || (c =? 8232) || (c =? 8233)      (* U+2028 LS, U+2029 PS *)
   || (c =? 8239)                     (* U+202F *)
   || (c =? 8287)                     (* U+205F *)
   || (c =? 12288)                    (* U+3000 *)
   || (c =? 65279))%N.                (* U+FEFF *)

Fixpoint trimStart (s : utf16) : utf16 :=
  match s with
  | [] => []
  | c :: r => if is_space c then trimStart r else s
  end.

(** [trimEnd]: drop the string when nothing but spaces is left of it. *)
Fixpoint trimEnd (s : utf16) : utf16 :=
  match s with
  | [] => []
  | c :: r =>
      match trimEnd r with
      | [] => if is_space c then [] else [c]
      | r' => c :: r'
      end
  end.

Definition trim (s : utf16) : utf16 := trimEnd (trimStart s).

(** [s.startsWith(p)]. *)
Fixpoint startsWith (p s : utf16) : bool :=
  match p, s with
  | [], _ => true
  | _ :: _, [] => false
  | a :: p', b :: s' => (a =? b)%N && startsWith p' s'
  end.

(** *** Number arithmetic

    The binary64 value nearest to a real number, ties to the even
    significand; [floorLog2 x] is the exponent of a positive [x], held at
    -1022 for the subnormal range.  Overflow to [Infinity] is left out:
    the function is used where the results stay below 2. *)
Definition floorLog2 (x : Q) : Z :=
  let e := Z.log2 (Qnum x) - Z.log2 (Zpos (Qden x)) in
  if Qle_bool (2 ^ e) x then e else e - 1.

Definition roundHalfEven (y : Q) : Z :=
  let f := Qfloor y in
  match (y - inject_Z f ?= 1 # 2)%Q with
  | Lt => f
  | Gt => f + 1
  | Eq => if Z.even f then f else f + 1
  end.

Definition binary64_pos (x : Q) : Q :=
  let e := Z.max (floorLog2 x) (-1022) in
  let ulp := (2 ^ (e - 52))%Q in
  (inject_Z (roundHalfEven (x / ulp)) * ulp)%Q.

Definition binary64 (x : Q) : Q :=
  match Qnum x with
  | 0 => 0%Q
  | Zpos _ => binary64_pos x
  | Zneg _ => (- binary64_pos (- x))%Q
  end.

End Js.

(** The [Date] built-in, in UTC, on the proleptic Gregorian calendar. *)
Module JsDate.

Definition msPerDay : Z := 86400000.
Definition maxTime : Z := 8640000000000000.

(** A [Date] object holds a time value or is an Invalid Date. *)
Definition Date : Type := option Z.

(** [new Date(t)] for an integer number of milliseconds. *)
Definition mkDate (t : Z) : Date :=
  if Z.abs t <=? maxTime then Some t else None.

Definition Day (t : Z) : Z := t / msPerDay.

(** Year, month (1..12) and day of month of a day number counted from
    1970-01-01. *)
Definition civil_from_days (days : Z) : Z * Z * Z :=
  let z := days + 719468 in
  let era := z / 146097 in
  let doe := z - era * 146097 in
  let yoe := (doe - doe / 1460 + doe / 36524 - doe / 146096) / 365 in
  let y := yoe + era * 400 in
  let doy := doe - (365 * yoe + yoe / 4 - yoe / 100) in
  let mp := (5 * doy + 2) / 153 in
  let d := doy - (153 * mp + 2) / 5 + 1 in
  let m := if mp <? 10 then mp + 3 else mp - 9 in
  (if m <=? 2 then y + 1 else y, m, d).

Definition YearFromTime (t : Z) : Z := fst (fst (civil_from_days (Day t))).
Definition MonthFromTime (t : Z) : Z := snd (fst (civil_from_days (Day t))) - 1.
Definition DateFromTime (t : Z) : Z := snd (civil_from_days (Day t)).
Definition HourFromTime (t : Z) : Z := (t / 3600000) mod 24.
Definition MinFromTime (t : Z) : Z := (t / 60000) mod 60.
Definition SecFromTime (t : Z) : Z := (t / 1000) mod 60.
Definition msFromTime (t : Z) : Z := t mod 1000.

(** The getters answer [NaN] on an Invalid Date; [String(NaN)] is "NaN". *)
Definition getter_string (f : Z -> Z) (d : Date) : string :=
  match d with
  | Some t => Js.number_to_string (f t)
  | None => "NaN"
  end.

(** [date.toISOString()]; an Invalid Date throws a RangeError. *)
Definition toISOString (d : Date) : Js.outcome string :=
  match d with
  | None => Js.Throw
  | Some t =>
      let y := YearFromTime t in
      let ys :=
        if (0 <=? y) && (y <=? 9999)
        then Js.padStart 4 (Js.number_to_string y)
        else (if y <? 0 then "-" else "+")
             +:+ Js.padStart 6 (Js.number_to_string (Z.abs y)) in
      Js.Return
        (ys +:+ "-" +:+ Js.padStart 2 (Js.number_to_string (MonthFromTime t + 1))
            +:+ "-" +:+ Js.padStart 2 (Js.number_to_string (DateFromTime t))
            +:+ "T" +:+ Js.padStart 2 (Js.number_to_string (HourFromTime t))
            +:+ ":" +:+ Js.padStart 2 (Js.number_to_string (MinFromTime t))
            +:+ ":" +:+ Js.padStart 2 (Js.number_to_string (SecFromTime t))
            +:+ "." +:+ Js.padStart 3 (Js.number_to_string (msFromTime t))
            +:+ "Z")
  end.

End JsDate.

(* ===================================================================== *)
(** ** radar-source.ts: the RainViewer manifest and the two delays *)
(* ===================================================================== *)

Module RadarSource.

Definition RAINVIEWER_DEFAULT_HOST : string := "https://tilecache.rainviewer.com".
Definition RAINVIEWER_COLOR_SCHEME : Z := 2.
Definition RAINVIEWER_SMOOTH : Z := 1.
Definition RAINVIEWER_SNOW : Z := 0.

Record RainviewerFrame := { time : Z; rv_path : string }.
Record RainviewerRadar := { past : option (list RainviewerFrame) }.
Record RainviewerApiResponse :=
  { rv_host : option string; radar : option RainviewerRadar }.

Record RadarFrame :=
  { id : string; timestampIso : string; timeMs : Z; path : string }.

Record RadarSnapshot :=
  { host : string; frames : list RadarFrame; latestTimeMs : Z }.

(** What the fetcher hands back: a response with its [ok] flag, status and
    body ([None]: the body is not JSON and [json()] rejects). *)
Record Response :=
  { ok : bool; status : Z; json : option RainviewerApiResponse }.

Definition buildRadarTileUrl (host path : string) : string :=
  host +:+ path +:+ "/256/{z}/{x}/{y}/"
    +:+ Js.number_to_string RAINVIEWER_COLOR_SCHEME +:+ "/"
    +:+ Js.number_to_string RAINVIEWER_SMOOTH +:+ "_"
    +:+ Js.number_to_string RAINVIEWER_SNOW +:+ ".png".

Definition toRadarFrame (frame : RainviewerFrame) : Js.outcome RadarFrame :=
  let timeMs := time frame * 1000 in
  match JsDate.toISOString (JsDate.mkDate timeMs) with
  | Js.Throw => Js.Throw
  | Js.Return timestampIso =>
      Js.Return {| id := timestampIso; timestampIso := timestampIso;
                   timeMs := timeMs; path := rv_path frame |}
  end.

(** [rawFrames.map(...)]: the first callback that throws ends the map. *)
Fixpoint mapFrames (l : list RainviewerFrame) : Js.outcome (list RadarFrame) :=
  match l with
  | [] => Js.Return []
  | f :: r =>
      match toRadarFrame f with
      | Js.Throw => Js.Throw
      | Js.Return x =>
          match mapFrames r with
          | Js.Throw => Js.Throw
          | Js.Return xs => Js.Return (x :: xs)
          end
      end
  end.

(** [fetchRadarSnapshot]; the argument is what awaiting the fetcher gave,
    [None] when its promise rejected.  [Throw] is a rejected promise. *)
Definition fetchRadarSnapshot (fetched : option Response)
  : Js.outcome RadarSnapshot :=
  match fetched with
  | None => Js.Throw
  | Some response =>
      if negb (ok response) then Js.Throw
      else
        match json response with
        | None => Js.Throw
        | Some data =>
            let host := default RAINVIEWER_DEFAULT_HOST (rv_host data) in
            let rawFrames :=
              match radar data with
              | Some r => default [] (past r)
              | None => []
              end in
            if (length rawFrames =? 0)%nat then Js.Throw
            else
              match mapFrames rawFrames with
              | Js.Throw => Js.Throw
              | Js.Return frames =>
                  match last frames with
                  | None => Js.Throw
                  | Some f =>
                      Js.Return {| host := host; frames := frames;
                                   latestTimeMs := timeMs f |}
                  end
              end
        end
  end.

Definition getNextSnapshotDelayMs (latestTimeMs nowMs : Z) : Z :=
  let nextAvailableTime := latestTimeMs + 10 * 60 * 1000 + 15 * 1000 in
  Z.max (nextAvailableTime - nowMs) 5000.

Definition getRetryDelayMs (retryCount : nat) : Z :=
  Z.min (5000 * 2 ^ Z.of_nat retryCount) 60000.

End RadarSource.

(* ===================================================================== *)
(** ** map-controller.ts: the radar overlay layers of the map *)
(* ===================================================================== *)

Module MapController.

(** A Leaflet tile layer as far as the card drives it. *)
Record TileLayer := { tileUrl : string; opacity : Q }.

(** [radarTileLayers], a [Map<string, L.TileLayer>]. *)
Record t := { radarTileLayers : gmap string TileLayer }.

Definition setRadarLayer (layerId tileUrl : string) (m : t) : t :=
  match radarTileLayers m !! layerId with
  | Some _ => m
  | None =>
      {| radarTileLayers :=
           <[layerId := {| tileUrl := tileUrl; opacity := 0%Q |}]>
             (radarTileLayers m) |}
  end.

Definition removeRadarLayer (layerId : string) (m : t) : t :=
  match radarTileLayers m !! layerId with
  | None => m
  | Some _ => {| radarTileLayers := delete layerId (radarTileLayers m) |}
  end.

Definition setRadarLayerOpacity (layerId : string) (o : Q) (m : t) : t :=
  {| radarTileLayers :=
       alter (fun l => {| tileUrl := tileUrl l; opacity := o |}) layerId
         (radarTileLayers m) |}.

Definition clearRadarLayers (layerIds : list string) (m : t) : t :=
  fold_left (fun acc layerId => removeRadarLayer layerId acc) layerIds m.

End MapController.

(* ===================================================================== *)
(** ** The RainViewer card: frame window, playback and refresh
       (class BomRasterRadarCard, second half of radar-source.ts) *)
(* ===================================================================== *)

Module RasterCard.
Import RadarSource.

(** The fields of the normalized configuration the card reads.
    [frame_count] leaves [normalizeConfig] as an integer of [1, 24]. *)
Record Config :=
  { frame_count : option nat;
    frame_delay : option Z;
    restart_delay : option Z;
    overlay_transparency : option Q }.

(** What a timer runs when it fires. *)
Inductive Callback :=
| AdvanceFrame
| RefreshSnapshot          (* refreshRadarSnapshot(false) *)
| RefreshSnapshotAfterFailure.
                           (* refreshRadarSnapshot(radarFrames.length === 0) *)

(** A handle returned by [setTimeout]; [pending] falls when it fires. *)
Record Timer := { delayMs : Z; callback : Callback; pending : bool }.

(** The footer text; [formatRadarTimestamp] renders in the local time
    zone and is kept symbolic. *)
Inductive Label :=
| LoadingRadar
| NoRadarData
| FormattedTime (isoTime : string).

Record Card :=
  { _config : option Config;
    mapController : option MapController.t;
    snapshotTimer : option Timer;
    frameTimer : option Timer;
    retryCount : nat;
    radarHost : string;
    frameIndex : nat;
    layerIds : list string;
    radarFrames : list RadarFrame;
    timestampLabel : Label;
    progressPercent : Q }.

Definition with_frames (c : Card) (fs : list RadarFrame) (ls : list string)
    (mc : option MapController.t) : Card :=
  {| _config := _config c; mapController := mc;
     snapshotTimer := snapshotTimer c; frameTimer := frameTimer c;
     retryCount := retryCount c; radarHost := radarHost c;
     frameIndex := frameIndex c; layerIds := ls; radarFrames := fs;
     timestampLabel := timestampLabel c;
     progressPercent := progressPercent c |}.

Definition with_frameIndex (c : Card) (i : nat) : Card :=
  {| _config := _config c; mapController := mapController c;
     snapshotTimer := snapshotTimer c; frameTimer := frameTimer c;
     retryCount := retryCount c; radarHost := radarHost c;
     frameIndex := i; layerIds := layerIds c; radarFrames := radarFrames c;
     timestampLabel := timestampLabel c;
     progressPercent := progressPercent c |}.

Definition with_frameTimer (c : Card) (t : option Timer) : Card :=
  {| _config := _config c; mapController := mapController c;
     snapshotTimer := snapshotTimer c; frameTimer := t;
     retryCount := retryCount c; radarHost := radarHost c;
     frameIndex := frameIndex c; layerIds := layerIds c;
     radarFrames := radarFrames c; timestampLabel := timestampLabel c;
     progressPercent := progressPercent c |}.

Definition with_snapshotTimer (c : Card) (t : option Timer) (retries : nat)
  : Card :=
  {| _config := _config c; mapController := mapController c;
     snapshotTimer := t; frameTimer := frameTimer c;
     retryCount := retries; radarHost := radarHost c;
     frameIndex := frameIndex c; layerIds := layerIds c;
     radarFrames := radarFrames c; timestampLabel := timestampLabel c;
     progressPercent := progressPercent c |}.

Definition with_footer (c : Card) (mc : option MapController.t)
    (l : Label) (p : Q) : Card :=
  {| _config := _config c; mapController := mc;
     snapshotTimer := snapshotTimer c; frameTimer := frameTimer c;
     retryCount := retryCount c; radarHost := radarHost c;
     frameIndex := frameIndex c; layerIds := layerIds c;
     radarFrames := radarFrames c; timestampLabel := l;
     progressPercent := p |}.

Definition with_retries_and_host (c : Card) (retries : nat) (h : string)
  : Card :=
  {| _config := _config c; mapController := mapController c;
     snapshotTimer := snapshotTimer c; frameTimer := frameTimer c;
     retryCount := retries; radarHost := h;
     frameIndex := frameIndex c; layerIds := layerIds c;
     radarFrames := radarFrames c; timestampLabel := timestampLabel c;
     progressPercent := progressPercent c |}.

(** The timer that is still to fire, if any. *)
Definition armed (t : option Timer) : option Timer :=
  match t with
  | Some tm => if pending tm then Some tm else None
  | None => None
  end.

Definition frameCountOr7 (c : Card) : nat :=
  match _config c with
  | Some cfg => default 7%nat (frame_count cfg)
  | None => 7%nat
  end.

Definition addFrame (frame : RadarFrame) (c : Card) : Card :=
  match mapController c with
  | None => c
  | Some mc =>
      with_frames c (radarFrames c ++ [frame]) (layerIds c ++ [id frame])
        (Some (MapController.setRadarLayer (id frame)
                 (buildRadarTileUrl (radarHost c) (path frame)) mc))
  end.

Definition addFrames (frames : list RadarFrame) (c : Card) : Card :=
  fold_left (fun acc frame => addFrame frame acc) frames c.

Definition lastIndex (c : Card) : nat :=
  if (0 <? length (radarFrames c))%nat
  then (length (radarFrames c) - 1)%nat else 0%nat.

Definition replaceFrames (frames : list RadarFrame) (c : Card) : Card :=
  match mapController c with
  | None => c
  | Some mc =>
      let c1 :=
        with_frames c [] []
          (Some (MapController.clearRadarLayers (layerIds c) mc)) in
      let c2 := addFrames frames c1 in
      with_frameIndex c2 (lastIndex c2)
  end.

(** One turn of the eviction loop of [mergeNewFrames]: both arrays are
    shifted; an empty layer id is falsy and is not removed from the map. *)
Definition evictOne (c : Card) : Card :=
  let removed := head (radarFrames c) in
  let removedLayerId := head (layerIds c) in
  let mc :=
    match removedLayerId, mapController c with
    | Some lid, Some m =>
        if String.eqb lid "" then Some m
        else Some (MapController.removeRadarLayer lid m)
    | _, other => other
    end in
  let c1 := with_frames c (tail (radarFrames c)) (tail (layerIds c)) mc in
  match removed with
  | Some _ =>
      if (0 <? frameIndex c1)%nat
      then with_frameIndex c1 (frameIndex c1 - 1)%nat else c1
  | None => c1
  end.

(** [while (this.radarFrames.length > frameCount) { ... }]; every turn
    shortens the array, so its length bounds the number of turns. *)
Fixpoint evictLoop (turns : nat) (frameCount : nat) (c : Card) : Card :=
  match turns with
  | O => c
  | S k =>
      if (frameCount <? length (radarFrames c))%nat
      then evictLoop k frameCount (evictOne c)
      else c
  end.

Definition evictWhileOver (frameCount : nat) (c : Card) : Card :=
  evictLoop (length (radarFrames c)) frameCount c.

Definition latestKnownIndex (allFrames : list RadarFrame) (c : Card)
  : option nat :=
  match last (radarFrames c) with
  | Some f => Js.findIndex (fun frame => String.eqb (id frame) (id f)) allFrames
  | None => None
  end.

Definition framesToAdd (allFrames : list RadarFrame) (frameCount : nat)
    (c : Card) : list RadarFrame :=
  match latestKnownIndex allFrames c with
  | Some k => Js.slice_from (Z.of_nat k + 1) allFrames
  | None =>
      Js.slice_from
        (Z.max (Z.of_nat (length allFrames) - Z.of_nat frameCount) 0)
        allFrames
  end.

Definition mergeNewFrames (allFrames : list RadarFrame) (frameCount : nat)
    (c : Card) : Card :=
  let toAdd := framesToAdd allFrames frameCount c in
  if (length toAdd =? 0)%nat then c
  else
    let c1 := addFrames toAdd c in
    let c2 := evictWhileOver frameCount c1 in
    with_frameIndex c2 (lastIndex c2).

Definition getOverlayOpacity (c : Card) : Q :=
  let transparency :=
    match _config c with
    | Some cfg => default 0%Q (overlay_transparency cfg)
    | None => 0%Q
    end in
  let o := (1 - transparency / 100)%Q in
  Qmin 1 (Qmax 0 o).

(** [layerIds.forEach((layerId, layerIndex) => ...)] from index [i] on. *)
Fixpoint setOpacities (ids : list string) (i : nat) (visible : nat)
    (o : Q) (m : MapController.t) : MapController.t :=
  match ids with
  | [] => m
  | lid :: r =>
      setOpacities r (S i) visible o
        (MapController.setRadarLayerOpacity lid
           (if (i =? visible)%nat then o else 0%Q) m)
  end.

(** A method body either runs to its end or is left by an exception; the
    fields written before the exception stay written. *)
Inductive completion :=
| Normal (c : Card)
| Abrupt (c : Card).

Definition applyVisibleFrame (c : Card) : completion :=
  match mapController c with
  | None => Normal c
  | Some mc =>
      let mc' :=
        setOpacities (layerIds c) 0 (frameIndex c) (getOverlayOpacity c) mc in
      if (length (radarFrames c) =? 0)%nat
      then Normal (with_footer c (Some mc') NoRadarData 0%Q)
      else
        match radarFrames c !! frameIndex c with
        | None =>
            (* visibleFrame is undefined: reading its field throws *)
            Abrupt (with_footer c (Some mc') (timestampLabel c)
                      (progressPercent c))
        | Some visibleFrame =>
            Normal
              (with_footer c (Some mc')
                 (FormattedTime (timestampIso visibleFrame))
                 ((inject_Z (Z.of_nat (frameIndex c) + 1)
                   / inject_Z (Z.of_nat (length (radarFrames c)))) * 100)%Q)
        end
  end.

Definition restartDelayOr1000 (cfg : Config) : Z := default 1000 (restart_delay cfg).
Definition frameDelayOr250 (cfg : Config) : Z := default 250 (frame_delay cfg).

Definition scheduleNextFrame (delay : Z) (c : Card) : Card :=
  let c1 := with_frameTimer c None in
  match _config c with
  | None => c1
  | Some _ =>
      if (length (radarFrames c) <=? 1)%nat then c1
      else
        with_frameTimer c1
          (Some {| delayMs := delay; callback := AdvanceFrame;
                   pending := true |})
  end.

Definition advanceFrame (c : Card) : completion :=
  match _config c with
  | None => Normal c
  | Some cfg =>
      if (length (radarFrames c) =? 0)%nat then Normal c
      else
        let c1 :=
          with_frameIndex c
            ((frameIndex c + 1) mod length (radarFrames c))%nat in
        match applyVisibleFrame c1 with
        | Abrupt c2 => Abrupt c2
        | Normal c2 =>
            let isLastFrame :=
              (Z.of_nat (frameIndex c2)
               =? Z.of_nat (length (radarFrames c2)) - 1) in
            let nextDelay :=
              if isLastFrame then restartDelayOr1000 cfg
              else frameDelayOr250 cfg in
            Normal (scheduleNextFrame nextDelay c2)
        end
  end.

Definition scheduleNextSnapshot (latestTimeMs nowMs : Z) (c : Card) : Card :=
  let delay := getNextSnapshotDelayMs latestTimeMs nowMs in
  with_snapshotTimer c
    (Some {| delayMs := delay; callback := RefreshSnapshot; pending := true |})
    (retryCount c).

Definition scheduleRetry (c : Card) : Card :=
  let delay := getRetryDelayMs (retryCount c) in
  with_snapshotTimer c
    (Some {| delayMs := delay; callback := RefreshSnapshotAfterFailure;
             pending := true |})
    (retryCount c + 1)%nat.

(** [refreshRadarSnapshot].  [fetched] is what the awaited fetch gave
    ([None]: it rejected), [nowMs] the clock read by
    [scheduleNextSnapshot]; [c] is the card when the fetch settles. *)
Definition refreshRadarSnapshot (resetFrames : bool)
    (fetched : option Response) (nowMs : Z) (c : Card) : Card :=
  match _config c, mapController c with
  | Some cfg, Some _ =>
      match fetchRadarSnapshot fetched with
      | Js.Throw => scheduleRetry c
      | Js.Return snapshot =>
          let c1 := with_retries_and_host c 0 (host snapshot) in
          let c2 :=
            if resetFrames || (length (radarFrames c1) =? 0)%nat
            then replaceFrames
                   (Js.slice_from (- Z.of_nat (frameCountOr7 c1))
                      (frames snapshot)) c1
            else mergeNewFrames (frames snapshot) (frameCountOr7 c1) c1 in
          match applyVisibleFrame c2 with
          | Abrupt c3 => scheduleRetry c3
          | Normal c3 =>
              scheduleNextFrame (restartDelayOr1000 cfg)
                (scheduleNextSnapshot (latestTimeMs snapshot) nowMs c3)
          end
      end
  | _, _ => c
  end.

(** The frame timer fires: its handle stays in the field, no longer
    pending, and [advanceFrame] runs. *)
Definition fireFrameTimer (c : Card) : completion :=
  match frameTimer c with
  | Some tm =>
      if pending tm
      then advanceFrame
             (with_frameTimer c
                (Some {| delayMs := delayMs tm; callback := callback tm;
                         pending := false |}))
      else Normal c
  | None => Normal c
  end.

End RasterCard.

(* ===================================================================== *)
(** ** bom-radar-card.ts: the BoM WMTS card and its grid layer *)
(* ===================================================================== *)

Module BomRadarCard.

Definition WMTS_KVP_BASE : string :=
  "https://api.bom.gov.au/apikey/v1/mapping/timeseries/wmts".
Definition WMTS_LAYER : string := "atm_surf_air_precip_reflectivity_dbz".
Definition WMTS_TILE_MATRIX_SET : string := "GoogleMapsCompatible_BoM".
Definition EARTH_HALF_CIRCUMFERENCE : Q := 20037508342789244 # 1000000000.

Record TileMatrix := { originX : Q; originY : Q; cols : Z; rows : Z }.

Definition BOM_TILE_MATRICES : gmap Z TileMatrix :=
  list_to_map
    [ (0, {| originX := 11584952 # 1; originY := 34168990685578 # 1000000;
             cols := 1; rows := 1 |});
      (1, {| originX := 11584952 # 1; originY := 14131482342789 # 1000000;
             cols := 1; rows := 1 |});
      (2, {| originX := 11584952 # 1; originY := 4112728171395 # 1000000;
             cols := 1; rows := 1 |});
      (3, {| originX := 11584952 # 1; originY := 4112728171395 # 1000000;
             cols := 2; rows := 2 |});
      (4, {| originX := 11584952 # 1; originY := 1608039628546 # 1000000;
             cols := 3; rows := 3 |});
      (5, {| originX := 11584952 # 1; originY := 355695357122 # 1000000;
             cols := 6; rows := 5 |});
      (6, {| originX := 11584952 # 1; originY := -270476778591 # 1000000;
             cols := 11; rows := 9 |});
      (7, {| originX := 11584952 # 1; originY := -583562846447 # 1000000;
             cols := 22; rows := 17 |});
      (8, {| originX := 11584952 # 1; originY := -740105880375 # 1000000;
             cols := 43; rows := 33 |}) ].

Definition getTileSpan (z : Z) : Q :=
  ((2 * EARTH_HALF_CIRCUMFERENCE) / (2 ^ z))%Q.

Definition bomKvpUrl (z row col : Z) (time : string) : string :=
  WMTS_KVP_BASE +:+ "?SERVICE=WMTS&REQUEST=GetTile&VERSION=1.0.0"
    +:+ "&LAYER=" +:+ WMTS_LAYER +:+ "&STYLE=default&FORMAT=image/png"
    +:+ "&TILEMATRIXSET=" +:+ WMTS_TILE_MATRIX_SET
    +:+ "&TILEMATRIX=" +:+ Js.number_to_string z
    +:+ "&TILEROW=" +:+ Js.number_to_string row
    +:+ "&TILECOL=" +:+ Js.number_to_string col
    +:+ "&TIME=" +:+ Js.encodeURIComponent time.

(** *** BomRadarGridLayer.createTile *)

(** Leaflet's tile address. *)
Record Coords := { x : Z; y : Z; z : Z }.

(** An [<img>] child of the tile: its source and its [left]/[top] in
    pixels (width and height are always 256). *)
Record Img := { src : string; left : Z; top : Z }.

(** The values [lo, lo+1, ..., hi] of a counting [for] loop. *)
Definition countFromTo (lo hi : Z) : list Z :=
  map (fun k => lo + Z.of_nat k) (seq 0 (Z.to_nat (hi - lo + 1))).

Definition leafMinX (c : Coords) : Q :=
  (- EARTH_HALF_CIRCUMFERENCE + inject_Z (x c) * getTileSpan (z c))%Q.
Definition leafMaxX (c : Coords) : Q := (leafMinX c + getTileSpan (z c))%Q.
Definition leafMaxY (c : Coords) : Q :=
  (EARTH_HALF_CIRCUMFERENCE - inject_Z (y c) * getTileSpan (z c))%Q.
Definition leafMinY (c : Coords) : Q := (leafMaxY c - getTileSpan (z c))%Q.

Definition firstCol (tm : TileMatrix) (c : Coords) : Z :=
  Qfloor ((leafMinX c - originX tm) / getTileSpan (z c)).
Definition lastCol (tm : TileMatrix) (c : Coords) : Z :=
  Qfloor ((leafMaxX c - originX tm - (1 # 100)) / getTileSpan (z c)).
Definition firstRow (tm : TileMatrix) (c : Coords) : Z :=
  Qfloor ((originY tm - leafMaxY c) / getTileSpan (z c)).
Definition lastRow (tm : TileMatrix) (c : Coords) : Z :=
  Qfloor ((originY tm - leafMinY c - (1 # 100)) / getTileSpan (z c)).

(** The body of the inner loop: the image of BoM tile ([row], [col]). *)
Definition tileImg (timestamp : string) (tm : TileMatrix) (c : Coords)
    (row col : Z) : Img :=
  let tileSpan := getTileSpan (z c) in
  let bomMinX := (originX tm + inject_Z col * tileSpan)%Q in
  let bomMaxY := (originY tm - inject_Z row * tileSpan)%Q in
  let offsetX := Js.round (((bomMinX - leafMinX c) / tileSpan) * 256) in
  let offsetY := Js.round (((leafMaxY c - bomMaxY) / tileSpan) * 256) in
  {| src := bomKvpUrl (z c) row col timestamp; left := offsetX; top := offsetY |}.

(** The children appended to the tile [<div>], in order, for a table of
    tile matrices.  The [done] callback only reports readiness. *)
Definition createTileIn (matrices : gmap Z TileMatrix) (timestamp : string)
    (c : Coords) : list Img :=
  match matrices !! z c with
  | None => []
  | Some tm =>
      flat_map
        (fun row =>
           map (fun col => tileImg timestamp tm c row col)
             (countFromTo (Z.max 0 (firstCol tm c))
                (Z.min (cols tm - 1) (lastCol tm c))))
        (countFromTo (Z.max 0 (firstRow tm c))
           (Z.min (rows tm - 1) (lastRow tm c)))
  end.

Definition createTile (timestamp : string) (c : Coords) : list Img :=
  createTileIn BOM_TILE_MATRICES timestamp c.

(** *** Timestamps of the BoM card *)

Definition formatWmtsTimestamp (date : JsDate.Date) : string :=
  let y := JsDate.getter_string JsDate.YearFromTime date in
  let mo :=
    Js.padStart 2
      (JsDate.getter_string (fun t => JsDate.MonthFromTime t + 1) date) in
  let d := Js.padStart 2 (JsDate.getter_string JsDate.DateFromTime date) in
  let h := Js.padStart 2 (JsDate.getter_string JsDate.HourFromTime date) in
  let mi := Js.padStart 2 (JsDate.getter_string JsDate.MinFromTime date) in
  y +:+ "-" +:+ mo +:+ "-" +:+ d +:+ "T" +:+ h +:+ ":" +:+ mi +:+ ":00Z".

Definition fiveMinutes : Z := 5 * 60 * 1000.

(** [latestMs] of [getRadarCapabilities]; [dateNow] is [Date.now()]. *)
Definition latestMs (dateNow : Z) : Z :=
  let now := dateNow - fiveMinutes in
  (now / fiveMinutes) * fiveMinutes.

(** The time values of [availableTimestamps], oldest first: the loop
    [unshift]s [latestMs - i * 5 min] for [i = 0 .. count - 1]. *)
Definition timestampTimes (dateNow frame_count : Z) : list Z :=
  let count := Z.max frame_count 12 + 4 in
  rev (map (fun i => latestMs dateNow - i * fiveMinutes)
         (countFromTo 0 (count - 1))).

Definition availableTimestamps (dateNow frame_count : Z) : list string :=
  map (fun t => formatWmtsTimestamp (JsDate.mkDate t))
    (timestampTimes dateNow frame_count).

(** [generateTimestamps], the fallback of [loadRadarLayers]. *)
Definition generateTimestamps (start_time frame_count : Z) : list string :=
  map (fun i => formatWmtsTimestamp (JsDate.mkDate (start_time + i * fiveMinutes)))
    (countFromTo 0 (frame_count - 1)).

(** [loadRadarLayers]: the ids of the layers created at start-up, each the
    [timestamp] of a [BomRadarGridLayer]. *)
Definition loadRadarLayers (availableTimestamps : list string)
    (start_time frame_count : Z) : list string :=
  if (0 <? length availableTimestamps)%nat
  then Js.slice_from (- frame_count) availableTimestamps
  else generateTimestamps start_time frame_count.

(** [currentTime] after [getRadarCapabilities]: the latest timestamp, which
    [shouldUpdate] turns into one more layer. *)
Definition currentTime (dateNow : Z) : string :=
  formatWmtsTimestamp (JsDate.mkDate (latestMs dateNow)).

(** The TIME parameter of the request for a tile of a layer. *)
Definition timeParameter (timestamp : string) : string :=
  Js.encodeURIComponent timestamp.

(** *** Retry of the capabilities poll *)

Definition MAX_RETRY_COUNT : Z := 5.

(** [scheduleCapabilitiesRetry]: the delay armed and the new counter. *)
Definition scheduleCapabilitiesRetry (capabilitiesRetryCount : Z) : Z * Z :=
  let delay := Z.min (5000 * 2 ^ capabilitiesRetryCount) 60000 in
  (delay, Z.min (capabilitiesRetryCount + 1) MAX_RETRY_COUNT).

(** *** Playback of the two interval-driven cards
    ([changeRadarFrame] is the same text in bom-radar-card.ts and in
    bom-raster-radar-card.ts) *)

Record Playback :=
  { hasMap : bool;
    frame_count : Z;
    frame_delay : Z;
    restart_delay : Z;
    mapLayers : list string;
    radarTime : list string;
    layerOpacity : gmap string Q;
    overlayOpacity : Q;
    frame : Z;
    frameTimer : option Z }.

Definition at_index {A} (l : list A) (i : Z) : option A :=
  if i <? 0 then None else l !! Z.to_nat i.

Definition setOpacity (layer : option string) (o : Q) (m : gmap string Q)
  : gmap string Q :=
  match layer with
  | Some lid => alter (fun _ => o) lid m
  | None => m
  end.

(** [changeRadarFrame] on a window that holds at least one layer (on an
    empty one the remainder is NaN).  The interval is cleared and set
    again with the chosen period on every call. *)
Definition changeRadarFrame (p : Playback) : Playback :=
  if negb (hasMap p) then p
  else
    let len := Z.of_nat (length (mapLayers p)) in
    let extra := frame_count p <? len in
    let next := Z.rem (frame p + 1) len in
    let currentLayer := at_index (mapLayers p) (frame p) in
    let nextLayer := at_index (mapLayers p) next in
    let m1 := setOpacity currentLayer 0%Q (layerOpacity p) in
    let m2 := setOpacity nextLayer (overlayOpacity p) m1 in
    let m3 :=
      if extra
      then match head (mapLayers p) with
           | Some old => delete old m2
           | None => m2
           end
      else m2 in
    let next' := if extra then next - 1 else next in
    {| hasMap := hasMap p; frame_count := frame_count p;
       frame_delay := frame_delay p; restart_delay := restart_delay p;
       mapLayers := if extra then tail (mapLayers p) else mapLayers p;
       radarTime := if extra then tail (radarTime p) else radarTime p;
       layerOpacity := m3; overlayOpacity := overlayOpacity p;
       frame := next';
       frameTimer :=
         Some (if next' =? frame_count p - 1
               then restart_delay p else frame_delay p) |}.

End BomRadarCard.

(* ===================================================================== *)
(** ** config.ts: normalizeConfig *)
(* ===================================================================== *)

Module Config.

Definition DEFAULT_FRAME_COUNT : Q := 7.
Definition DEFAULT_FRAME_DELAY : Q := 250.
Definition DEFAULT_RESTART_DELAY : Q := 1000.
Definition DEFAULT_ZOOM_LEVEL : Q := 8.

(** A JavaScript number: a finite value, NaN or an infinity. *)
Inductive number :=
| Finite (q : Q)
| NaN
| PosInfinity
| NegInfinity.

Inductive MapStyle := Light | Dark.

(** [Partial<BomRasterRadarCardConfig>]: every key may be absent. *)
Record PartialConfig :=
  { p_entity : option Js.utf16;
    p_card_title : option Js.utf16;
    p_hide_header : option bool;
    p_map_style : option string;
    p_zoom_level : option number;
    p_show_marker : option bool;
    p_show_zoom : option bool;
    p_show_scale : option bool;
    p_show_recenter : option bool;
    p_frame_count : option number;
    p_frame_delay : option number;
    p_restart_delay : option number;
    p_overlay_transparency : option number }.

Record NormalizeConfigOptions := { requireEntity : option bool }.

Record CardConfig :=
  { type : string;
    entity : Js.utf16;
    card_title : option Js.utf16;
    hide_header : bool;
    map_style : MapStyle;
    zoom_level : Q;
    show_marker : bool;
    show_zoom : bool;
    show_scale : bool;
    show_recenter : bool;
    frame_count : Q;
    frame_delay : Q;
    restart_delay : Q;
    overlay_transparency : Q }.

(** [Number(value)] of an absent key is NaN. *)
Definition toFiniteNumber (value : option number) : option Q :=
  match value with
  | Some (Finite q) => Some q
  | _ => None
  end.

Definition clamp (value min max : Q) : Q := Qmin max (Qmax min value).

Definition sanitizeMapStyle (value : option string) : MapStyle :=
  match value with
  | Some v => if String.eqb v "Dark" then Dark else Light
  | None => Light
  end.

Definition sanitizeEntity (value : option Js.utf16) : Js.utf16 :=
  match value with
  | Some v => Js.trim v
  | None => []
  end.

Definition notFalse (b : option bool) : bool :=
  match b with
  | Some false => false
  | _ => true
  end.

Definition rounded (q : Q) : Q := inject_Z (Js.round q).

Section WithCardType.

(** const.ts is not among the sources; its constant is a parameter. *)
Variable CARD_TYPE : string.

Definition normalizeConfig (config : PartialConfig)
    (options : NormalizeConfigOptions) : Js.outcome CardConfig :=
  let entity := sanitizeEntity (p_entity config) in
  if default false (requireEntity options)
     && (length entity =? 0)%nat
  then Js.Throw
  else
    let zoom := toFiniteNumber (p_zoom_level config) in
    let frameCount := toFiniteNumber (p_frame_count config) in
    let frameDelay := toFiniteNumber (p_frame_delay config) in
    let restartDelay := toFiniteNumber (p_restart_delay config) in
    let overlayTransparency :=
      toFiniteNumber (p_overlay_transparency config) in
    Js.Return
      {| type := CARD_TYPE;
         entity := entity;
         card_title :=
           match p_card_title config with
           | Some t =>
               if (0 <? length (Js.trim t))%nat then Some t else None
           | None => None
           end;
         hide_header :=
           match p_hide_header config with
           | Some true => true
           | _ => false
           end;
         map_style := sanitizeMapStyle (p_map_style config);
         zoom_level :=
           match zoom with
           | Some v => clamp (rounded v) 3 10
           | None => DEFAULT_ZOOM_LEVEL
           end;
         show_marker := notFalse (p_show_marker config);
         show_zoom := notFalse (p_show_zoom config);
         show_scale := notFalse (p_show_scale config);
         show_recenter := notFalse (p_show_recenter config);
         frame_count :=
           match frameCount with
           | Some v => clamp (rounded v) 1 24
           | None => DEFAULT_FRAME_COUNT
           end;
         frame_delay :=
           match frameDelay with
           | Some v => clamp (rounded v) 100 5000
           | None => DEFAULT_FRAME_DELAY
           end;
         restart_delay :=
           match restartDelay with
           | Some v => clamp (rounded v) 100 10000
           | None => DEFAULT_RESTART_DELAY
           end;
         overlay_transparency :=
           match overlayTransparency with
           | Some v => clamp v 0 90
           | None => 0
           end |}.

End WithCardType.

End Config.

(* ===================================================================== *)
(** ** map-controller.ts: escaping the marker icon name *)
(* ===================================================================== *)

Module MapHtml.

(** [s.replaceAll(c, by)] for a one-character pattern. *)
Fixpoint replaceAll (c : ascii) (replacement : string) (s : string) : string :=
  match s with
  | EmptyString => EmptyString
  | String a r =>
      if Ascii.eqb a c then replacement +:+ replaceAll c replacement r
      else String a (replaceAll c replacement r)
  end.

(** The double quote character. *)
Definition dquote : ascii := ascii_of_N 34.

Definition escapeHtml (value : string) : string :=
  replaceAll dquote "&quot;"
    (replaceAll ">" "&gt;" (replaceAll "<" "&lt;" (replaceAll "&" "&amp;" value))).

End MapHtml.

(* ===================================================================== *)
(** ** bom-radar-card.ts: overlay transparency of the interval-driven cards *)
(* ===================================================================== *)

Module BomOverlay.

(** [normalizeOverlayTransparency]; the argument is absent, or a number
    that may be NaN or infinite. *)
Definition normalizeOverlayTransparency (value : option Config.number) : Q :=
  match value with
  | None => 0
  | Some (Config.Finite numeric) => Qmin (Qmax numeric 0) 90
  | Some _ => 0
  end.

(** [getOverlayOpacity] for the field [overlayTransparency]: the quotient
    and the difference are each rounded to binary64. *)
Definition getOverlayOpacity (overlayTransparency : Q) : Q :=
  let opacity :=
    Js.binary64 (1 - Js.binary64 (overlayTransparency / 100))%Q in
  Qmax 0 (Qmin 1 opacity).

End BomOverlay.

(* ===================================================================== *)
(** ** config.ts and the card class: the stub configuration *)
(* ===================================================================== *)

Module StubConfig.

(** [arr.find(pred)]. *)
Fixpoint find (pred : Js.utf16 -> bool) (l : list Js.utf16)
  : option Js.utf16 :=
  match l with
  | [] => None
  | a :: r => if pred a then Some a else find pred r
  end.

(** [pickStubEntity(hass, entities)]: [stateKeys] is
    [Object.keys(hass.states)] when [hass] is there. *)
Definition pickStubEntity (stateKeys : option (list Js.utf16))
    (entities : option (list Js.utf16)) : Js.utf16 :=
  let allEntities :=
    match entities with
    | Some es => es
    | None => default [] stateKeys
    end in
  let trackerEntity :=
    match find (Js.startsWith (Js.units "device_tracker.")) allEntities with
    | Some e => Some e
    | None => find (Js.startsWith (Js.units "person.")) allEntities
    end in
  default (Js.units "device_tracker.example") trackerEntity.

(** The configuration object [getStubConfig] hands to [normalizeConfig]:
    only [type] and [entity] are set. *)
Definition stubInput (entity : Js.utf16) : Config.PartialConfig :=
  {| Config.p_entity := Some entity; Config.p_card_title := None;
     Config.p_hide_header := None; Config.p_map_style := None;
     Config.p_zoom_level := None; Config.p_show_marker := None;
     Config.p_show_zoom := None; Config.p_show_scale := None;
     Config.p_show_recenter := None; Config.p_frame_count := None;
     Config.p_frame_delay := None; Config.p_restart_delay := None;
     Config.p_overlay_transparency := None |}.

(** [BomRasterRadarCard.getStubConfig(hass, entities)]. *)
Definition getStubConfig (CARD_TYPE : string)
    (stateKeys : option (list Js.utf16)) (entities : option (list Js.utf16))
  : Js.outcome Config.CardConfig :=
  Config.normalizeConfig CARD_TYPE
    (stubInput (pickStubEntity stateKeys entities))
    {| Config.requireEntity := Some true |}.

End StubConfig.

(* ===================================================================== *)
(** ** The frame window as the specification words it *)
(* ===================================================================== *)

Module Spec.
Import RadarSource.

(** A frame window: its frames, oldest first, and the visible index. *)
Definition Window : Type := list RadarFrame * nat.

(** The frames of a provider list strictly after the frame that carries
    the id [newest]; [None] when no frame carries it. *)
Fixpoint framesAfter (newest : string) (allKnownFrames : list RadarFrame)
  : option (list RadarFrame) :=
  match allKnownFrames with
  | [] => None
  | f :: r =>
      if String.eqb (id f) newest then Some r else framesAfter newest r
  end.

(** The most recent [n] entries of a list sorted oldest to newest. *)
Definition mostRecent {A} (n : nat) (l : list A) : list A :=
  drop (length l - n) l.

(** What a merge appends: everything after the window's newest id when
    the provider still lists it, the most recent [capacity] frames
    otherwise. *)
Definition framesToAppend (window : list RadarFrame)
    (allKnownFrames : list RadarFrame) (capacity : nat) : list RadarFrame :=
  match last window with
  | Some newest =>
      match framesAfter (id newest) allKnownFrames with
      | Some after => after
      | None => mostRecent capacity allKnownFrames
      end
  | None => mostRecent capacity allKnownFrames
  end.

(** One eviction: the front frame goes and the visible index steps back
    unless it is zero already. *)
Definition evictFront (w : Window) : Window :=
  (tail (fst w), Nat.pred (snd w)).

(** Append, evict one at a time while over capacity, show the newest. *)
Definition appendEvictReset (toAdd : list RadarFrame) (capacity : nat)
    (w : Window) : Window :=
  let appended : Window := (fst w ++ toAdd, snd w) in
  let evicted :=
    Nat.iter (length (fst appended) - capacity) evictFront appended in
  (fst evicted, (length (fst evicted) - 1)%nat).

(** [mergeAppend] read literally: the visible index is reset on every
    call. *)
Definition mergeAppend_as_stated (allKnownFrames : list RadarFrame)
    (capacity : nat) (w : Window) : Window :=
  appendEvictReset (framesToAppend (fst w) allKnownFrames capacity)
    capacity w.

(** [mergeAppend] with the guard of the code: a merge that has nothing to
    append leaves the window as it is. *)
Definition mergeAppend (allKnownFrames : list RadarFrame)
    (capacity : nat) (w : Window) : Window :=
  match framesToAppend (fst w) allKnownFrames capacity with
  | [] => w
  | toAdd => appendEvictReset toAdd capacity w
  end.

(** A poll fails when the fetch rejects, the response is not 2xx, or the
    manifest lists no frame. *)
Definition pollFails (fetched : option Response) : Prop :=
  match fetched with
  | None => True
  | Some r =>
      ok r = false
      \/ exists data,
           json r = Some data
           /\ match radar data with
              | Some rd => default [] (past rd) = []
              | None => True
              end
  end.

End Spec.

(* ===================================================================== *)
(** * Properties *)
(* ===================================================================== *)

(** ** Sanity checks of the built-ins *)

Example toISOString_sample :
  JsDate.toISOString (JsDate.mkDate 1771145100000)
  = Js.Return "2026-02-15T08:45:00.000Z".
Proof. vm_compute. reflexivity. Qed.

Example toISOString_before_epoch :
  JsDate.toISOString (JsDate.mkDate (-1))
  = Js.Return "1969-12-31T23:59:59.999Z".
Proof. vm_compute. reflexivity. Qed.

Example toISOString_leap_day :
  JsDate.toISOString (JsDate.mkDate 951782400000)
  = Js.Return "2000-02-29T00:00:00.000Z".
Proof. vm_compute. reflexivity. Qed.

Example round_ties_up : Js.round (5 # 2) = 3 /\ Js.round (-5 # 2) = -2.
Proof. split; reflexivity. Qed.

Example slice_negative : Js.slice_from (-2) [1; 2; 3] = [2; 3].
Proof. reflexivity. Qed.

Example slice_minus_zero : Js.slice_from (- 0) [1; 2; 3] = [1; 2; 3].
Proof. reflexivity. Qed.

(** ** radar-source.ts: the two delays *)

Section Delays.
Import RadarSource.

Example retry_delays_of_the_test_suite :
  getRetryDelayMs 0 = 5000 /\ getRetryDelayMs 1 = 10000
  /\ getRetryDelayMs 10 = 60000.
Proof. repeat split; reflexivity. Qed.

Example snapshot_delays_of_the_test_suite :
  getNextSnapshotDelayMs 100000 100000 = 10 * 60 * 1000 + 15 * 1000
  /\ getNextSnapshotDelayMs 100000 (100000 + 20 * 60 * 1000) = 5000.
Proof. split; reflexivity. Qed.

Lemma getRetryDelayMs_le_cap (n : nat) : getRetryDelayMs n <= 60000.
Proof. unfold getRetryDelayMs. apply Z.le_min_r. Qed.

Lemma getRetryDelayMs_pos (n : nat) : 5000 <= getRetryDelayMs n.
Proof.
  unfold getRetryDelayMs.
  assert (1 <= 2 ^ Z.of_nat n) by (apply Z.pow_le_mono_r with (b := 0); lia).
  lia.
Qed.

Lemma getRetryDelayMs_saturated (n : nat) :
  (4 <= n)%nat -> getRetryDelayMs n = 60000.
Proof.
  intros Hn. unfold getRetryDelayMs.
  assert (2 ^ 4 <= 2 ^ Z.of_nat n) by (apply Z.pow_le_mono_r; lia).
  change (2 ^ 4) with 16 in *. lia.
Qed.

(** C8: the delay to the next poll is
    [max (T + 10 min + 15 s - now, 5000)]: the publication interval plus
    the safety margin when polled at [T], and the 5000 ms floor once [now]
    is at least 610000 ms past [T]. *)
Theorem next_snapshot_delay (T now : Z) :
  getNextSnapshotDelayMs T now
    = Z.max (T + 10 * 60 * 1000 + 15 * 1000 - now) 5000
  /\ getNextSnapshotDelayMs T T = 10 * 60 * 1000 + 15 * 1000
  /\ (T + 10 * 60 * 1000 + 15 * 1000 - 5000 <= now
      -> getNextSnapshotDelayMs T now = 5000)
  /\ 5000 <= getNextSnapshotDelayMs T now.
Proof.
  unfold getNextSnapshotDelayMs. repeat split; lia.
Qed.

Lemma next_snapshot_delay_witness :
  getNextSnapshotDelayMs 100000 (100000 + 20 * 60 * 1000) = 5000.
Proof.
  apply (proj1 (proj2 (proj2 (next_snapshot_delay 100000 1300000)))).
  vm_compute. discriminate.
Defined.

End Delays.

(** ** The frame window of the RainViewer card *)

Section Window.
Import RadarSource RasterCard.

(** *** What the helpers of the window do *)

Lemma addFrame_fields (f : RadarFrame) (c : Card) (mc : MapController.t) :
  mapController c = Some mc ->
  radarFrames (addFrame f c) = radarFrames c ++ [f]
  /\ layerIds (addFrame f c) = layerIds c ++ [id f]
  /\ frameIndex (addFrame f c) = frameIndex c
  /\ exists mc', mapController (addFrame f c) = Some mc'.
Proof.
  intros Hmc. unfold addFrame. rewrite Hmc. cbn. eauto.
Qed.

Lemma addFrames_fields (l : list RadarFrame) :
  forall (c : Card) (mc : MapController.t),
    mapController c = Some mc ->
    radarFrames (addFrames l c) = radarFrames c ++ l
    /\ layerIds (addFrames l c) = layerIds c ++ map id l
    /\ frameIndex (addFrames l c) = frameIndex c
    /\ exists mc', mapController (addFrames l c) = Some mc'.
Proof.
  induction l as [|f l IH]; intros c mc Hmc.
  - cbn. rewrite !app_nil_r. eauto.
  - destruct (addFrame_fields f c mc Hmc) as (Hf & Hl & Hi & mc1 & Hmc1).
    change (addFrames (f :: l) c) with (addFrames l (addFrame f c)).
    destruct (IH _ _ Hmc1) as (Hf' & Hl' & Hi' & Hm').
    rewrite Hf', Hl', Hi', Hf, Hl, Hi. cbn [map].
    rewrite <- !app_assoc. cbn. auto.
Qed.

Lemma addFrames_unmapped (l : list RadarFrame) (c : Card) :
  mapController c = None -> addFrames l c = c.
Proof.
  intros Hmc. induction l as [|f l IH]; [reflexivity|].
  change (addFrames (f :: l) c) with (addFrames l (addFrame f c)).
  unfold addFrame at 1. rewrite Hmc. exact IH.
Qed.

Lemma evictOne_fields (c : Card) :
  radarFrames (evictOne c) = tail (radarFrames c)
  /\ layerIds (evictOne c) = tail (layerIds c)
  /\ frameIndex (evictOne c)
     = match radarFrames c with
       | [] => frameIndex c
       | _ :: _ => Nat.pred (frameIndex c)
       end.
Proof.
  unfold evictOne.
  destruct (radarFrames c) as [|f fs] eqn:Hfs; cbn.
  - auto.
  - destruct (frameIndex c) as [|i] eqn:Hi; cbn; rewrite ?Hi; auto.
    rewrite Nat.sub_0_r. auto.
Qed.

Lemma evictOne_n_fields (k : nat) :
  forall c : Card,
    (k <= length (radarFrames c))%nat ->
    radarFrames (Nat.iter k evictOne c) = drop k (radarFrames c)
    /\ frameIndex (Nat.iter k evictOne c) = (frameIndex c - k)%nat.
Proof.
  induction k as [|k IH]; intros c Hk.
  - cbn. rewrite Nat.sub_0_r. auto.
  - rewrite Nat.iter_succ_r.
    destruct (evictOne_fields c) as (Hf & _ & Hi).
    destruct (radarFrames c) as [|f fs] eqn:Hfs; [cbn in Hk; lia|].
    cbn in Hk, Hf.
    destruct (IH (evictOne c)) as (Hf' & Hi'); [rewrite Hf; lia|].
    rewrite Hf', Hi', Hf, Hi. cbn. split; [reflexivity | lia].
Qed.

(** The [while] loop runs [length - frameCount] turns and stops with the
    guard false: the bound on its turns is never what ends it. *)
Lemma evictLoop_turns (turns : nat) :
  forall (frameCount : nat) (c : Card),
    (length (radarFrames c) - frameCount <= turns)%nat ->
    evictLoop turns frameCount c
    = Nat.iter (length (radarFrames c) - frameCount) evictOne c.
Proof.
  induction turns as [|k IH]; intros fc c Hk.
  - replace (length (radarFrames c) - fc)%nat with 0%nat by lia. reflexivity.
  - cbn [evictLoop].
    destruct (fc <? length (radarFrames c))%nat eqn:Hlt.
    + apply Nat.ltb_lt in Hlt.
      destruct (evictOne_fields c) as (Hf & _ & _).
      assert (Hlen : length (radarFrames (evictOne c))
                     = (length (radarFrames c) - 1)%nat).
      { rewrite Hf. destruct (radarFrames c); cbn in *; lia. }
      rewrite IH by lia. rewrite Hlen.
      replace (length (radarFrames c) - fc)%nat
        with (S (length (radarFrames c) - 1 - fc)) by lia.
      rewrite Nat.iter_succ_r. reflexivity.
    + apply Nat.ltb_ge in Hlt.
      replace (length (radarFrames c) - fc)%nat with 0%nat by lia.
      reflexivity.
Qed.

Lemma evictWhileOver_turns (frameCount : nat) (c : Card) :
  evictWhileOver frameCount c
  = Nat.iter (length (radarFrames c) - frameCount) evictOne c.
Proof. unfold evictWhileOver. apply evictLoop_turns. lia. Qed.

Lemma evictWhileOver_guard_false (frameCount : nat) (c : Card) :
  (length (radarFrames (evictWhileOver frameCount c)) <= frameCount)%nat.
Proof.
  rewrite evictWhileOver_turns.
  destruct (evictOne_n_fields (length (radarFrames c) - frameCount) c)
    as (Hf & _); [lia|].
  rewrite Hf, length_drop. lia.
Qed.



(** *** The frames a merge appends *)

Lemma slice_from_nat {A} (k : nat) (l : list A) :
  Js.slice_from (Z.of_nat k) l = drop k l.
Proof.
  unfold Js.slice_from.
  destruct (Z.of_nat k <? 0) eqn:Hneg; [apply Z.ltb_lt in Hneg; lia|].
  destruct (Z.min_spec (Z.of_nat k) (Z.of_nat (length l))) as [[H ->]|[H ->]].
  - rewrite Nat2Z.id. reflexivity.
  - rewrite Nat2Z.id. rewrite !drop_ge by lia. reflexivity.
Qed.

Lemma slice_from_most_recent {A} (n : nat) (l : list A) :
  Js.slice_from (Z.max (Z.of_nat (length l) - Z.of_nat n) 0) l
  = Spec.mostRecent n l.
Proof.
  unfold Spec.mostRecent.
  replace (Z.max (Z.of_nat (length l) - Z.of_nat n) 0)
    with (Z.of_nat (length l - n)) by lia.
  apply slice_from_nat.
Qed.

Lemma findIndex_framesAfter (newest : string) (l : list RadarFrame) :
  match Js.findIndex (fun frame => String.eqb (id frame) newest) l with
  | Some k => Spec.framesAfter newest l = Some (drop (S k) l)
  | None => Spec.framesAfter newest l = None
  end.
Proof.
  induction l as [|f l IH]; cbn; [reflexivity|].
  destruct (String.eqb (id f) newest); cbn.
  - rewrite drop_0. reflexivity.
  - destruct (Js.findIndex _ l); cbn; exact IH.
Qed.

Lemma framesToAdd_spec (allFrames : list RadarFrame) (frameCount : nat)
    (c : Card) :
  framesToAdd allFrames frameCount c
  = Spec.framesToAppend (radarFrames c) allFrames frameCount.
Proof.
  unfold framesToAdd, latestKnownIndex, Spec.framesToAppend.
  destruct (last (radarFrames c)) as [f|].
  - pose proof (findIndex_framesAfter (id f) allFrames) as H.
    destruct (Js.findIndex _ allFrames) as [k|]; rewrite H.
    + replace (Z.of_nat k + 1) with (Z.of_nat (S k)) by lia.
      apply slice_from_nat.
    + apply slice_from_most_recent.
  - apply slice_from_most_recent.
Qed.

Lemma tail_drop {A} (k : nat) :
  forall l : list A, tail (drop k l) = drop (S k) l.
Proof.
  induction k as [|k IH]; intros [|a l]; cbn; try reflexivity.
  apply IH.
Qed.

Lemma evictFront_n (k : nat) (w : Spec.Window) :
  Nat.iter k Spec.evictFront w = (drop k (fst w), (snd w - k)%nat).
Proof.
  induction k as [|k IH].
  - cbn. rewrite Nat.sub_0_r. destruct w; reflexivity.
  - rewrite Nat.iter_succ, IH. unfold Spec.evictFront. cbn [fst snd]. f_equal.
    + apply tail_drop.
    + lia.
Qed.

Definition sampleFrame (n : Z) (s : string) : RadarFrame :=
  {| id := s; timestampIso := s; timeMs := n; path := "/v2/radar/" +:+ s |}.

Definition sampleConfig : Config :=
  {| frame_count := Some 3%nat; frame_delay := Some 250;
     restart_delay := Some 1000; overlay_transparency := Some 0%Q |}.

(** A mounted card showing the frames [l] at index [i]. *)
Definition sampleCard (l : list RadarFrame) (i : nat) : Card :=
  {| _config := Some sampleConfig;
     mapController :=
       Some {| MapController.radarTileLayers :=
                 list_to_map
                   (map (fun f =>
                           (id f,
                            {| MapController.tileUrl :=
                                 buildRadarTileUrl RAINVIEWER_DEFAULT_HOST
                                   (path f);
                               MapController.opacity := 0%Q |})) l) |};
     snapshotTimer := None;
     frameTimer :=
       Some {| delayMs := 250; callback := AdvanceFrame; pending := true |};
     retryCount := 0;
     radarHost := RAINVIEWER_DEFAULT_HOST;
     frameIndex := i;
     layerIds := map id l;
     radarFrames := l;
     timestampLabel := LoadingRadar;
     progressPercent := 0%Q |}.

Definition frameA : RadarFrame := sampleFrame 1771143600000 "2026-02-15T08:20:00.000Z".
Definition frameB : RadarFrame := sampleFrame 1771144200000 "2026-02-15T08:30:00.000Z".
Definition frameC : RadarFrame := sampleFrame 1771144800000 "2026-02-15T08:40:00.000Z".
Definition frameD : RadarFrame := sampleFrame 1771145400000 "2026-02-15T08:50:00.000Z".

(** *** C2 *)

(** C2, as stated, fails: on a two-frame window showing index 0, merged
    with a provider list that ends in the window's newest frame, nothing
    is appended and the code returns with the visible index still 0, where
    the literal reading resets it to the last index, 1. *)
Lemma mergeAppend_as_stated_counterexample :
  let c := sampleCard [frameA; frameB] 0 in
  let c' := mergeNewFrames [frameA; frameB] 2 c in
  (radarFrames c', frameIndex c') = ([frameA; frameB], 0%nat)
  /\ Spec.mergeAppend_as_stated [frameA; frameB] 2
       (radarFrames c, frameIndex c)
     = ([frameA; frameB], 1%nat)
  /\ frameIndex c'
     <> snd (Spec.mergeAppend_as_stated [frameA; frameB] 2
               (radarFrames c, frameIndex c)).
Proof. repeat split; try reflexivity. cbn. discriminate. Qed.

(** C2, amended: a merge that finds nothing to append returns at once and
    leaves the window and the visible index as they are; otherwise the
    frames strictly after the window's newest id (or, when the provider no
    longer lists that id, its most recent [frameCount] frames) are
    appended, the front frame is evicted one turn at a time while the
    window is longer than [frameCount], each turn stepping the visible
    index back when it is above zero, and the visible index is finally set
    to the last index. *)
Theorem mergeNewFrames_contract (allFrames : list RadarFrame)
    (frameCount : nat) (c : Card) (mc : MapController.t) :
  mapController c = Some mc ->
  let toAdd := Spec.framesToAppend (radarFrames c) allFrames frameCount in
  let c1 := addFrames toAdd c in
  let c2 := evictWhileOver frameCount c1 in
  let c' := mergeNewFrames allFrames frameCount c in
  framesToAdd allFrames frameCount c = toAdd
  /\ (toAdd = [] -> c' = c)
  /\ (toAdd <> [] ->
      c' = with_frameIndex c2 (length (radarFrames c2) - 1)%nat
      /\ (radarFrames c1, frameIndex c1) = (radarFrames c ++ toAdd, frameIndex c)
      /\ (radarFrames c2, frameIndex c2)
         = Nat.iter (length (radarFrames c ++ toAdd) - frameCount)
             Spec.evictFront (radarFrames c ++ toAdd, frameIndex c)
      /\ (length (radarFrames c2) <= frameCount)%nat)
  /\ (radarFrames c', frameIndex c')
     = Spec.mergeAppend allFrames frameCount (radarFrames c, frameIndex c).
Proof.
  intros Hmc toAdd c1 c2 c'.
  pose proof (framesToAdd_spec allFrames frameCount c) as HtoAdd.
  fold toAdd in HtoAdd.
  destruct (addFrames_fields toAdd c mc Hmc) as (Hf1 & _ & Hi1 & _).
  fold c1 in Hf1, Hi1.
  assert (Hc2 : (radarFrames c2, frameIndex c2)
                = Nat.iter (length (radarFrames c ++ toAdd) - frameCount)
                    Spec.evictFront (radarFrames c ++ toAdd, frameIndex c)).
  { subst c2. rewrite evictWhileOver_turns, evictFront_n. cbn [fst snd].
    destruct (evictOne_n_fields (length (radarFrames c1) - frameCount) c1)
      as (Hf & Hi); [lia|].
    rewrite Hf, Hi, Hf1, Hi1. reflexivity. }
  assert (Hlast : forall d : Card,
             (0 < length (radarFrames d))%nat ->
             lastIndex d = (length (radarFrames d) - 1)%nat).
  { intros d Hd. unfold lastIndex.
    destruct (0 <? length (radarFrames d))%nat eqn:E; [reflexivity|].
    apply Nat.ltb_ge in E. lia. }
  assert (Hlast0 : forall d : Card,
             lastIndex d = (length (radarFrames d) - 1)%nat).
  { intros d. unfold lastIndex.
    destruct (0 <? length (radarFrames d))%nat eqn:E; [reflexivity|].
    apply Nat.ltb_ge in E. lia. }
  clear Hlast.
  assert (Hmerge : toAdd <> [] ->
             c' = with_frameIndex c2 (length (radarFrames c2) - 1)%nat).
  { intros Hne. subst c'. unfold mergeNewFrames. rewrite HtoAdd.
    destruct toAdd as [|f r] eqn:E; [congruence|].
    cbn [length Nat.eqb]. fold c1. fold c2. rewrite Hlast0. reflexivity. }
  split; [exact HtoAdd|].
  split.
  { intros Hnil. subst c'. unfold mergeNewFrames.
    rewrite HtoAdd, Hnil. reflexivity. }
  split.
  { intros Hne. split; [auto|]. split; [rewrite Hf1, Hi1; reflexivity|].
    split; [exact Hc2|]. apply evictWhileOver_guard_false. }
  unfold Spec.mergeAppend. cbn [fst snd]. fold toAdd.
  destruct toAdd as [|f r] eqn:E.
  - subst c'. unfold mergeNewFrames. rewrite HtoAdd. reflexivity.
  - rewrite Hmerge by congruence.
    unfold Spec.appendEvictReset. cbn [fst snd].
    rewrite <- Hc2. cbn [fst snd]. reflexivity.
Qed.

Lemma mergeNewFrames_contract_witness :
  let c := sampleCard [frameA; frameB; frameC] 1 in
  (radarFrames (mergeNewFrames [frameB; frameC; frameD] 3 c),
   frameIndex (mergeNewFrames [frameB; frameC; frameD] 3 c))
  = ([frameB; frameC; frameD], 2%nat).
Proof.
  intros c.
  destruct (mergeNewFrames_contract [frameB; frameC; frameD] 3 c
              (default {| MapController.radarTileLayers := ∅ |}
                 (mapController c)) eq_refl)
    as (_ & _ & _ & H).
  rewrite H. reflexivity.
Defined.



(** *** Merges on a window filled to capacity *)

Lemma evictOne_keeps_map (c : Card) (mc : MapController.t) :
  mapController c = Some mc ->
  exists mc', mapController (evictOne c) = Some mc'.
Proof.
  intros Hmc. unfold evictOne. rewrite Hmc.
  destruct (head (layerIds c)) as [lid|];
    [destruct (String.eqb lid "")|];
    destruct (head (radarFrames c));
    try destruct (0 <? _)%nat; cbn; eauto.
Qed.

Lemma evictOne_n_keeps_map (k : nat) (c : Card) (mc : MapController.t) :
  mapController c = Some mc ->
  exists mc', mapController (Nat.iter k evictOne c) = Some mc'.
Proof.
  intros Hmc. induction k as [|k (mc' & IH)]; [cbn; eauto|].
  rewrite Nat.iter_succ. exact (evictOne_keeps_map _ mc' IH).
Qed.

(** A merge that brings one new frame to a window filled to its capacity
    [N] drops the oldest frame, keeps [N] frames and shows the newest. *)
Lemma merge_one_frame_at_capacity (allFrames : list RadarFrame) (N : nat)
    (c : Card) (mc : MapController.t) (f : RadarFrame) :
  mapController c = Some mc ->
  length (radarFrames c) = N ->
  (1 <= N)%nat ->
  Spec.framesToAppend (radarFrames c) allFrames N = [f] ->
  let c' := mergeNewFrames allFrames N c in
  radarFrames c' = drop 1 (radarFrames c) ++ [f]
  /\ length (radarFrames c') = N
  /\ frameIndex c' = (N - 1)%nat
  /\ exists mc', mapController c' = Some mc'.
Proof.
  intros Hmc Hlen HN Hadd c'. subst c'. unfold mergeNewFrames.
  rewrite framesToAdd_spec, Hadd. cbn [length Nat.eqb].
  destruct (addFrames_fields [f] c mc Hmc) as (Hf1 & _ & _ & mc1 & Hmc1).
  set (c1 := addFrames [f] c) in *.
  rewrite evictWhileOver_turns.
  assert (Hk : (length (radarFrames c1) - N = 1)%nat).
  { rewrite Hf1, length_app. cbn. lia. }
  rewrite Hk.
  destruct (evictOne_n_fields 1 c1) as (Hf2 & _); [lia|].
  destruct (evictOne_n_keeps_map 1 c1 mc1 Hmc1) as (mc2 & Hmc2).
  set (c2 := Nat.iter 1 evictOne c1) in *.
  assert (Hf : radarFrames c2 = drop 1 (radarFrames c) ++ [f]).
  { rewrite Hf2, Hf1. destruct (radarFrames c); [cbn in Hlen; lia|].
    reflexivity. }
  assert (Hl : length (radarFrames c2) = N).
  { rewrite Hf, length_app, length_drop. cbn. lia. }
  cbn [radarFrames frameIndex mapController with_frameIndex].
  split; [exact Hf|]. split; [exact Hl|]. split; [|eauto].
  unfold lastIndex. rewrite Hl.
  destruct (0 <? N)%nat eqn:E; [reflexivity|].
  apply Nat.ltb_ge in E. lia.
Qed.

(** Successive merges of the provider lists [snapshots]. *)
Definition mergeAll (snapshots : list (list RadarFrame)) (N : nat) (c : Card)
  : Card :=
  fold_left (fun acc allFrames => mergeNewFrames allFrames N acc) snapshots c.

(** Every list of [snapshots] brings exactly one new frame when its turn
    comes. *)
Inductive eachAddsOne (N : nat) : Card -> list (list RadarFrame) -> Prop :=
| eachAddsOne_nil (c : Card) : eachAddsOne N c []
| eachAddsOne_cons (c : Card) (allFrames : list RadarFrame)
    (rest : list (list RadarFrame)) (f : RadarFrame) :
    Spec.framesToAppend (radarFrames c) allFrames N = [f] ->
    eachAddsOne N (mergeNewFrames allFrames N c) rest ->
    eachAddsOne N c (allFrames :: rest).

(** After any number of merges that each add one frame to a window at
    capacity [N] (so after [N] of them), the window holds exactly [N] frames
    and the visible index is [N - 1]. *)
Lemma consecutive_merges_at_capacity (snapshots : list (list RadarFrame)) :
  forall (N : nat) (c : Card) (mc : MapController.t),
    mapController c = Some mc ->
    length (radarFrames c) = N ->
    (1 <= N)%nat ->
    snapshots <> [] ->
    eachAddsOne N c snapshots ->
    length (radarFrames (mergeAll snapshots N c)) = N
    /\ frameIndex (mergeAll snapshots N c) = (N - 1)%nat.
Proof.
  induction snapshots as [|s rest IH]; intros N c mc Hmc Hlen HN Hne Hadds;
    [congruence|].
  inversion Hadds as [|c0 s0 r0 f Hone Hrest]; subst c0 s0 r0.
  destruct (merge_one_frame_at_capacity s N c mc f Hmc Hlen HN Hone)
    as (_ & Hl & Hi & mc' & Hmc').
  change (mergeAll (s :: rest) N c)
    with (mergeAll rest N (mergeNewFrames s N c)).
  destruct rest as [|s' rest'].
  - cbn. auto.
  - apply (IH N _ mc' Hmc' Hl HN); [discriminate | exact Hrest].
Qed.

Example three_merges_at_capacity :
  let c := mergeAll [[frameA; frameB; frameC];
                     [frameB; frameC; frameD];
                     [frameB; frameC; frameD]] 2
             (sampleCard [frameA; frameB] 0) in
  (radarFrames c, frameIndex c) = ([frameC; frameD], 1%nat).
Proof. reflexivity. Qed.

(** *** C7 *)

Lemma framesAfter_newest (allFrames : list RadarFrame) (latest : RadarFrame) :
  NoDup (map id allFrames) ->
  last allFrames = Some latest ->
  Spec.framesAfter (id latest) allFrames = Some [].
Proof.
  induction allFrames as [|f r IH]; intros Hnd Hlast; [discriminate|].
  cbn [Spec.framesAfter].
  destruct r as [|g r'].
  - cbn in Hlast. injection Hlast as ->. rewrite String.eqb_refl. reflexivity.
  - change (last (f :: g :: r')) with (last (g :: r')) in Hlast.
    cbn [map] in Hnd. apply NoDup_cons in Hnd. destruct Hnd as [Hnotin Hnd].
    destruct (String.eqb_spec (id f) (id latest)) as [Heq|Hneq].
    + exfalso. apply Hnotin. rewrite Heq.
      apply (list_elem_of_fmap_2 id (g :: r') latest).
      apply last_Some_elem_of. exact Hlast.
    + apply IH; assumption.
Qed.

(** C7: merging a provider list whose newest frame carries the id of the
    window's newest frame (ids being unique in the list) changes nothing:
    length, contents and visible index stay, and so they do when the merge
    is repeated, so no id is added twice. *)
Theorem merge_of_unchanged_snapshot (allFrames : list RadarFrame)
    (frameCount : nat) (c : Card) (newest latest : RadarFrame) :
  last (radarFrames c) = Some newest ->
  last allFrames = Some latest ->
  id newest = id latest ->
  NoDup (map id allFrames) ->
  let c' := mergeNewFrames allFrames frameCount c in
  let c'' := mergeNewFrames allFrames frameCount c' in
  (length (radarFrames c') = length (radarFrames c)
   /\ radarFrames c' = radarFrames c
   /\ frameIndex c' = frameIndex c
   /\ c' = c)
  /\ c'' = c
  /\ (NoDup (map id (radarFrames c)) -> NoDup (map id (radarFrames c''))).
Proof.
  intros Hw Hl Hid Hnd c' c''.
  assert (H : c' = c).
  { subst c'. unfold mergeNewFrames.
    rewrite framesToAdd_spec. unfold Spec.framesToAppend.
    rewrite Hw, Hid, (framesAfter_newest allFrames latest Hnd Hl).
    reflexivity. }
  assert (H' : c'' = c) by (subst c''; rewrite H; exact H).
  rewrite H'. rewrite H. auto.
Qed.

Lemma merge_of_unchanged_snapshot_witness :
  let c := sampleCard [frameA; frameB; frameC] 1 in
  mergeNewFrames [frameA; frameB; frameC] 3
    (mergeNewFrames [frameA; frameB; frameC] 3 c) = c.
Proof.
  intros c.
  refine (proj1 (proj2 (merge_of_unchanged_snapshot [frameA; frameB; frameC]
                          3 c frameC frameC eq_refl eq_refl eq_refl _))).
  match goal with |- ?P => apply (bool_decide_unpack P) end.
  vm_compute. exact I.
Defined.

(** *** C9 and C6: a failed poll *)

Lemma pollFails_throws (fetched : option Response) :
  Spec.pollFails fetched -> fetchRadarSnapshot fetched = Js.Throw.
Proof.
  unfold Spec.pollFails, fetchRadarSnapshot.
  destruct fetched as [r|]; [|reflexivity].
  intros [Hok | (data & Hjson & Hraw)].
  - rewrite Hok. reflexivity.
  - destruct (ok r); [|reflexivity]. cbn [negb]. rewrite Hjson.
    destruct (radar data) as [rd|]; [rewrite Hraw|]; reflexivity.
Qed.

Lemma refreshRadarSnapshot_failed (resetFrames : bool)
    (fetched : option Response) (nowMs : Z) (c : Card)
    (cfg : Config) (mc : MapController.t) :
  _config c = Some cfg ->
  mapController c = Some mc ->
  fetchRadarSnapshot fetched = Js.Throw ->
  refreshRadarSnapshot resetFrames fetched nowMs c = scheduleRetry c.
Proof.
  intros Hcfg Hmc Hthrow. unfold refreshRadarSnapshot.
  destruct (_config c); [|discriminate].
  destruct (mapController c); [|discriminate].
  rewrite Hthrow. reflexivity.
Qed.

(** C9: a poll that fails (the fetch rejects, the response is not 2xx, or
    the manifest lists no frame) leaves the frames, their layers, the
    visible index and the playback timer as they were, and arms the retry
    timer. *)
Theorem failed_poll_keeps_window (resetFrames : bool)
    (fetched : option Response) (nowMs : Z) (c : Card)
    (cfg : Config) (mc : MapController.t) :
  _config c = Some cfg ->
  mapController c = Some mc ->
  Spec.pollFails fetched ->
  let c' := refreshRadarSnapshot resetFrames fetched nowMs c in
  radarFrames c' = radarFrames c
  /\ frameIndex c' = frameIndex c
  /\ layerIds c' = layerIds c
  /\ mapController c' = mapController c
  /\ frameTimer c' = frameTimer c
  /\ armed (snapshotTimer c')
     = Some {| delayMs := getRetryDelayMs (retryCount c);
               callback := RefreshSnapshotAfterFailure; pending := true |}.
Proof.
  intros Hcfg Hmc Hfail c'. subst c'.
  rewrite (refreshRadarSnapshot_failed resetFrames fetched nowMs c cfg mc)
    by auto using pollFails_throws.
  cbn. repeat split; reflexivity.
Qed.

Definition emptyManifest : Response :=
  {| ok := true; status := 200;
     json := Some {| rv_host := None; radar := Some {| past := Some [] |} |} |}.

Lemma failed_poll_keeps_window_witness :
  let c := sampleCard [frameA; frameB; frameC] 1 in
  let c' := refreshRadarSnapshot false (Some emptyManifest) 1771145400000 c in
  (radarFrames c', frameIndex c') = ([frameA; frameB; frameC], 1%nat).
Proof.
  intros c c'.
  destruct (failed_poll_keeps_window false (Some emptyManifest)
              1771145400000 c sampleConfig
              (default {| MapController.radarTileLayers := ∅ |}
                 (mapController c)) eq_refl eq_refl)
    as (Hf & Hi & _).
  - right. exists {| rv_host := None; radar := Some {| past := Some [] |} |}.
    split; reflexivity.
  - fold c' in Hf, Hi. rewrite Hf, Hi. reflexivity.
Defined.

(** [k] polls in a row, each one failing because the fetch rejects. *)
Definition failedPolls (k : nat) (c : Card) : Card :=
  Nat.iter k (refreshRadarSnapshot false None 0) c.

Lemma failedPolls_fields (k : nat) (c : Card) (cfg : Config)
    (mc : MapController.t) :
  _config c = Some cfg ->
  mapController c = Some mc ->
  _config (failedPolls k c) = Some cfg
  /\ mapController (failedPolls k c) = Some mc
  /\ retryCount (failedPolls k c) = (retryCount c + k)%nat.
Proof.
  intros Hcfg Hmc. induction k as [|k (IHc & IHm & IHr)].
  - cbn. rewrite Nat.add_0_r. auto.
  - unfold failedPolls in *. rewrite Nat.iter_succ.
    rewrite (refreshRadarSnapshot_failed _ _ _ _ cfg mc) by auto.
    cbn. rewrite IHr. repeat split; auto. lia.
Qed.

(** C6, the delay: [getRetryDelayMs n] is [min (5000 * 2^n) 60000], so
    5000, 10000, 20000, 40000 and then 60000 for good; it is what a
    failed poll arms.  The counter, however, is incremented without a
    clamp: after [k] failed polls it has grown by [k], so it passes every
    bound, the 5 of [scheduleCapabilitiesRetry] included. *)
Theorem retry_counter_is_not_clamped (c : Card) (cfg : Config)
    (mc : MapController.t) :
  _config c = Some cfg ->
  mapController c = Some mc ->
  (forall n : nat,
      getRetryDelayMs n = Z.min (5000 * 2 ^ Z.of_nat n) 60000
      /\ getRetryDelayMs n <= 60000
      /\ ((4 <= n)%nat -> getRetryDelayMs n = 60000))
  /\ (forall k : nat,
         retryCount (failedPolls k c) = (retryCount c + k)%nat
         /\ armed (snapshotTimer (failedPolls (S k) c))
            = Some {| delayMs := getRetryDelayMs (retryCount c + k);
                      callback := RefreshSnapshotAfterFailure;
                      pending := true |})
  /\ (forall bound : nat,
         (bound < retryCount (failedPolls (S bound) c))%nat).
Proof.
  intros Hcfg Hmc. split; [|split].
  - intros n. split; [reflexivity|]. split.
    + apply getRetryDelayMs_le_cap.
    + apply getRetryDelayMs_saturated.
  - intros k.
    destruct (failedPolls_fields k c cfg mc Hcfg Hmc) as (Hc & Hm & Hr).
    split; [exact Hr|].
    unfold failedPolls in *. rewrite Nat.iter_succ.
    rewrite (refreshRadarSnapshot_failed _ _ _ _ cfg mc) by auto.
    cbn. rewrite Hr. reflexivity.
  - intros bound.
    destruct (failedPolls_fields (S bound) c cfg mc Hcfg Hmc) as (_ & _ & Hr).
    rewrite Hr. lia.
Qed.

Lemma retry_counter_is_not_clamped_witness :
  retryCount (failedPolls 6 (sampleCard [frameA; frameB; frameC] 1)) = 6%nat
  /\ snd (BomRadarCard.scheduleCapabilitiesRetry 5) = 5.
Proof.
  split; [|reflexivity].
  exact (proj1 (proj1 (proj2 (retry_counter_is_not_clamped
           (sampleCard [frameA; frameB; frameC] 1) sampleConfig
           (default {| MapController.radarTileLayers := ∅ |}
              (mapController (sampleCard [frameA; frameB; frameC] 1)))
           eq_refl eq_refl)) 6%nat)).
Defined.

(** The interval-driven cards clamp the counter at [MAX_RETRY_COUNT]. *)
Lemma scheduleCapabilitiesRetry_clamped (n : Z) :
  snd (BomRadarCard.scheduleCapabilitiesRetry n) <= BomRadarCard.MAX_RETRY_COUNT.
Proof. unfold BomRadarCard.scheduleCapabilitiesRetry. cbn [snd]. lia. Qed.



End Window.

(** ** Playback *)

Section Playback.
Import RadarSource RasterCard.

Lemma applyVisibleFrame_in_range (c : Card) :
  (frameIndex c < length (radarFrames c))%nat ->
  exists c',
    applyVisibleFrame c = Normal c'
    /\ radarFrames c' = radarFrames c
    /\ frameIndex c' = frameIndex c
    /\ _config c' = _config c
    /\ frameTimer c' = frameTimer c.
Proof.
  intros Hlt. unfold applyVisibleFrame.
  destruct (mapController c) as [mc|]; [|eauto 6].
  destruct (length (radarFrames c) =? 0)%nat eqn:E.
  { apply Nat.eqb_eq in E. lia. }
  destruct (lookup_lt_is_Some_2 (radarFrames c) (frameIndex c) Hlt)
    as [f Hf].
  rewrite Hf. eexists. split; [reflexivity|]. cbn. auto.
Qed.

(** One run of [advanceFrame] on a card that is configured. *)
Lemma advanceFrame_step (c : Card) (cfg : Config) :
  _config c = Some cfg ->
  let len := length (radarFrames c) in
  exists c',
    advanceFrame c = Normal c'
    /\ radarFrames c' = radarFrames c
    /\ _config c' = Some cfg
    /\ ((2 <= len)%nat ->
        frameIndex c' = ((frameIndex c + 1) mod len)%nat
        /\ frameTimer c'
           = Some {| delayMs :=
                       if (frameIndex c' =? len - 1)%nat
                       then restartDelayOr1000 cfg
                       else frameDelayOr250 cfg;
                     callback := AdvanceFrame; pending := true |})
    /\ (len = 1%nat -> frameTimer c' = None)
    /\ (len = 0%nat -> c' = c).
Proof.
  intros Hcfg len. unfold advanceFrame. rewrite Hcfg.
  destruct (length (radarFrames c) =? 0)%nat eqn:E.
  { apply Nat.eqb_eq in E. exists c. subst len.
    repeat split; auto; intros; lia. }
  apply Nat.eqb_neq in E.
  set (c1 := with_frameIndex c ((frameIndex c + 1) mod length (radarFrames c))%nat).
  destruct (applyVisibleFrame_in_range c1) as (c2 & Hc2 & Hf & Hi & Hc & Ht).
  { cbn. apply Nat.mod_upper_bound. exact E. }
  rewrite Hc2. cbn in Hf, Hi, Hc.
  eexists. split; [reflexivity|].
  unfold scheduleNextFrame. rewrite Hc, Hcfg, Hf.
  destruct (length (radarFrames c) <=? 1)%nat eqn:E1.
  - apply Nat.leb_le in E1. cbn. subst len.
    split; [exact Hf|]. split; [rewrite Hc; exact Hcfg|].
    repeat split; auto; intros; lia.
  - apply Nat.leb_gt in E1. cbn. subst len.
    split; [exact Hf|]. split; [rewrite Hc; exact Hcfg|].
    split; [|split; intros; lia].
    intros _. split; [exact Hi|]. rewrite Hi.
    destruct (Z.eqb_spec
                (Z.of_nat ((frameIndex c + 1) mod length (radarFrames c)))
                (Z.of_nat (length (radarFrames c)) - 1)) as [He|He];
      destruct (Nat.eqb_spec
                  ((frameIndex c + 1) mod length (radarFrames c))
                  (length (radarFrames c) - 1)) as [Hn|Hn];
      try reflexivity; lia.
Qed.

Lemma fireFrameTimer_step (c : Card) (cfg : Config) (tm : Timer) :
  _config c = Some cfg ->
  armed (frameTimer c) = Some tm ->
  let len := length (radarFrames c) in
  exists c',
    fireFrameTimer c = Normal c'
    /\ radarFrames c' = radarFrames c
    /\ _config c' = Some cfg
    /\ ((2 <= len)%nat ->
        frameIndex c' = ((frameIndex c + 1) mod len)%nat
        /\ armed (frameTimer c')
           = Some {| delayMs :=
                       if (frameIndex c' =? len - 1)%nat
                       then restartDelayOr1000 cfg
                       else frameDelayOr250 cfg;
                     callback := AdvanceFrame; pending := true |})
    /\ ((len <= 1)%nat -> armed (frameTimer c') = None).
Proof.
  intros Hcfg Harmed len. unfold fireFrameTimer.
  destruct (frameTimer c) as [t|] eqn:Ht; [|discriminate].
  cbn in Harmed. destruct (pending t) eqn:Hp; [|discriminate].
  set (c0 := with_frameTimer c _).
  destruct (advanceFrame_step c0 cfg Hcfg)
    as (c' & Hadv & Hf & Hc & H2 & H1 & H0).
  cbn in Hf, H2, H1, H0. fold len in H2, H1, H0.
  exists c'. split; [exact Hadv|]. split; [exact Hf|]. split; [exact Hc|].
  split.
  - intros Hlen. destruct (H2 Hlen) as (Hi & Htm). split; [exact Hi|].
    rewrite Htm. reflexivity.
  - intros Hlen.
    assert (Hcase : len = 1%nat \/ len = 0%nat) by lia.
    destruct Hcase as [Hl|Hl].
    + rewrite (H1 Hl). reflexivity.
    + rewrite (H0 Hl). reflexivity.
Qed.


End Playback.

(** ** The grid reconciler *)

Section Grid.
Import BomRadarCard.

Lemma in_countFromTo (lo hi k : Z) :
  In k (countFromTo lo hi) <-> lo <= k <= hi.
Proof.
  unfold countFromTo. rewrite in_map_iff. split.
  - intros (n & <- & Hn). apply in_seq in Hn. lia.
  - intros Hk. exists (Z.to_nat (k - lo)). split; [lia|].
    apply in_seq. lia.
Qed.

Lemma length_countFromTo (lo hi : Z) :
  length (countFromTo lo hi) = Z.to_nat (hi - lo + 1).
Proof. unfold countFromTo. rewrite length_map, length_seq. reflexivity. Qed.

Lemma length_flat_map_const {A B} (f : A -> list B) (n : nat) (l : list A) :
  (forall a, length (f a) = n) ->
  length (flat_map f l) = (length l * n)%nat.
Proof.
  intros Hf. induction l as [|a l IH]; [reflexivity|].
  cbn [flat_map]. rewrite length_app, Hf, IH. cbn. lia.
Qed.

Lemma getTileSpan_pos (zoom : Z) : (0 < getTileSpan zoom)%Q.
Proof.
  unfold getTileSpan. apply Qlt_shift_div_l.
  - apply Qpower_0_lt. reflexivity.
  - rewrite Qmult_0_l. reflexivity.
Qed.

(** The tiles produced for a zoom that has a matrix entry. *)
Lemma createTileIn_entry (matrices : gmap Z TileMatrix)
    (timestamp : string) (c : Coords) (tm : TileMatrix) :
  matrices !! z c = Some tm ->
  let loCol := Z.max 0 (firstCol tm c) in
  let hiCol := Z.min (cols tm - 1) (lastCol tm c) in
  let loRow := Z.max 0 (firstRow tm c) in
  let hiRow := Z.min (rows tm - 1) (lastRow tm c) in
  (forall img : Img,
      In img (createTileIn matrices timestamp c)
      <-> exists col' row' : Z,
            loCol <= col' <= hiCol
            /\ loRow <= row' <= hiRow
            /\ img = tileImg timestamp tm c row' col')
  /\ length (createTileIn matrices timestamp c)
     = (Z.to_nat (hiRow - loRow + 1) * Z.to_nat (hiCol - loCol + 1))%nat.
Proof.
  intros Htm loCol hiCol loRow hiRow.
  unfold createTileIn. rewrite Htm. split.
  - intros img. rewrite in_flat_map. split.
    + intros (row & Hrow & Himg). apply in_map_iff in Himg.
      destruct Himg as (col & <- & Hcol).
      apply in_countFromTo in Hrow. apply in_countFromTo in Hcol.
      exists col, row. auto.
    + intros (col & row & Hcol & Hrow & ->).
      exists row. split; [apply in_countFromTo; exact Hrow|].
      apply in_map_iff. exists col. split; [reflexivity|].
      apply in_countFromTo. exact Hcol.
  - rewrite (length_flat_map_const _ (Z.to_nat (hiCol - loCol + 1))).
    + rewrite length_countFromTo. reflexivity.
    + intros row. rewrite length_map, length_countFromTo. reflexivity.
Qed.

(** C1: a viewer tile whose zoom has no tile-matrix entry gets no
    provider tile.  Otherwise the provider tiles produced are exactly the
    [(col', row')] of the clipped ranges
    [max 0 (floor ((leafMinX - originX) / span))
       .. min (cols - 1) (floor ((leafMaxX - originX - 0.01) / span))] and
    [max 0 (floor ((originY - leafMaxY) / span))
       .. min (rows - 1) (floor ((originY - leafMinY - 0.01) / span))],
    one image each, placed at the pixel offset
    [(round ((originX + col' * span - leafMinX) / span * 256),
      round ((leafMaxY - (originY - row' * span)) / span * 256))], with
    [span = 2 * 20037508.342789244 / 2^z].  The function is total. *)
Theorem createTile_postcondition (matrices : gmap Z TileMatrix)
    (timestamp : string) (c : Coords) :
  match matrices !! z c with
  | None => createTileIn matrices timestamp c = []
  | Some tm =>
      let span := ((2 * (20037508342789244 # 1000000000)) / 2 ^ z c)%Q in
      let loCol := Z.max 0 (Qfloor ((leafMinX c - originX tm) / span)) in
      let hiCol :=
        Z.min (cols tm - 1)
          (Qfloor ((leafMaxX c - originX tm - (1 # 100)) / span)) in
      let loRow := Z.max 0 (Qfloor ((originY tm - leafMaxY c) / span)) in
      let hiRow :=
        Z.min (rows tm - 1)
          (Qfloor ((originY tm - leafMinY c - (1 # 100)) / span)) in
      (forall img : Img,
          In img (createTileIn matrices timestamp c)
          <-> exists col' row' : Z,
                loCol <= col' <= hiCol
                /\ loRow <= row' <= hiRow
                /\ img
                   = {| src := bomKvpUrl (z c) row' col' timestamp;
                        left :=
                          Js.round
                            (((originX tm + inject_Z col' * span
                               - leafMinX c) / span) * 256);
                        top :=
                          Js.round
                            (((leafMaxY c
                               - (originY tm - inject_Z row' * span))
                              / span) * 256) |})
      /\ length (createTileIn matrices timestamp c)
         = (Z.to_nat (hiRow - loRow + 1) * Z.to_nat (hiCol - loCol + 1))%nat
  end.
Proof.
  destruct (matrices !! z c) as [tm|] eqn:Htm.
  - exact (createTileIn_entry matrices timestamp c tm Htm).
  - unfold createTileIn. rewrite Htm. reflexivity.
Qed.

Lemma createTile_postcondition_witness :
  In {| src := bomKvpUrl 3 1 1 "2026-02-15T08:45:00Z"; left := 80; top := 46 |}
    (createTile "2026-02-15T08:45:00Z" {| x := 7; y := 4; z := 3 |}).
Proof.
  pose proof (createTile_postcondition BOM_TILE_MATRICES
                "2026-02-15T08:45:00Z" {| x := 7; y := 4; z := 3 |}) as H.
  change (BOM_TILE_MATRICES !! z {| x := 7; y := 4; z := 3 |})
    with (Some {| originX := 11584952 # 1;
                  originY := 4112728171395 # 1000000;
                  cols := 2; rows := 2 |}) in H.
  apply (proj1 H). exists 1, 1.
  split; [vm_compute; split; discriminate|].
  split; [vm_compute; split; discriminate|].
  vm_compute. reflexivity.
Defined.

(** The table of the BoM matrices covers the zooms 0 to 8. *)
Lemma BOM_TILE_MATRICES_domain (zoom : Z) :
  zoom < 0 \/ 8 < zoom -> BOM_TILE_MATRICES !! zoom = None.
Proof.
  intros Hz. unfold BOM_TILE_MATRICES. cbn [list_to_map foldr fst snd].
  repeat (rewrite lookup_insert_ne by lia). apply lookup_empty.
Qed.

Lemma createTile_outside_coverage (timestamp : string) (c : Coords) :
  z c < 0 \/ 8 < z c -> createTile timestamp c = [].
Proof.
  intros Hz. unfold createTile, createTileIn.
  rewrite (BOM_TILE_MATRICES_domain (z c) Hz). reflexivity.
Qed.

(** *** C4 *)

(** C4, as stated, fails: at zoom 0 the BoM matrix is 1 x 1, and the
    viewer tile (0, 0) gets its single provider tile 90 pixels above its
    own top edge: the vertical offset is -90, outside [0, 256). *)
Lemma single_tile_offset_counterexample :
  exists (tm : TileMatrix) (img : Img),
    BOM_TILE_MATRICES !! 0 = Some tm
    /\ (cols tm, rows tm) = (1, 1)
    /\ createTile "2026-02-15T08:45:00Z" {| x := 0; y := 0; z := 0 |} = [img]
    /\ (left img, top img) = (202, -90)
    /\ ~ (0 <= top img < 256).
Proof.
  eexists. eexists. split; [vm_compute; reflexivity|].
  split; [reflexivity|]. split; [vm_compute; reflexivity|].
  split; [reflexivity|]. cbn. lia.
Qed.

(** An offset of the only tile of a 1 x 1 matrix, on either axis: [a] is
    how far the viewer tile starts past the matrix origin. *)
Lemma single_tile_offset_bounds (a s : Q) :
  (0 < s)%Q ->
  Qfloor (a / s) <= 0 ->
  0 <= Qfloor ((a + s - (1 # 100)) / s) ->
  -256 <= Js.round ((- a / s) * 256) <= 256.
Proof.
  intros Hs Hfirst Hlast.
  assert (Hs0 : ~ (s == 0)%Q) by (intros E; rewrite E in Hs; inversion Hs).
  assert (Hlt : (a < s)%Q).
  { pose proof (Qlt_floor (a / s)) as H.
    assert (H1 : (a / s < 1)%Q).
    { eapply Qlt_le_trans; [exact H|].
      change 1%Q with (inject_Z 1). rewrite <- Zle_Qle. lia. }
    apply (Qmult_lt_compat_r _ _ s Hs) in H1.
    rewrite Qmult_1_l in H1.
    assert (E : (a / s * s == a)%Q) by (field; exact Hs0).
    rewrite E in H1. exact H1. }
  assert (Hgt : (- s < a)%Q).
  { pose proof (Qfloor_le ((a + s - (1 # 100)) / s)) as H.
    assert (H1 : (0 <= (a + s - (1 # 100)) / s)%Q).
    { eapply Qle_trans; [|exact H].
      change 0%Q with (inject_Z 0). rewrite <- Zle_Qle. exact Hlast. }
    apply (Qmult_le_compat_r _ _ s) in H1; [|apply Qlt_le_weak; exact Hs].
    rewrite Qmult_0_l in H1.
    assert (E : ((a + s - (1 # 100)) / s * s == a + s - (1 # 100))%Q)
      by (field; exact Hs0).
    rewrite E in H1. lra. }
  assert (Hv1 : (- a / s < 1)%Q).
  { apply Qlt_shift_div_r; [exact Hs|]. lra. }
  assert (Hv2 : (- (1) < - a / s)%Q).
  { apply Qlt_shift_div_l; [exact Hs|]. lra. }
  unfold Js.round. generalize dependent (- a / s)%Q. intros v Hv1 Hv2.
  split.
  - apply (Z.le_trans _ (Qfloor (- (511 # 2)))); [reflexivity|].
    apply Qfloor_resp_le. lra.
  - apply (Z.le_trans _ (Qfloor (513 # 2))); [|reflexivity].
    apply Qfloor_resp_le. lra.
Qed.

(** C4, amended: for a tile-matrix entry with one column and one row,
    every viewer tile at that zoom gets no provider tile or exactly one,
    and the pixel offset of that one lies within [-256, 256] on each
    axis. *)
Theorem single_tile_matrix (matrices : gmap Z TileMatrix)
    (timestamp : string) (c : Coords) (tm : TileMatrix) :
  matrices !! z c = Some tm ->
  cols tm = 1 ->
  rows tm = 1 ->
  (length (createTileIn matrices timestamp c) <= 1)%nat
  /\ forall img : Img,
       In img (createTileIn matrices timestamp c) ->
       -256 <= left img <= 256 /\ -256 <= top img <= 256.
Proof.
  intros Htm Hcols Hrows.
  pose proof (createTileIn_entry matrices timestamp c tm Htm)
    as (Hin & Hlen).
  split.
  - rewrite Hlen, Hcols, Hrows.
    assert (Z.to_nat
              (Z.min (1 - 1) (lastRow tm c) - Z.max 0 (firstRow tm c) + 1)
            <= 1)%nat by lia.
    assert (Z.to_nat
              (Z.min (1 - 1) (lastCol tm c) - Z.max 0 (firstCol tm c) + 1)
            <= 1)%nat by lia.
    nia.
  - intros img Himg. apply Hin in Himg.
    destruct Himg as (col & row & Hcol & Hrow & ->).
    unfold tileImg. cbn [left top].
    rewrite Hcols in Hcol. rewrite Hrows in Hrow.
    assert (col = 0) by lia. assert (row = 0) by lia. subst col row.
    pose proof (getTileSpan_pos (z c)) as Hs.
    assert (Hs0 : ~ (getTileSpan (z c) == 0)%Q)
      by (intros E; rewrite E in Hs; inversion Hs).
    split.
    + assert (E : ((originX tm + inject_Z 0 * getTileSpan (z c)
                    - leafMinX c) / getTileSpan (z c) * 256
                   == - (leafMinX c - originX tm) / getTileSpan (z c) * 256)%Q).
      { field. exact Hs0. }
      unfold Js.round. rewrite (Qfloor_comp _ _ (Qplus_comp _ _ E _ _ (Qeq_refl _))).
      apply single_tile_offset_bounds; [exact Hs| |].
      * unfold firstCol in Hcol. lia.
      * assert (Hl : 0 <= lastCol tm c) by lia.
        unfold lastCol, leafMaxX in Hl.
        erewrite Qfloor_comp; [exact Hl|]. field. exact Hs0.
    + assert (E : ((leafMaxY c - (originY tm - inject_Z 0 * getTileSpan (z c)))
                   / getTileSpan (z c) * 256
                   == - (originY tm - leafMaxY c) / getTileSpan (z c) * 256)%Q).
      { field. exact Hs0. }
      unfold Js.round. rewrite (Qfloor_comp _ _ (Qplus_comp _ _ E _ _ (Qeq_refl _))).
      apply single_tile_offset_bounds; [exact Hs| |].
      * unfold firstRow in Hrow. lia.
      * assert (Hl : 0 <= lastRow tm c) by lia.
        unfold lastRow, leafMinY in Hl.
        erewrite Qfloor_comp; [exact Hl|]. field. exact Hs0.
Qed.

Lemma single_tile_matrix_witness :
  (length (createTile "2026-02-15T08:45:00Z" {| x := 0; y := 0; z := 0 |})
   <= 1)%nat.
Proof.
  exact (proj1 (single_tile_matrix BOM_TILE_MATRICES "2026-02-15T08:45:00Z"
                  {| x := 0; y := 0; z := 0 |}
                  {| originX := 11584952 # 1;
                     originY := 34168990685578 # 1000000;
                     cols := 1; rows := 1 |}
                  eq_refl eq_refl eq_refl)).
Defined.

(** A viewer tile of zoom 3 that straddles the four BoM tiles. *)
Example createTile_zoom3 :
  map (fun img => (left img, top img))
    (createTile "2026-02-15T08:45:00Z" {| x := 7; y := 4; z := 3 |})
  = [(-176, -210); (80, -210); (-176, 46); (80, 46)].
Proof. vm_compute. reflexivity. Qed.

End Grid.

(** ** The TIME parameter of the BoM tile requests *)

Section WmtsTime.
Import BomRadarCard.

Lemma in_drop {A} (n : nat) (x : A) :
  forall l : list A, In x (drop n l) -> In x l.
Proof.
  induction n as [|n IH]; intros [|a l] H; cbn in H; auto.
  right. apply IH. exact H.
Qed.

Lemma in_slice_from {A} (start : Z) (x : A) (l : list A) :
  In x (Js.slice_from start l) -> In x l.
Proof. unfold Js.slice_from. apply in_drop. Qed.

Lemma latestMs_quantized (dateNow : Z) : latestMs dateNow mod fiveMinutes = 0.
Proof. unfold latestMs. apply Z.mod_mul. discriminate. Qed.

Lemma timestampTimes_quantized (dateNow frame_count t : Z) :
  In t (timestampTimes dateNow frame_count) -> t mod fiveMinutes = 0.
Proof.
  unfold timestampTimes. rewrite <- in_rev, in_map_iff.
  intros (i & <- & _).
  pose proof (latestMs_quantized dateNow) as H.
  apply Z.mod_divide in H; [|discriminate]. destruct H as [k Hk].
  apply Z.mod_divide; [discriminate|].
  exists (k - i). rewrite Hk. ring.
Qed.

(** A time on the five-minute grid shows a minute that is a multiple of
    five and zero seconds. *)
Lemma quantized_time_fields (t : Z) :
  t mod fiveMinutes = 0 ->
  JsDate.MinFromTime t mod 5 = 0 /\ JsDate.SecFromTime t = 0.
Proof.
  intros H. apply Z.mod_divide in H; [|discriminate].
  destruct H as [k ->].
  unfold JsDate.MinFromTime, JsDate.SecFromTime, fiveMinutes. split.
  - replace (k * (5 * 60 * 1000)) with (5 * k * 60000) by ring.
    rewrite Z.div_mul by discriminate.
    change 60 with (5 * 12). rewrite Z.mul_mod_distr_l by discriminate.
    rewrite Z.mul_comm. apply Z.mod_mul. discriminate.
  - replace (k * (5 * 60 * 1000)) with (300 * k * 1000) by ring.
    rewrite Z.div_mul by discriminate.
    replace (300 * k) with (5 * k * 60) by ring.
    apply Z.mod_mul. discriminate.
Qed.

Lemma append_assoc (a b c : string) : (a +:+ b) +:+ c = a +:+ (b +:+ c).
Proof.
  induction a as [|ch a IH]; [reflexivity|].
  change (String ch ((a +:+ b) +:+ c) = String ch (a +:+ (b +:+ c))).
  f_equal. exact IH.
Qed.

Lemma encodeURIComponent_append (a b : string) :
  Js.encodeURIComponent (a +:+ b)
  = Js.encodeURIComponent a +:+ Js.encodeURIComponent b.
Proof.
  induction a as [|ch a IH]; [reflexivity|].
  change (String ch a +:+ b) with (String ch (a +:+ b)).
  cbn [Js.encodeURIComponent].
  destruct (Js.uri_unreserved ch); rewrite IH; reflexivity.
Qed.

(** [getRadarCapabilities] always computes at least sixteen timestamps, so
    [loadRadarLayers] never falls back on [generateTimestamps]. *)
Lemma availableTimestamps_nonempty (dateNow frame_count : Z) :
  (0 < length (availableTimestamps dateNow frame_count))%nat.
Proof.
  unfold availableTimestamps, timestampTimes.
  rewrite length_map, length_rev, length_map, length_countFromTo. lia.
Qed.

(** Every timestamp the formatter returns ends in a seconds field. *)
Lemma formatWmtsTimestamp_seconds (date : JsDate.Date) :
  exists upToMinutes : string,
    formatWmtsTimestamp date = upToMinutes +:+ ":00Z".
Proof.
  unfold formatWmtsTimestamp. eexists.
  repeat rewrite <- append_assoc. reflexivity.
Qed.

(** The request the grid layer sends for the frame of 08:45 UTC on
    2026-02-15: the TIME parameter reads 08:45:00. *)
Example bomKvpUrl_sample :
  formatWmtsTimestamp (JsDate.mkDate 1771145100000) = "2026-02-15T08:45:00Z"
  /\ bomKvpUrl 4 2 1 (formatWmtsTimestamp (JsDate.mkDate 1771145100000))
     = "https://api.bom.gov.au/apikey/v1/mapping/timeseries/wmts"
       +:+ "?SERVICE=WMTS&REQUEST=GetTile&VERSION=1.0.0"
       +:+ "&LAYER=atm_surf_air_precip_reflectivity_dbz"
       +:+ "&STYLE=default&FORMAT=image/png"
       +:+ "&TILEMATRIXSET=GoogleMapsCompatible_BoM"
       +:+ "&TILEMATRIX=4&TILEROW=2&TILECOL=1"
       +:+ "&TIME=2026-02-15T08%3A45%3A00Z".
Proof. split; vm_compute; reflexivity. Qed.

(** C5, on the code: the timestamp of every radar layer (those created at
    start-up from the timestamps of the first poll, and the one added after
    each later poll) is the formatted time of an instant on the five-minute
    grid (its minute a multiple of
    five, its seconds zero), but the text carries the seconds: it ends in
    ":00Z", and so does the TIME parameter, as "%3A00Z". *)
Theorem wmts_time_carries_seconds (dateNow polled_frame_count : Z)
    (start_time frame_count : Z) (timestamp : string) :
  In timestamp
    (loadRadarLayers (availableTimestamps dateNow polled_frame_count)
       start_time frame_count)
  \/ timestamp = currentTime dateNow ->
  exists (t : Z) (upToMinutes : string),
    timestamp = formatWmtsTimestamp (JsDate.mkDate t)
    /\ t mod (5 * 60 * 1000) = 0
    /\ JsDate.MinFromTime t mod 5 = 0
    /\ JsDate.SecFromTime t = 0
    /\ timestamp = upToMinutes +:+ ":00Z"
    /\ timeParameter timestamp
       = Js.encodeURIComponent upToMinutes +:+ "%3A00Z".
Proof.
  intros Hin.
  assert (Hgrid : exists t : Z,
             timestamp = formatWmtsTimestamp (JsDate.mkDate t)
             /\ t mod fiveMinutes = 0).
  { destruct Hin as [Hin | ->].
    - unfold loadRadarLayers in Hin.
      rewrite (proj2 (Nat.ltb_lt _ _)
                 (availableTimestamps_nonempty dateNow polled_frame_count))
        in Hin.
      apply in_slice_from in Hin. unfold availableTimestamps in Hin.
      apply in_map_iff in Hin. destruct Hin as (t & <- & Ht).
      exists t. split; [reflexivity|].
      exact (timestampTimes_quantized _ _ _ Ht).
    - exists (latestMs dateNow). split; [reflexivity|].
      apply latestMs_quantized. }
  destruct Hgrid as (t & -> & Ht).
  destruct (quantized_time_fields t Ht) as (Hmin & Hsec).
  destruct (formatWmtsTimestamp_seconds (JsDate.mkDate t)) as (p & Hp).
  exists t, p. repeat split; try assumption.
  unfold timeParameter. rewrite Hp, encodeURIComponent_append. reflexivity.
Qed.

Lemma wmts_time_carries_seconds_witness :
  exists (t : Z) (upToMinutes : string),
    "2026-02-15T08:40:00Z" = formatWmtsTimestamp (JsDate.mkDate t)
    /\ t mod (5 * 60 * 1000) = 0
    /\ JsDate.MinFromTime t mod 5 = 0
    /\ JsDate.SecFromTime t = 0
    /\ "2026-02-15T08:40:00Z" = upToMinutes +:+ ":00Z"
    /\ timeParameter "2026-02-15T08:40:00Z"
       = Js.encodeURIComponent upToMinutes +:+ "%3A00Z".
Proof.
  apply (wmts_time_carries_seconds 1771145123456 12 0 3).
  left. vm_compute. auto.
Defined.

End WmtsTime.

(** ** normalizeConfig *)

Section Normalize.
Import Config.

(** What the specification asks of a numeric field that is rounded and
    clamped to [lo, hi], with default [dflt]. *)
Definition roundedField (input : option number) (lo hi dflt : Z) (out : Q)
  : Prop :=
  match input with
  | Some (Finite q) => (out == inject_Z (Z.min hi (Z.max lo (Js.round q))))%Q
  | _ => (out == inject_Z dflt)%Q
  end
  /\ (inject_Z lo <= out <= inject_Z hi)%Q
  /\ exists k : Z, (out == inject_Z k)%Q.

(** A field that is clamped to [lo, hi] as it comes. *)
Definition clampedField (input : option number) (lo hi dflt : Q) (out : Q)
  : Prop :=
  match input with
  | Some (Finite q) =>
      ((q < lo -> out == lo) /\ (lo <= q <= hi -> out == q)
       /\ (hi < q -> out == hi))%Q
  | _ => (out == dflt)%Q
  end
  /\ (lo <= out <= hi)%Q.

Lemma clamp_spec (v lo hi : Q) :
  (lo <= hi)%Q ->
  ((v < lo -> clamp v lo hi == lo) /\ (lo <= v <= hi -> clamp v lo hi == v)
   /\ (hi < v -> clamp v lo hi == hi)
   /\ lo <= clamp v lo hi <= hi)%Q.
Proof.
  intros Hle. unfold clamp.
  destruct (Q.max_spec lo v) as [[H1 E1]|[H1 E1]];
    destruct (Q.min_spec hi (Qmax lo v)) as [[H2 E2]|[H2 E2]];
    rewrite E2; rewrite ?E1 in *; repeat split; intros; lra.
Qed.

Lemma clamp_inject_Z (r lo hi : Z) :
  lo <= hi ->
  (clamp (inject_Z r) (inject_Z lo) (inject_Z hi)
   == inject_Z (Z.min hi (Z.max lo r)))%Q.
Proof.
  intros Hle.
  assert (HleQ : (inject_Z lo <= inject_Z hi)%Q) by (rewrite <- Zle_Qle; lia).
  destruct (clamp_spec (inject_Z r) _ _ HleQ) as (Hlo & Hmid & Hhi & _).
  destruct (Z_lt_le_dec r lo) as [H|H].
  - rewrite Hlo by (rewrite <- Zlt_Qlt; lia).
    replace (Z.min hi (Z.max lo r)) with lo by lia. reflexivity.
  - destruct (Z_lt_le_dec hi r) as [H'|H'].
    + rewrite Hhi by (rewrite <- Zlt_Qlt; lia).
      replace (Z.min hi (Z.max lo r)) with hi by lia. reflexivity.
    + rewrite Hmid by (rewrite <- !Zle_Qle; lia).
      replace (Z.min hi (Z.max lo r)) with r by lia. reflexivity.
Qed.

Lemma roundedField_intro (input : option number) (lo hi dflt : Z) :
  lo <= dflt <= hi ->
  roundedField input lo hi dflt
    match toFiniteNumber input with
    | Some v => clamp (rounded v) (inject_Z lo) (inject_Z hi)
    | None => inject_Z dflt
    end.
Proof.
  intros Hd. unfold roundedField.
  assert (Hdef : (inject_Z lo <= inject_Z dflt <= inject_Z hi)%Q
                 /\ exists k : Z, (inject_Z dflt == inject_Z k)%Q).
  { rewrite <- !Zle_Qle. split; [lia|]. exists dflt. reflexivity. }
  destruct input as [[q| | |]|]; cbn [toFiniteNumber];
    try (split; [reflexivity | exact Hdef]).
  unfold rounded.
  pose proof (clamp_inject_Z (Js.round q) lo hi ltac:(lia)) as E.
  split; [exact E|].
  split; [rewrite E, <- !Zle_Qle; lia | eexists; exact E].
Qed.

Lemma clampedField_intro (input : option number) (lo hi dflt : Q) :
  (lo <= dflt <= hi)%Q ->
  clampedField input lo hi dflt
    match toFiniteNumber input with
    | Some v => clamp v lo hi
    | None => dflt
    end.
Proof.
  intros Hd. unfold clampedField.
  destruct input as [[q| | |]|]; cbn [toFiniteNumber];
    try (split; [reflexivity | exact Hd]).
  destruct (clamp_spec q lo hi ltac:(lra)) as (H1 & H2 & H3 & H4).
  auto.
Qed.

Variable CARD_TYPE : string.

Definition clampTestInput : PartialConfig :=
  {| p_entity := Some (Js.units "person.scott"); p_card_title := None;
     p_hide_header := None; p_map_style := None;
     p_zoom_level := Some (Finite 99); p_show_marker := None;
     p_show_zoom := None; p_show_scale := None; p_show_recenter := None;
     p_frame_count := Some (Finite 0); p_frame_delay := Some (Finite 1);
     p_restart_delay := Some (Finite 999999);
     p_overlay_transparency := Some (Finite (25 # 2)) |}.

(** The clamping test of config.test.ts, with a fractional transparency. *)
Example normalizeConfig_clamps :
  exists cfg : CardConfig,
    normalizeConfig CARD_TYPE clampTestInput {| requireEntity := Some true |}
    = Js.Return cfg
    /\ (zoom_level cfg, frame_count cfg, frame_delay cfg, restart_delay cfg)
       = (10, 1, 100, 10000)%Q.
Proof. eexists. split; reflexivity. Qed.

End Normalize.

(** C10, as stated, fails: an overlay transparency of 12.5 comes out as
    12.5, where rounding before clamping would give 13. *)
Lemma overlay_transparency_not_rounded :
  exists cfg : Config.CardConfig,
    Config.normalizeConfig "custom:bom-raster-radar-card" clampTestInput
      {| Config.requireEntity := Some true |}
    = Js.Return cfg
    /\ Config.overlay_transparency cfg = (25 # 2)%Q
    /\ Config.clamp (Config.rounded (25 # 2)) 0 90 = 13%Q
    /\ ~ (Config.overlay_transparency cfg == 13)%Q.
Proof.
  eexists. split; [reflexivity|]. split; [reflexivity|].
  split; [reflexivity|]. cbn. intros H. inversion H.
Qed.

(** What [trim] leaves is empty exactly when the string holds white space
    only. *)
Lemma trimStart_spaces (s : Js.utf16) :
  Forall (fun c => Js.is_space c = true) s
  <-> Forall (fun c => Js.is_space c = true) (Js.trimStart s).
Proof.
  induction s as [|c r IH]; [reflexivity|]. cbn [Js.trimStart].
  destruct (Js.is_space c) eqn:E; [|reflexivity].
  rewrite <- IH. split; [intros H; inversion H; assumption | auto].
Qed.

Lemma trimEnd_nil (s : Js.utf16) :
  Js.trimEnd s = [] <-> Forall (fun c => Js.is_space c = true) s.
Proof.
  induction s as [|c r IH]; [split; auto|]. cbn [Js.trimEnd].
  destruct (Js.trimEnd r) as [|d r'] eqn:E.
  - destruct (Js.is_space c) eqn:Hc.
    + split; [intros _; constructor; [exact Hc | apply IH; reflexivity] | auto].
    + split; [discriminate|]. intros H. inversion H. congruence.
  - split; [discriminate|]. intros H. inversion H as [|? ? _ Hr].
    apply IH in Hr. discriminate.
Qed.

Lemma trim_nil (s : Js.utf16) :
  Js.trim s = [] <-> Forall (fun c => Js.is_space c = true) s.
Proof. unfold Js.trim. rewrite trimEnd_nil, <- trimStart_spaces. reflexivity. Qed.

(** The code points [trim] strips, one by one. *)
Definition whiteSpaceCodes : list N :=
  [9; 10; 11; 12; 13; 32; 160; 5760; 8192; 8193; 8194; 8195; 8196; 8197;
   8198; 8199; 8200; 8201; 8202; 8232; 8233; 8239; 8287; 12288; 65279]%N.

Lemma is_space_codes (c : N) :
  Js.is_space c = true <-> In c whiteSpaceCodes.
Proof.
  unfold Js.is_space, whiteSpaceCodes. cbn [In].
  rewrite !orb_true_iff, !andb_true_iff, !N.leb_le, !N.eqb_eq. lia.
Qed.

(** A non-breaking space is no entity: [normalizeConfig] throws on it. *)
Example normalizeConfig_blank_entity :
  Config.normalizeConfig "custom:bom-raster-radar-card"
    {| Config.p_entity := Some [160; 32; 8232; 65279]%N;
       Config.p_card_title := None; Config.p_hide_header := None;
       Config.p_map_style := None; Config.p_zoom_level := None;
       Config.p_show_marker := None; Config.p_show_zoom := None;
       Config.p_show_scale := None; Config.p_show_recenter := None;
       Config.p_frame_count := None; Config.p_frame_delay := None;
       Config.p_restart_delay := None;
       Config.p_overlay_transparency := None |}
    {| Config.requireEntity := Some true |}
  = Js.Throw.
Proof. reflexivity. Qed.

(** C10, amended: [normalizeConfig] throws exactly when [requireEntity] is
    set and the trimmed entity is empty, that is when the entity is absent
    or holds nothing but white space (the code points of ECMAScript's
    WhiteSpace and LineTerminator); otherwise [zoom_level] lies in
    [3, 10] (default 8), [frame_count] in [1, 24] (default 7), [frame_delay]
    in [100, 5000] (default 250) and [restart_delay] in [100, 10000]
    (default 1000), each rounded and then clamped, while
    [overlay_transparency] lies in [0, 90] (default 0) and is clamped
    without rounding; a missing or non-finite input gives the default. *)
Theorem normalizeConfig_contract (CARD_TYPE : string)
    (config : Config.PartialConfig) (options : Config.NormalizeConfigOptions) :
  let entity := Js.trim (default [] (Config.p_entity config)) in
  let result := Config.normalizeConfig CARD_TYPE config options in
  (result = Js.Throw
   <-> Config.requireEntity options = Some true /\ entity = [])
  /\ (entity = []
      <-> forall c : N,
            In c (default [] (Config.p_entity config)) ->
            In c whiteSpaceCodes)
  /\ forall cfg : Config.CardConfig,
       result = Js.Return cfg ->
       Config.entity cfg = entity
       /\ roundedField (Config.p_zoom_level config) 3 10 8
            (Config.zoom_level cfg)
       /\ roundedField (Config.p_frame_count config) 1 24 7
            (Config.frame_count cfg)
       /\ roundedField (Config.p_frame_delay config) 100 5000 250
            (Config.frame_delay cfg)
       /\ roundedField (Config.p_restart_delay config) 100 10000 1000
            (Config.restart_delay cfg)
       /\ clampedField (Config.p_overlay_transparency config) 0 90 0
            (Config.overlay_transparency cfg).
Proof.
  intros entity result.
  assert (Hent : Config.sanitizeEntity (Config.p_entity config) = entity).
  { subst entity. unfold Config.sanitizeEntity.
    destruct (Config.p_entity config); reflexivity. }
  assert (Hblank : entity = []
                   <-> forall c : N,
                         In c (default [] (Config.p_entity config)) ->
                         In c whiteSpaceCodes).
  { subst entity. rewrite trim_nil, List.Forall_forall.
    split; intros H c Hc; apply is_space_codes, H, Hc. }
  subst result. unfold Config.normalizeConfig. rewrite Hent.
  assert (Hlen : (length entity =? 0)%nat = true <-> entity = []).
  { rewrite Nat.eqb_eq. destruct entity; cbn; split; congruence. }
  split; [|split; [exact Hblank|]].
  - destruct (Config.requireEntity options) as [[|]|] eqn:Hreq;
      cbn [default from_option Datatypes.id andb].
    + destruct (length entity =? 0)%nat eqn:E.
      * split; auto. intros _. split; [reflexivity | apply Hlen; reflexivity].
      * split; [discriminate|]. intros [_ H]. apply Hlen in H. discriminate.
    + split; [discriminate | intros [H _]; discriminate].
    + split; [discriminate | intros [H _]; discriminate].
  - intros cfg H.
    destruct (default false (Config.requireEntity options)
              && (length entity =? 0)%nat); [discriminate|].
    injection H as <-. cbn.
    split; [reflexivity|].
    repeat split;
      first [ apply (roundedField_intro _ 3 10 8); lia
            | apply (roundedField_intro _ 1 24 7); lia
            | apply (roundedField_intro _ 100 5000 250); lia
            | apply (roundedField_intro _ 100 10000 1000); lia
            | apply (clampedField_intro _ 0 90 0); lra ].
Qed.

Lemma normalizeConfig_contract_witness :
  clampedField (Some (Config.Finite (25 # 2))) 0 90 0 (25 # 2)
  /\ roundedField (Some (Config.Finite 99)) 3 10 8 10.
Proof.
  destruct (normalizeConfig_contract "custom:bom-raster-radar-card"
              clampTestInput {| Config.requireEntity := Some true |})
    as (_ & _ & H).
  destruct (H _ eq_refl) as (_ & Hzoom & _ & _ & _ & Hoverlay).
  split; [exact Hoverlay | exact Hzoom].
Defined.

(** ** Playback of the interval-driven cards *)

Section IntervalPlayback.
Import BomRadarCard.

(** With as many layers as [frame_count], [changeRadarFrame] follows the
    same rule as [advanceFrame]: the next index modulo the length, and the
    restart delay on reaching the last index. *)
Lemma changeRadarFrame_full_window (p : Playback) :
  hasMap p = true ->
  Z.of_nat (length (mapLayers p)) = frame_count p ->
  0 < frame_count p ->
  0 <= frame p ->
  let len := Z.of_nat (length (mapLayers p)) in
  let p' := changeRadarFrame p in
  frame p' = (frame p + 1) mod len
  /\ mapLayers p' = mapLayers p
  /\ frameTimer p'
     = Some (if frame p' =? len - 1 then restart_delay p else frame_delay p).
Proof.
  intros Hmap Hlen Hpos Hframe len p'. subst p' len.
  unfold changeRadarFrame. rewrite Hmap. cbn [negb].
  rewrite Hlen. rewrite Z.ltb_irrefl. cbn [frame mapLayers frameTimer].
  rewrite Z.rem_mod_nonneg by lia. auto.
Qed.

(** It sets its interval again on every call, whatever the number of
    layers. *)
Lemma changeRadarFrame_rearms (p : Playback) :
  hasMap p = true -> exists period : Z, frameTimer (changeRadarFrame p) = Some period.
Proof.
  intros Hmap. unfold changeRadarFrame. rewrite Hmap. cbn. eauto.
Qed.

End IntervalPlayback.

(** ** The playback rule on both kinds of card *)

Section PlaybackRule.
Import RadarSource RasterCard.

(** A configuration away from the defaults. *)
Definition tunedConfig : Config :=
  {| frame_count := Some 3%nat; frame_delay := Some 300;
     restart_delay := Some 2000; overlay_transparency := Some 40%Q |}.

(** [sampleCard] under [tunedConfig]. *)
Definition tunedCard (l : list RadarFrame) (i : nat) : Card :=
  {| _config := Some tunedConfig;
     mapController := mapController (sampleCard l i);
     snapshotTimer := None;
     frameTimer :=
       Some {| delayMs := 300; callback := AdvanceFrame; pending := true |};
     retryCount := 0;
     radarHost := radarHost (sampleCard l i);
     frameIndex := i;
     layerIds := layerIds (sampleCard l i);
     radarFrames := l;
     timestampLabel := timestampLabel (sampleCard l i);
     progressPercent := progressPercent (sampleCard l i) |}.






End PlaybackRule.

(* ===================================================================== *)
(** * Further properties *)
(* ===================================================================== *)

(** ** The grid layer beyond the reconciler's postcondition *)

Section GridLayer.
Import BomRadarCard.

Lemma Qfloor_add_Z (q : Q) (n : Z) :
  Qfloor (q + inject_Z n) = Qfloor q + n.
Proof.
  destruct q as [a b]. unfold Qfloor, Qplus, inject_Z. cbn [Qnum Qden].
  rewrite Pos.mul_1_r, Z.mul_1_r.
  rewrite Z.div_add by discriminate. reflexivity.
Qed.

Lemma round_add_Z (q : Q) (n : Z) : Js.round (q + inject_Z n) = Js.round q + n.
Proof.
  unfold Js.round. rewrite <- Qfloor_add_Z.
  apply Qfloor_comp. ring.
Qed.

(** The last index of a span-wide interval is at most one past the first. *)
Lemma floor_of_far_edge (a s : Q) :
  (0 < s)%Q -> Qfloor ((a + s - (1 # 100)) / s) <= Qfloor (a / s) + 1.
Proof.
  intros Hs.
  assert (Hs0 : ~ (s == 0)%Q) by (intros E; rewrite E in Hs; inversion Hs).
  rewrite <- Qfloor_add_Z. apply Qfloor_resp_le.
  assert (E : ((a + s - (1 # 100)) / s == a / s + 1 - (1 # 100) / s)%Q)
    by (field; exact Hs0).
  rewrite E.
  assert (0 < (1 # 100) / s)%Q.
  { apply Qlt_shift_div_l; [exact Hs|]. rewrite Qmult_0_l. reflexivity. }
  change (inject_Z 1) with 1%Q.
  generalize dependent ((1 # 100) / s)%Q. generalize (a / s)%Q. intros; lra.
Qed.

Lemma lastCol_le (tm : TileMatrix) (c : Coords) :
  lastCol tm c <= firstCol tm c + 1.
Proof.
  unfold lastCol, firstCol, leafMaxX.
  erewrite Qfloor_comp;
    [apply (floor_of_far_edge (leafMinX c - originX tm) _ (getTileSpan_pos (z c)))|].
  pose proof (getTileSpan_pos (z c)) as Hs.
  field. intros E. rewrite E in Hs. inversion Hs.
Qed.

Lemma lastRow_le (tm : TileMatrix) (c : Coords) :
  lastRow tm c <= firstRow tm c + 1.
Proof.
  unfold lastRow, firstRow, leafMinY.
  erewrite Qfloor_comp;
    [apply (floor_of_far_edge (originY tm - leafMaxY c) _ (getTileSpan_pos (z c)))|].
  pose proof (getTileSpan_pos (z c)) as Hs.
  field. intros E. rewrite E in Hs. inversion Hs.
Qed.

(** X1: a viewer tile never gets more than four images, whatever the
    table of matrices: its span covers at most two columns and two rows of
    the provider grid. *)
Theorem createTile_at_most_four (matrices : gmap Z TileMatrix)
    (timestamp : string) (c : Coords) :
  (length (createTileIn matrices timestamp c) <= 4)%nat.
Proof.
  destruct (matrices !! z c) as [tm|] eqn:Htm.
  - destruct (createTileIn_entry matrices timestamp c tm Htm) as (_ & Hlen).
    rewrite Hlen.
    pose proof (lastCol_le tm c). pose proof (lastRow_le tm c).
    assert (Z.to_nat (Z.min (rows tm - 1) (lastRow tm c)
                      - Z.max 0 (firstRow tm c) + 1) <= 2)%nat by lia.
    assert (Z.to_nat (Z.min (cols tm - 1) (lastCol tm c)
                      - Z.max 0 (firstCol tm c) + 1) <= 2)%nat by lia.
    nia.
  - unfold createTileIn. rewrite Htm. cbn. lia.
Qed.

(** An offset of the tile of index [k] on one axis, [k] lying between the
    first and the last index of the viewer tile. *)
Lemma tile_offset_bounds (a s : Q) (k : Z) :
  (0 < s)%Q ->
  Qfloor (a / s) <= k ->
  k <= Qfloor ((a + s - (1 # 100)) / s) ->
  -256 <= Js.round (((inject_Z k * s - a) / s) * 256) <= 256.
Proof.
  intros Hs Hfirst Hlast.
  assert (Hs0 : ~ (s == 0)%Q) by (intros E; rewrite E in Hs; inversion Hs).
  assert (E : (((inject_Z k * s - a) / s) * 256
               == (inject_Z k - a / s) * 256)%Q) by (field; exact Hs0).
  unfold Js.round.
  rewrite (Qfloor_comp _ _ (Qplus_comp _ _ E _ _ (Qeq_refl _))).
  assert (H1 : (a / s < inject_Z k + 1)%Q).
  { eapply Qlt_le_trans; [apply Qlt_floor|].
    change 1%Q with (inject_Z 1). rewrite <- inject_Z_plus, <- Zle_Qle. lia. }
  assert (H2 : (inject_Z k < a / s + 1)%Q).
  { assert (Hk : (inject_Z k <= (a + s - (1 # 100)) / s)%Q).
    { eapply Qle_trans; [|apply Qfloor_le]. rewrite <- Zle_Qle. exact Hlast. }
    assert (E2 : ((a + s - (1 # 100)) / s == a / s + 1 - (1 # 100) / s)%Q)
      by (field; exact Hs0).
    rewrite E2 in Hk.
    assert (0 < (1 # 100) / s)%Q.
    { apply Qlt_shift_div_l; [exact Hs|]. rewrite Qmult_0_l. reflexivity. }
    generalize dependent ((1 # 100) / s)%Q. generalize (a / s)%Q.
    intros; lra. }
  generalize dependent (a / s)%Q. intros u _ _ H1 H2.
  generalize dependent (inject_Z k). intros v H1 H2.
  split.
  - apply (Z.le_trans _ (Qfloor (- (511 # 2)))); [reflexivity|].
    apply Qfloor_resp_le. lra.
  - apply (Z.le_trans _ (Qfloor (513 # 2))); [|reflexivity].
    apply Qfloor_resp_le. lra.
Qed.

(** X2: every image of every viewer tile is placed at an offset within
    [-256, 256] on each axis, for any table of matrices: an image never
    lies more than its own width away from the tile it belongs to. *)
Theorem createTile_offsets_bounded (matrices : gmap Z TileMatrix)
    (timestamp : string) (c : Coords) (img : Img) :
  In img (createTileIn matrices timestamp c) ->
  -256 <= left img <= 256 /\ -256 <= top img <= 256.
Proof.
  intros Himg.
  destruct (matrices !! z c) as [tm|] eqn:Htm;
    [|unfold createTileIn in Himg; rewrite Htm in Himg; destruct Himg].
  destruct (createTileIn_entry matrices timestamp c tm Htm) as (Hin & _).
  apply Hin in Himg. destruct Himg as (col & row & Hcol & Hrow & ->).
  unfold tileImg. cbn [left top].
  pose proof (getTileSpan_pos (z c)) as Hs.
  assert (Hs0 : ~ (getTileSpan (z c) == 0)%Q)
    by (intros E; rewrite E in Hs; inversion Hs).
  split.
  - assert (E : ((originX tm + inject_Z col * getTileSpan (z c) - leafMinX c)
                 / getTileSpan (z c) * 256
                 == (inject_Z col * getTileSpan (z c)
                     - (leafMinX c - originX tm)) / getTileSpan (z c) * 256)%Q)
      by (field; exact Hs0).
    unfold Js.round.
    rewrite (Qfloor_comp _ _ (Qplus_comp _ _ E _ _ (Qeq_refl _))).
    apply tile_offset_bounds; [exact Hs| |].
    + unfold firstCol in Hcol. lia.
    + assert (Hl : col <= lastCol tm c) by lia.
      unfold lastCol, leafMaxX in Hl.
      erewrite Qfloor_comp; [exact Hl|]. field. exact Hs0.
  - assert (E : ((leafMaxY c - (originY tm - inject_Z row * getTileSpan (z c)))
                 / getTileSpan (z c) * 256
                 == (inject_Z row * getTileSpan (z c)
                     - (originY tm - leafMaxY c)) / getTileSpan (z c) * 256)%Q)
      by (field; exact Hs0).
    unfold Js.round.
    rewrite (Qfloor_comp _ _ (Qplus_comp _ _ E _ _ (Qeq_refl _))).
    apply tile_offset_bounds; [exact Hs| |].
    + unfold firstRow in Hrow. lia.
    + assert (Hl : row <= lastRow tm c) by lia.
      unfold lastRow, leafMinY in Hl.
      erewrite Qfloor_comp; [exact Hl|]. field. exact Hs0.
Qed.

Lemma createTile_offsets_bounded_witness :
  -256 <= 80 <= 256 /\ -256 <= 46 <= 256.
Proof.
  refine (createTile_offsets_bounded BOM_TILE_MATRICES "2026-02-15T08:45:00Z"
            {| x := 7; y := 4; z := 3 |}
            {| src := bomKvpUrl 3 1 1 "2026-02-15T08:45:00Z";
               left := 80; top := 46 |} _).
  vm_compute. auto 10.
Defined.

(** X3: inside a viewer tile the images of neighbouring provider tiles
    abut: one column further is exactly 256 pixels to the right at the same
    height, one row further exactly 256 pixels down at the same abscissa. *)
Theorem neighbouring_tiles_abut (timestamp : string) (tm : TileMatrix)
    (c : Coords) (row col : Z) :
  let here := tileImg timestamp tm c row col in
  let right := tileImg timestamp tm c row (col + 1) in
  let below := tileImg timestamp tm c (row + 1) col in
  (left right, top right) = (left here + 256, top here)
  /\ (left below, top below) = (left here, top here + 256).
Proof.
  pose proof (getTileSpan_pos (z c)) as Hs.
  assert (Hs0 : ~ (getTileSpan (z c) == 0)%Q)
    by (intros E; rewrite E in Hs; inversion Hs).
  unfold tileImg. cbn [left top]. split; f_equal.
  - rewrite <- round_add_Z. unfold Js.round. apply Qfloor_comp.
    rewrite inject_Z_plus. change (inject_Z 256) with 256%Q.
    change (inject_Z 1) with 1%Q. field. exact Hs0.
  - rewrite <- round_add_Z. unfold Js.round. apply Qfloor_comp.
    rewrite inject_Z_plus. change (inject_Z 256) with 256%Q.
    change (inject_Z 1) with 1%Q. field. exact Hs0.
Qed.

End GridLayer.

Section GridExtent.
Import BomRadarCard.

Lemma Qfloor_negative (q : Q) : (q < 0)%Q -> Qfloor q < 0.
Proof.
  intros Hq. rewrite Zlt_Qlt.
  eapply Qle_lt_trans; [apply Qfloor_le | exact Hq].
Qed.

Lemma Qfloor_at_least (q : Q) (n : Z) : (inject_Z n <= q)%Q -> n <= Qfloor q.
Proof.
  intros Hq. rewrite <- (Qfloor_Z n). apply Qfloor_resp_le. exact Hq.
Qed.

(** X4: a viewer tile that lies wholly outside the extent of the matrix of
    its zoom (left of the origin, right of the last column, above the
    origin or below the last row) gets no image. *)
Theorem tile_outside_extent (matrices : gmap Z TileMatrix)
    (timestamp : string) (c : Coords) (tm : TileMatrix) :
  matrices !! z c = Some tm ->
  (leafMaxX c <= originX tm
   \/ originX tm + inject_Z (cols tm) * getTileSpan (z c) <= leafMinX c
   \/ originY tm <= leafMinY c
   \/ leafMaxY c <= originY tm - inject_Z (rows tm) * getTileSpan (z c))%Q ->
  createTileIn matrices timestamp c = [].
Proof.
  intros Htm Hout.
  destruct (createTileIn_entry matrices timestamp c tm Htm) as (_ & Hlen).
  apply length_zero_iff_nil. rewrite Hlen.
  pose proof (getTileSpan_pos (z c)) as Hs.
  destruct Hout as [H | [H | [H | H]]].
  - assert (lastCol tm c < 0).
    { unfold lastCol. apply Qfloor_negative.
      apply Qlt_shift_div_r; [exact Hs|]. lra. }
    replace (Z.to_nat (Z.min (cols tm - 1) (lastCol tm c)
                       - Z.max 0 (firstCol tm c) + 1)) with 0%nat by lia.
    lia.
  - assert (cols tm <= firstCol tm c).
    { unfold firstCol. apply Qfloor_at_least.
      apply Qle_shift_div_l; [exact Hs|]. lra. }
    replace (Z.to_nat (Z.min (cols tm - 1) (lastCol tm c)
                       - Z.max 0 (firstCol tm c) + 1)) with 0%nat by lia.
    lia.
  - assert (lastRow tm c < 0).
    { unfold lastRow. apply Qfloor_negative.
      apply Qlt_shift_div_r; [exact Hs|]. lra. }
    replace (Z.to_nat (Z.min (rows tm - 1) (lastRow tm c)
                       - Z.max 0 (firstRow tm c) + 1)) with 0%nat by lia.
    lia.
  - assert (rows tm <= firstRow tm c).
    { unfold firstRow. apply Qfloor_at_least.
      apply Qle_shift_div_l; [exact Hs|]. lra. }
    replace (Z.to_nat (Z.min (rows tm - 1) (lastRow tm c)
                       - Z.max 0 (firstRow tm c) + 1)) with 0%nat by lia.
    lia.
Qed.

Lemma tile_outside_extent_witness :
  createTile "2026-02-15T08:45:00Z" {| x := 0; y := 3; z := 3 |} = [].
Proof.
  refine (tile_outside_extent BOM_TILE_MATRICES "2026-02-15T08:45:00Z"
            {| x := 0; y := 3; z := 3 |}
            {| originX := 11584952 # 1;
               originY := 4112728171395 # 1000000;
               cols := 2; rows := 2 |} eq_refl _).
  left. vm_compute. discriminate.
Defined.

(** X5: the BoM table has a matrix exactly for the zooms 0 to 8; at any
    other zoom [createTile] appends nothing. *)
Theorem bom_zoom_coverage (zoom : Z) :
  (is_Some (BOM_TILE_MATRICES !! zoom) <-> 0 <= zoom <= 8)
  /\ forall (timestamp : string) (c : Coords),
       z c = zoom -> ~ (0 <= zoom <= 8) -> createTile timestamp c = [].
Proof.
  split; [split|].
  - intros [tm Htm].
    destruct (Z_lt_le_dec zoom 0) as [H|H];
      [rewrite BOM_TILE_MATRICES_domain in Htm by lia; discriminate|].
    destruct (Z_lt_le_dec 8 zoom) as [H'|H'];
      [rewrite BOM_TILE_MATRICES_domain in Htm by lia; discriminate|].
    lia.
  - intros Hz.
    assert (Hcases : zoom = 0 \/ zoom = 1 \/ zoom = 2 \/ zoom = 3 \/ zoom = 4
                     \/ zoom = 5 \/ zoom = 6 \/ zoom = 7 \/ zoom = 8) by lia.
    repeat (destruct Hcases as [-> | Hcases]; [eexists; reflexivity|]).
    subst zoom. eexists. reflexivity.
  - intros timestamp c Hz Hout. apply createTile_outside_coverage.
    rewrite Hz. lia.
Qed.

Lemma bom_zoom_coverage_witness :
  createTile "2026-02-15T08:45:00Z" {| x := 230; y := 150; z := 9 |} = [].
Proof.
  refine (proj2 (bom_zoom_coverage 9) "2026-02-15T08:45:00Z"
            {| x := 230; y := 150; z := 9 |} eq_refl _).
  lia.
Defined.

End GridExtent.

(** ** The timestamps of the BoM card *)

Section WmtsTimestamps.
Import BomRadarCard.

(** X6: the latest timestamp of a poll is on the five-minute grid and
    between five (included) and ten (excluded) minutes old. *)
Theorem latestMs_age (dateNow : Z) :
  latestMs dateNow mod (5 * 60 * 1000) = 0
  /\ dateNow - 10 * 60 * 1000 < latestMs dateNow <= dateNow - 5 * 60 * 1000.
Proof.
  split; [apply latestMs_quantized|].
  unfold latestMs, fiveMinutes.
  pose proof (Z.mul_div_le (dateNow - 5 * 60 * 1000) (5 * 60 * 1000) eq_refl).
  pose proof (Z.mul_succ_div_gt (dateNow - 5 * 60 * 1000) (5 * 60 * 1000) eq_refl).
  lia.
Qed.

Lemma rev_map_seq {A} (f : nat -> A) (n : nat) :
  rev (map f (seq 0 n)) = map (fun k => f (n - 1 - k)%nat) (seq 0 n).
Proof.
  induction n as [|n IH]; [reflexivity|].
  rewrite (seq_S n 0) at 1. rewrite map_app, rev_app_distr.
  cbn [map rev app Nat.add]. rewrite IH. cbn [seq map].
  replace (S n - 1 - 0)%nat with n by lia. f_equal.
  rewrite <- seq_shift, map_map. apply map_ext_in.
  intros k Hk. apply in_seq in Hk. f_equal. lia.
Qed.

(** X7: a poll computes [max(frame_count, 12) + 4] timestamps, oldest
    first, five minutes apart, the last one being the latest. *)
Theorem timestampTimes_ascending (dateNow frame_count : Z) :
  let n := Z.to_nat (Z.max frame_count 12 + 4) in
  length (timestampTimes dateNow frame_count) = n
  /\ (16 <= n)%nat
  /\ forall i : nat,
       (i < n)%nat ->
       timestampTimes dateNow frame_count !! i
       = Some (latestMs dateNow - Z.of_nat (n - 1 - i) * (5 * 60 * 1000)).
Proof.
  intros n. unfold timestampTimes, countFromTo.
  rewrite map_map, rev_map_seq.
  replace (Z.to_nat (Z.max frame_count 12 + 4 - 1 - 0 + 1)) with n by lia.
  split; [rewrite length_map, length_seq; reflexivity|].
  split; [lia|].
  intros i Hi. rewrite list_lookup_fmap. rewrite lookup_seq_lt by exact Hi.
  cbn. f_equal; unfold fiveMinutes; lia.
Qed.

Lemma slice_from_length {A} (start : Z) (l : list A) :
  0 <= start ->
  length (Js.slice_from (- start) l)
  = if start =? 0 then length l
    else Nat.min (Z.to_nat start) (length l).
Proof.
  intros H. unfold Js.slice_from. rewrite length_drop.
  destruct (Z.eqb_spec start 0) as [->|Hne].
  - change (- 0 <? 0) with false. cbv iota. lia.
  - destruct (Z.ltb_spec (- start) 0); lia.
Qed.

(** X8: at start-up the card creates a layer for the newest [frame_count]
    timestamps it has, or for all of them when it has fewer; a
    [frame_count] of zero creates a layer for every one. *)
Theorem loadRadarLayers_newest (available : list string)
    (start_time frame_count : Z) :
  available <> [] ->
  0 <= frame_count ->
  let layers := loadRadarLayers available start_time frame_count in
  (exists older : list string, available = older ++ layers)
  /\ length layers
     = if frame_count =? 0 then length available
       else Nat.min (Z.to_nat frame_count) (length available).
Proof.
  intros Hne Hfc layers. subst layers. unfold loadRadarLayers.
  destruct (0 <? length available)%nat eqn:E.
  - split; [|apply slice_from_length; exact Hfc].
    unfold Js.slice_from. eexists. symmetry. apply take_drop.
  - apply Nat.ltb_ge in E. destruct available; [congruence | cbn in E; lia].
Qed.

Lemma loadRadarLayers_newest_witness :
  length (loadRadarLayers (availableTimestamps 1771145123456 12) 0 24)
  = 16%nat.
Proof.
  refine (eq_trans
            (proj2 (loadRadarLayers_newest
                      (availableTimestamps 1771145123456 12) 0 24 _ _)) _).
  - vm_compute. discriminate.
  - lia.
  - vm_compute. reflexivity.
Defined.

End WmtsTimestamps.

(** ** Rounding to binary64 *)

Section Binary64.

Lemma roundHalfEven_error (y : Q) :
  (y - (1 # 2) <= inject_Z (Js.roundHalfEven y) <= y + (1 # 2))%Q.
Proof.
  unfold Js.roundHalfEven.
  pose proof (Qfloor_le y) as Hlo. pose proof (Qlt_floor y) as Hhi.
  rewrite inject_Z_plus in Hhi. change (inject_Z 1) with 1%Q in Hhi.
  destruct (y - inject_Z (Qfloor y) ?= 1 # 2)%Q eqn:E.
  - apply Qeq_alt in E. destruct (Z.even (Qfloor y));
      rewrite ?inject_Z_plus; change (inject_Z 1) with 1%Q; lra.
  - apply Qlt_alt in E. lra.
  - apply Qgt_alt in E. rewrite inject_Z_plus. change (inject_Z 1) with 1%Q. lra.
Qed.

Lemma floorLog2_below_two (x : Q) :
  (0 < x)%Q -> (x < 2)%Q -> Js.floorLog2 x <= 0.
Proof.
  intros Hpos Hlt. unfold Js.floorLog2.
  destruct x as [n d]. cbn [Qnum Qden].
  assert (Hn : 0 < n) by (unfold Qlt in Hpos; cbn in Hpos; lia).
  assert (Hnd : n < 2 * Zpos d) by (unfold Qlt in Hlt; cbn in Hlt; lia).
  assert (He : Z.log2 n <= Z.log2 (Zpos d) + 1).
  { pose proof (Z.log2_le_mono n (2 * Zpos d) ltac:(lia)) as H.
    rewrite Z.log2_double in H by lia. lia. }
  destruct (Z.eq_dec (Z.log2 n - Z.log2 (Z.pos d)) 1) as [E|E].
  - rewrite E. change (2 ^ 1)%Q with 2%Q.
    destruct (Qle_bool 2 (n # d)) eqn:Hb; [|lia].
    apply Qle_bool_imp_le in Hb. lra.
  - destruct (Qle_bool _ _); lia.
Qed.

(** Rounding a number of [0, 2) to binary64 moves it by at most 2^-53. *)
Lemma binary64_error (x : Q) :
  (0 <= x)%Q -> (x < 2)%Q ->
  (x - (1 # 9007199254740992) <= Js.binary64 x
   <= x + (1 # 9007199254740992))%Q.
Proof.
  intros H0 H2. unfold Js.binary64.
  destruct (Qnum x) as [|p|p] eqn:En.
  - assert (x == 0)%Q by (destruct x; cbn in En; subst; reflexivity). lra.
  - assert (Hpos : (0 < x)%Q).
    { destruct x as [n d]. cbn in En. subst n. reflexivity. }
    unfold Js.binary64_pos.
    pose proof (floorLog2_below_two x Hpos H2) as He.
    set (e := Z.max (Js.floorLog2 x) (-1022)).
    assert (He0 : e <= 0) by (subst e; lia).
    set (ulp := (2 ^ (e - 52))%Q).
    assert (Hulp : (0 < ulp)%Q) by (apply Qpower_0_lt; reflexivity).
    assert (Hulp' : (ulp <= 1 # 4503599627370496)%Q).
    { change (1 # 4503599627370496)%Q with (2 ^ (-52))%Q.
      apply Qpower_le_compat_l; [lia | discriminate]. }
    pose proof (roundHalfEven_error (x / ulp)) as (Hlo & Hhi).
    assert (Hx : (x == x / ulp * ulp)%Q) by (field; lra).
    generalize dependent (inject_Z (Js.roundHalfEven (x / ulp))).
    generalize dependent (x / ulp)%Q. intros y Hy m Hlo Hhi.
    nra.
  - destruct x as [n d]. cbn in En. subst n. unfold Qle in H0. cbn in H0. lia.
Qed.

End Binary64.

(** ** The interval-driven cards *)

Section IntervalCards.
Import BomRadarCard.

Lemma setOpacity_lookup (layer : option string) (o : Q) (m : gmap string Q)
    (x : string) :
  setOpacity layer o m !! x
  = if decide (layer = Some x) then (fun _ => o) <$> m !! x else m !! x.
Proof.
  unfold setOpacity. destruct layer as [lid|].
  - destruct (decide (Some lid = Some x)) as [[= ->]|Hne].
    + apply lookup_alter_eq.
    + apply lookup_alter_ne. congruence.
  - destruct (decide (None = Some x)); [discriminate | reflexivity].
Qed.

(** The layers of the list are the layers on the map, each once, and the
    one at the frame index alone is visible. *)
Definition oneVisible (p : Playback) : Prop :=
  NoDup (mapLayers p)
  /\ (forall x : string, is_Some (layerOpacity p !! x) -> x ∈ mapLayers p)
  /\ forall (k : nat) (x : string),
       mapLayers p !! k = Some x ->
       layerOpacity p !! x
       = Some (if Z.of_nat k =? frame p then overlayOpacity p else 0%Q).

Lemma changeRadarFrame_oneVisible (p : Playback) :
  hasMap p = true ->
  0 < frame_count p ->
  0 <= frame p < frame_count p ->
  Z.of_nat (length (mapLayers p)) = frame_count p
  \/ Z.of_nat (length (mapLayers p)) = frame_count p + 1 ->
  oneVisible p ->
  oneVisible (changeRadarFrame p)
  /\ overlayOpacity (changeRadarFrame p) = overlayOpacity p
  /\ (frame_count p < Z.of_nat (length (mapLayers p)) ->
      forall old : string,
        head (mapLayers p) = Some old ->
        layerOpacity (changeRadarFrame p) !! old = None
        /\ old ∉ mapLayers (changeRadarFrame p)).
Proof.
  intros Hmap Hfc Hframe Hlen (Hnd & Hdom & Hop).
  unfold changeRadarFrame. rewrite Hmap. cbn [negb].
  unfold oneVisible.
  cbn [mapLayers frame frame_count layerOpacity overlayOpacity].
  assert (Hat : forall i : Z,
             0 <= i -> at_index (mapLayers p) i = mapLayers p !! Z.to_nat i).
  { intros i Hi. unfold at_index. destruct (Z.ltb_spec i 0); [lia|reflexivity]. }
  destruct Hlen as [Hlen | Hlen]; rewrite Hlen.
  - (* a full window: nothing is evicted *)
    rewrite Z.ltb_irrefl. rewrite Z.rem_mod_nonneg by lia.
    pose proof (Z.mod_pos_bound (frame p + 1) (frame_count p) Hfc) as Hnext.
    set (next := (frame p + 1) mod frame_count p) in *.
    rewrite !Hat by lia.
    split; [|split; [reflexivity | lia]].
    split; [exact Hnd|]. split.
    + intros x Hx. apply Hdom. revert Hx.
      rewrite !setOpacity_lookup.
      repeat case_decide; rewrite ?fmap_is_Some; auto.
    + intros k x Hk. rewrite !setOpacity_lookup.
      pose proof (Hop k x Hk) as Hx.
      destruct (decide (mapLayers p !! Z.to_nat next = Some x)) as [Hn|Hn].
      * pose proof (NoDup_lookup _ _ _ _ Hnd Hk Hn) as ->.
        rewrite Z2Nat.id, Z.eqb_refl by lia.
        case_decide; rewrite Hx; reflexivity.
      * assert (Z.of_nat k <> next).
        { intros E. apply Hn. rewrite <- E, Nat2Z.id. exact Hk. }
        destruct (Z.eqb_spec (Z.of_nat k) next); [lia|].
        case_decide; rewrite Hx; [reflexivity|].
        destruct (Z.eqb_spec (Z.of_nat k) (frame p)) as [E|E]; [|reflexivity].
        exfalso. match goal with H : _ <> Some x |- _ => apply H end.
        rewrite <- E, Nat2Z.id. exact Hk.
  - (* one layer too many: the oldest is evicted *)
    destruct (Z.ltb_spec (frame_count p) (frame_count p + 1)); [|lia].
    rewrite Z.rem_mod_nonneg by lia.
    rewrite Z.mod_small by lia.
    replace (frame p + 1 - 1) with (frame p) by lia.
    rewrite !Hat by lia.
    destruct (mapLayers p) as [|old rest] eqn:El; [cbn in Hlen; lia|].
    cbn [head tail].
    apply NoDup_cons in Hnd. destruct Hnd as [Hold Hrest].
    assert (Hlookup : forall x : string,
               x <> old ->
               delete old
                 (setOpacity ((old :: rest) !! Z.to_nat (frame p + 1))
                    (overlayOpacity p)
                    (setOpacity ((old :: rest) !! Z.to_nat (frame p)) 0%Q
                       (layerOpacity p))) !! x
               = setOpacity ((old :: rest) !! Z.to_nat (frame p + 1))
                   (overlayOpacity p)
                   (setOpacity ((old :: rest) !! Z.to_nat (frame p)) 0%Q
                      (layerOpacity p)) !! x).
    { intros x Hx. apply lookup_delete_ne. congruence. }
    split; [|split; [reflexivity|]].
    + split; [exact Hrest|]. split.
      * intros x Hx.
        destruct (decide (x = old)) as [->|Hne].
        { rewrite lookup_delete_eq in Hx. destruct Hx; discriminate. }
        rewrite (Hlookup x Hne) in Hx.
        assert (Hin : x ∈ old :: rest).
        { apply Hdom. revert Hx. rewrite !setOpacity_lookup.
          repeat case_decide; rewrite ?fmap_is_Some; auto. }
        apply elem_of_cons in Hin. destruct Hin; [congruence | assumption].
      * intros k x Hk.
        assert (Hne : x <> old).
        { intros ->. apply Hold. eapply list_elem_of_lookup_2. exact Hk. }
        rewrite (Hlookup x Hne), !setOpacity_lookup.
        assert (Hk' : (old :: rest) !! S k = Some x) by exact Hk.
        pose proof (Hop (S k) x Hk') as Hx.
        assert (Hnd : NoDup (old :: rest)) by (apply NoDup_cons; auto).
        destruct (decide ((old :: rest) !! Z.to_nat (frame p + 1) = Some x))
          as [Hn|Hn].
        -- pose proof (NoDup_lookup _ _ _ _ Hnd Hk' Hn) as E.
           destruct (Z.eqb_spec (Z.of_nat k) (frame p)); [|lia].
           case_decide; rewrite Hx; reflexivity.
        -- assert (Z.of_nat k <> frame p).
           { intros E. apply Hn. rewrite <- E.
             replace (Z.to_nat (Z.of_nat k + 1)) with (S k) by lia. exact Hk'. }
           destruct (Z.eqb_spec (Z.of_nat k) (frame p)); [lia|].
           case_decide; rewrite Hx; [reflexivity|].
           destruct (Z.eqb_spec (Z.of_nat (S k)) (frame p)) as [E|E];
             [|reflexivity].
           exfalso. match goal with H : _ <> Some x |- _ => apply H end.
           rewrite <- E, Nat2Z.id. exact Hk'.
    + intros _ old' [= <-]. split; [apply lookup_delete_eq | exact Hold].
Qed.

(** X9: with [frame_count] layers, or one more just after a poll,
    [changeRadarFrame] leaves exactly [frame_count] layers, keeps the frame
    index inside them, and shows the layer that followed the visible one
    (cyclically) before the call: an eviction neither skips nor repeats a
    frame.  When the layers of the list are the layers on the map and the
    one at the frame index alone is visible, the same holds afterwards: the
    layer now at the frame index has the overlay opacity, every other one
    has opacity 0, and an evicted layer is gone from the list and from the
    map. *)
Theorem changeRadarFrame_window (p : Playback) :
  hasMap p = true ->
  0 < frame_count p ->
  0 <= frame p < frame_count p ->
  Z.of_nat (length (mapLayers p)) = frame_count p
  \/ Z.of_nat (length (mapLayers p)) = frame_count p + 1 ->
  let len := Z.of_nat (length (mapLayers p)) in
  let p' := changeRadarFrame p in
  Z.of_nat (length (mapLayers p')) = frame_count p
  /\ frame_count p' = frame_count p
  /\ 0 <= frame p' < frame_count p
  /\ at_index (mapLayers p') (frame p')
     = at_index (mapLayers p) ((frame p + 1) mod len)
  /\ (NoDup (mapLayers p) ->
      (forall x : string, is_Some (layerOpacity p !! x) -> x ∈ mapLayers p) ->
      (forall (k : nat) (x : string),
          mapLayers p !! k = Some x ->
          layerOpacity p !! x
          = Some (if Z.of_nat k =? frame p then overlayOpacity p else 0%Q)) ->
      NoDup (mapLayers p')
      /\ (forall x : string,
             is_Some (layerOpacity p' !! x) -> x ∈ mapLayers p')
      /\ (forall (k : nat) (x : string),
             mapLayers p' !! k = Some x ->
             layerOpacity p' !! x
             = Some (if Z.of_nat k =? frame p' then overlayOpacity p
                     else 0%Q))
      /\ (frame_count p < len ->
          forall old : string,
            head (mapLayers p) = Some old ->
            layerOpacity p' !! old = None /\ old ∉ mapLayers p')).
Proof.
  intros Hmap Hfc Hframe Hlen len p'.
  assert (Hvisible :
            oneVisible p ->
            oneVisible p'
            /\ overlayOpacity p' = overlayOpacity p
            /\ (frame_count p < len ->
                forall old : string,
                  head (mapLayers p) = Some old ->
                  layerOpacity p' !! old = None /\ old ∉ mapLayers p'))
    by (apply changeRadarFrame_oneVisible; assumption).
  assert (Hlist :
            Z.of_nat (length (mapLayers p')) = frame_count p
            /\ frame_count p' = frame_count p
            /\ 0 <= frame p' < frame_count p
            /\ at_index (mapLayers p') (frame p')
               = at_index (mapLayers p) ((frame p + 1) mod len)).
  { clear Hvisible. subst p' len.
    unfold changeRadarFrame. rewrite Hmap. cbn [negb].
    cbn [mapLayers frame frame_count].
    destruct Hlen as [Hlen | Hlen]; rewrite Hlen.
    - rewrite Z.ltb_irrefl. rewrite Z.rem_mod_nonneg by lia.
      pose proof (Z.mod_pos_bound (frame p + 1) (frame_count p) Hfc).
      repeat split; try lia.
    - destruct (Z.ltb_spec (frame_count p) (frame_count p + 1)); [|lia].
      rewrite Z.rem_mod_nonneg by lia.
      rewrite Z.mod_small by lia.
      replace (frame p + 1 - 1) with (frame p) by lia.
      split.
      { destruct (mapLayers p); cbn in *; lia. }
      split; [reflexivity|]. split; [lia|].
      unfold at_index.
      destruct (Z.ltb_spec (frame p) 0); [lia|].
      destruct (Z.ltb_spec (frame p + 1) 0); [lia|].
      rewrite lookup_tail. f_equal. lia. }
  destruct Hlist as (H1 & H2 & H3 & H4).
  split; [exact H1|]. split; [exact H2|]. split; [exact H3|].
  split; [exact H4|].
  intros Hnd Hdom Hop.
  destruct (Hvisible (conj Hnd (conj Hdom Hop)))
    as ((Hnd' & Hdom' & Hop') & Ho & Hold).
  split; [exact Hnd'|]. split; [exact Hdom'|]. split; [|exact Hold].
  intros k x Hk. rewrite <- Ho. apply Hop', Hk.
Qed.

Definition samplePlayback : Playback :=
  {| hasMap := true; frame_count := 3; frame_delay := 250;
     restart_delay := 1000;
     mapLayers := ["2026-02-15T08:30:00Z"; "2026-02-15T08:35:00Z";
                   "2026-02-15T08:40:00Z"; "2026-02-15T08:45:00Z"];
     radarTime := ["08:30"; "08:35"; "08:40"; "08:45"];
     layerOpacity :=
       list_to_map [("2026-02-15T08:30:00Z", 0%Q);
                    ("2026-02-15T08:35:00Z", (3 # 5)%Q);
                    ("2026-02-15T08:40:00Z", 0%Q);
                    ("2026-02-15T08:45:00Z", 0%Q)];
     overlayOpacity := (3 # 5)%Q; frame := 1; frameTimer := Some 250 |}.

Lemma changeRadarFrame_window_witness :
  let p' := changeRadarFrame samplePlayback in
  at_index (mapLayers p') (frame p') = Some "2026-02-15T08:40:00Z"
  /\ layerOpacity p' !! "2026-02-15T08:40:00Z" = Some (3 # 5)%Q
  /\ layerOpacity p' !! "2026-02-15T08:35:00Z" = Some 0%Q
  /\ layerOpacity p' !! "2026-02-15T08:30:00Z" = None.
Proof.
  intros p'.
  destruct (changeRadarFrame_window samplePlayback)
    as (_ & _ & _ & Hat & Hvis).
  - reflexivity.
  - reflexivity.
  - cbn. lia.
  - right. reflexivity.
  - destruct Hvis as (_ & _ & Hop & Hold).
    + match goal with |- ?P => apply (bool_decide_unpack P) end.
      vm_compute. exact I.
    + intros x Hx.
      destruct (decide (x ∈ mapLayers samplePlayback)) as [Hin|Hout];
        [exact Hin|].
      exfalso. cbn in Hout.
      rewrite !not_elem_of_cons in Hout.
      destruct Hout as (H1 & H2 & H3 & H4 & _).
      cbn in Hx. rewrite !lookup_insert_ne in Hx by congruence.
      rewrite lookup_empty in Hx. destruct Hx; discriminate.
    + intros [|[|[|[|k]]]] x Hk; cbn in Hk; try discriminate;
        injection Hk as <-; vm_compute; reflexivity.
    + fold p' in Hat, Hop, Hold.
      split; [rewrite Hat; reflexivity|].
      split; [exact (Hop 1%nat _ eq_refl)|].
      split; [exact (Hop 0%nat _ eq_refl)|].
      apply (Hold ltac:(cbn; lia) _ eq_refl).
Defined.

(** [k] retries in a row of the capabilities poll, from a counter at 0. *)
Definition capabilitiesRetryCount (k : nat) : Z :=
  Nat.iter k (fun n => snd (scheduleCapabilitiesRetry n)) 0.

(** X10: after [k] retries in a row the counter of the interval-driven
    cards is [min k 5], and the delay the next retry arms is the one
    [getRetryDelayMs k] gives: clamping the counter does not change the
    backoff. *)
Theorem capabilities_retry_schedule (k : nat) :
  capabilitiesRetryCount k = Z.min (Z.of_nat k) MAX_RETRY_COUNT
  /\ fst (scheduleCapabilitiesRetry (capabilitiesRetryCount k))
     = RadarSource.getRetryDelayMs k.
Proof.
  assert (Hcount : capabilitiesRetryCount k = Z.min (Z.of_nat k) MAX_RETRY_COUNT).
  { induction k as [|k IH]; [reflexivity|].
    unfold capabilitiesRetryCount in *. rewrite Nat.iter_succ, IH.
    unfold scheduleCapabilitiesRetry, MAX_RETRY_COUNT. cbn [snd]. lia. }
  split; [exact Hcount|]. rewrite Hcount.
  unfold scheduleCapabilitiesRetry, MAX_RETRY_COUNT. cbn [fst].
  destruct (Z.min_spec (Z.of_nat k) 5) as [[H ->]|[H ->]]; [reflexivity|].
  rewrite getRetryDelayMs_saturated by lia. reflexivity.
Qed.

(** X11: whatever the configured transparency (absent, NaN, infinite, out
    of range), the interval-driven cards store a value [t] in [0, 90] and
    draw the visible layer with the binary64 result of [1 - t / 100],
    which is within 2^-52 of the exact value, at most 1 and above 0: the
    radar can never be made invisible.  (At [t = 90] the result is
    0.09999999999999998, just under one tenth.) *)
Theorem overlay_opacity_range (value : option Config.number) :
  let t := BomOverlay.normalizeOverlayTransparency value in
  let opacity := BomOverlay.getOverlayOpacity t in
  (0 <= t <= 90
   /\ 1 - t / 100 - (1 # 4503599627370496) <= opacity
   /\ opacity <= 1 - t / 100 + (1 # 4503599627370496)
   /\ 0 < opacity <= 1)%Q
  /\ (BomOverlay.getOverlayOpacity 90
      == 900719925474099 # 9007199254740992)%Q
  /\ (BomOverlay.getOverlayOpacity 90 < 1 # 10)%Q
  /\ (BomOverlay.getOverlayOpacity 0 == 1)%Q.
Proof.
  intros t opacity.
  split; [|repeat split; vm_compute; reflexivity].
  assert (Ht : (0 <= t <= 90)%Q).
  { subst t. unfold BomOverlay.normalizeOverlayTransparency.
    destruct value as [[q| | |]|]; try (split; discriminate).
    split.
    - apply Q.min_glb; [apply Q.le_max_r | discriminate].
    - apply Q.le_min_r. }
  split; [exact Ht|].
  subst opacity. unfold BomOverlay.getOverlayOpacity.
  assert (Hq : (0 <= t / 100 <= 9 # 10)%Q).
  { unfold Qdiv. change (/ 100)%Q with (1 # 100)%Q.
    generalize dependent t. intros t Ht. lra. }
  pose proof (binary64_error (t / 100) ltac:(lra) ltac:(lra)) as Hr.
  set (r := Js.binary64 (t / 100)) in *.
  pose proof (binary64_error (1 - r) ltac:(lra) ltac:(lra)) as Ho.
  set (o := Js.binary64 (1 - r)) in *.
  generalize dependent (t / 100)%Q. intros q r Hq Hr o Ho. clear t Ht.
  destruct (Q.min_spec 1 o) as [[H1 E1]|[H1 E1]];
    destruct (Q.max_spec 0 (Qmin 1 o)) as [[H2 E2]|[H2 E2]];
    rewrite E2; rewrite ?E1 in *; lra.
Qed.

End IntervalCards.

(** ** The radar layers of the map controller *)

Section RadarLayers.
Import MapController.

Lemma removeRadarLayer_lookup (a layerId : string) (m : t) :
  radarTileLayers (removeRadarLayer a m) !! layerId
  = if decide (a = layerId) then None else radarTileLayers m !! layerId.
Proof.
  unfold removeRadarLayer.
  destruct (radarTileLayers m !! a) eqn:E; cbn.
  - rewrite lookup_delete. reflexivity.
  - case_decide; [subst; exact E | reflexivity].
Qed.

(** X12: [setRadarLayer] never replaces a layer that is already there (the
    first URL and the opacity stay), and [removeRadarLayer] undoes
    [setRadarLayer] of a layer that was not there. *)
Theorem setRadarLayer_removeRadarLayer (layerId tileUrl : string) (m : t) :
  (is_Some (radarTileLayers m !! layerId) ->
   setRadarLayer layerId tileUrl m = m)
  /\ (radarTileLayers m !! layerId = None ->
      radarTileLayers (setRadarLayer layerId tileUrl m) !! layerId
      = Some {| MapController.tileUrl := tileUrl; opacity := 0%Q |}
      /\ removeRadarLayer layerId (setRadarLayer layerId tileUrl m) = m).
Proof.
  split.
  - intros [l Hl]. unfold setRadarLayer. rewrite Hl. reflexivity.
  - intros Hnone. unfold setRadarLayer. rewrite Hnone. cbn.
    split; [apply lookup_insert_eq|].
    unfold removeRadarLayer. cbn. rewrite lookup_insert_eq.
    rewrite delete_insert_id by exact Hnone. destruct m; reflexivity.
Qed.

(** X13: [clearRadarLayers] removes the layers it is given and no other:
    afterwards a layer is on the map exactly when it was there and is not in
    the list, with its URL and opacity unchanged. *)
Theorem clearRadarLayers_lookup (layerIds : list string) :
  forall (m : t) (layerId : string),
    radarTileLayers (clearRadarLayers layerIds m) !! layerId
    = if decide (layerId ∈ layerIds) then None
      else radarTileLayers m !! layerId.
Proof.
  induction layerIds as [|a ids IH]; intros m layerId.
  - cbn. case_decide; [set_solver | reflexivity].
  - change (clearRadarLayers (a :: ids) m)
      with (clearRadarLayers ids (removeRadarLayer a m)).
    rewrite IH, removeRadarLayer_lookup.
    repeat case_decide; try reflexivity; set_solver.
Qed.

End RadarLayers.

(** ** Escaping of the marker icon *)

Section EscapeHtml.
Import MapHtml.

(** What one character becomes in an HTML attribute. *)
Definition escapeChar (a : ascii) : string :=
  if Ascii.eqb a "&" then "&amp;"
  else if Ascii.eqb a "<" then "&lt;"
  else if Ascii.eqb a ">" then "&gt;"
  else if Ascii.eqb a dquote then "&quot;"
  else String a EmptyString.

Fixpoint escapeEach (s : string) : string :=
  match s with
  | EmptyString => EmptyString
  | String a r => escapeChar a +:+ escapeEach r
  end.

Fixpoint occurs (c : ascii) (s : string) : bool :=
  match s with
  | EmptyString => false
  | String a r => Ascii.eqb a c || occurs c r
  end.

Lemma occurs_append (c : ascii) (a b : string) :
  occurs c (a +:+ b) = occurs c a || occurs c b.
Proof.
  induction a as [|ch a IH]; [reflexivity|].
  change (String ch a +:+ b) with (String ch (a +:+ b)).
  cbn [occurs]. rewrite IH. apply orb_assoc.
Qed.

Lemma escapeHtml_each (s : string) : escapeHtml s = escapeEach s.
Proof.
  unfold escapeHtml. induction s as [|a r IH]; [reflexivity|].
  cbn [escapeEach]. rewrite <- IH. unfold escapeChar.
  cbn [replaceAll].
  destruct (Ascii.eqb_spec a "&") as [->|H1]; [reflexivity|].
  cbn [replaceAll].
  destruct (Ascii.eqb_spec a "<") as [->|H2]; [reflexivity|].
  cbn [replaceAll].
  destruct (Ascii.eqb_spec a ">") as [->|H3]; [reflexivity|].
  cbn [replaceAll].
  destruct (Ascii.eqb_spec a dquote) as [->|H4]; reflexivity.
Qed.

Lemma escapeChar_clean (a c : ascii) :
  c = "<"%char \/ c = ">"%char \/ c = dquote -> occurs c (escapeChar a) = false.
Proof.
  intros Hc. unfold escapeChar.
  destruct (Ascii.eqb_spec a "&") as [->|H1];
    [destruct Hc as [-> | [-> | ->]]; reflexivity|].
  destruct (Ascii.eqb_spec a "<") as [->|H2];
    [destruct Hc as [-> | [-> | ->]]; reflexivity|].
  destruct (Ascii.eqb_spec a ">") as [->|H3];
    [destruct Hc as [-> | [-> | ->]]; reflexivity|].
  destruct (Ascii.eqb_spec a dquote) as [->|H4];
    [destruct Hc as [-> | [-> | ->]]; reflexivity|].
  cbn [occurs]. rewrite orb_false_r. apply Ascii.eqb_neq.
  destruct Hc as [-> | [-> | ->]]; assumption.
Qed.

(** X14: [escapeHtml] acts as one pass over the characters (the ampersand
    is replaced first, so the entities written for the other characters are
    not escaped again), and its result holds no [<], no [>] and no double
    quote: an icon name cannot close the attribute it is written into. *)
Theorem escapeHtml_safe (value : string) :
  escapeHtml value = escapeEach value
  /\ occurs "<" (escapeHtml value) = false
  /\ occurs ">" (escapeHtml value) = false
  /\ occurs dquote (escapeHtml value) = false.
Proof.
  split; [apply escapeHtml_each|].
  rewrite escapeHtml_each.
  induction value as [|a r (IH1 & IH2 & IH3)]; [auto|].
  cbn [escapeEach]. rewrite !occurs_append, IH1, IH2, IH3.
  rewrite !escapeChar_clean by auto. auto.
Qed.

Example escapeHtml_sample :
  escapeHtml "mdi:a&b<c>" = "mdi:a&amp;b&lt;c&gt;".
Proof. reflexivity. Qed.

End EscapeHtml.

(** ** The RainViewer card: invariants of the frame window *)

Section WindowInvariant.
Import RadarSource RasterCard.

(** The card after a method body, however it was left. *)
Definition cardOf (x : completion) : Card :=
  match x with
  | Normal c => c
  | Abrupt c => c
  end.

(** A window in good order for a capacity: one layer id per frame, in the
    same order, no more frames than the capacity, and a visible index that
    points at a frame when there is one. *)
Definition windowOk (capacity : nat) (c : Card) : Prop :=
  layerIds c = map id (radarFrames c)
  /\ (length (radarFrames c) <= capacity)%nat
  /\ (radarFrames c <> [] -> (frameIndex c < length (radarFrames c))%nat).

Lemma evictOne_n_layerIds (k : nat) :
  forall c : Card, layerIds (Nat.iter k evictOne c) = drop k (layerIds c).
Proof.
  induction k as [|k IH]; intros c; [reflexivity|].
  rewrite Nat.iter_succ_r, IH.
  destruct (evictOne_fields c) as (_ & Hl & _). rewrite Hl.
  destruct (layerIds c) as [|a l]; cbn [tail];
    [rewrite drop_nil; reflexivity | reflexivity].
Qed.

Lemma lastIndex_valid (c : Card) :
  radarFrames c <> [] -> (lastIndex c < length (radarFrames c))%nat.
Proof.
  intros Hne. unfold lastIndex.
  destruct (radarFrames c); [congruence|]. cbn. lia.
Qed.

Lemma mergeNewFrames_windowOk (allFrames : list RadarFrame)
    (frameCount : nat) (c : Card) (mc : MapController.t) :
  mapController c = Some mc ->
  windowOk frameCount c ->
  windowOk frameCount (mergeNewFrames allFrames frameCount c)
  /\ exists mc', mapController (mergeNewFrames allFrames frameCount c) = Some mc'.
Proof.
  intros Hmc (Hids & Hcap & Hidx). unfold mergeNewFrames.
  destruct (length (framesToAdd allFrames frameCount c) =? 0)%nat eqn:E.
  { split; [repeat split; assumption | eauto]. }
  set (toAdd := framesToAdd allFrames frameCount c) in *.
  destruct (addFrames_fields toAdd c mc Hmc) as (Hf1 & Hl1 & _ & mc1 & Hmc1).
  set (c1 := addFrames toAdd c) in *.
  rewrite evictWhileOver_turns.
  set (k := (length (radarFrames c1) - frameCount)%nat).
  destruct (evictOne_n_fields k c1) as (Hf2 & _); [subst k; lia|].
  pose proof (evictOne_n_layerIds k c1) as Hl2.
  destruct (evictOne_n_keeps_map k c1 mc1 Hmc1) as (mc2 & Hmc2).
  set (c2 := Nat.iter k evictOne c1) in *.
  split; [|exists mc2; exact Hmc2].
  unfold windowOk. cbn [layerIds radarFrames frameIndex with_frameIndex].
  split; [|split].
  - rewrite Hl2, Hf2, Hl1, Hf1, Hids, <- map_app. symmetry. apply fmap_drop.
  - rewrite Hf2, length_drop. subst k. lia.
  - apply lastIndex_valid.
Qed.

(** X15: [mergeNewFrames] keeps the window in good order: afterwards there
    is still one layer id per frame, at most [frameCount] frames, and the
    visible index points at a frame. *)
Theorem mergeNewFrames_keeps_window (allFrames : list RadarFrame)
    (frameCount : nat) (c : Card) (mc : MapController.t) :
  mapController c = Some mc ->
  windowOk frameCount c ->
  windowOk frameCount (mergeNewFrames allFrames frameCount c)
  /\ exists mc', mapController (mergeNewFrames allFrames frameCount c) = Some mc'.
Proof. apply mergeNewFrames_windowOk. Qed.

Lemma mergeNewFrames_keeps_window_witness :
  windowOk 3
    (mergeNewFrames [frameB; frameC; frameD] 3
       (sampleCard [frameA; frameB; frameC] 1)).
Proof.
  refine (proj1 (mergeNewFrames_keeps_window [frameB; frameC; frameD] 3
                   (sampleCard [frameA; frameB; frameC] 1)
                   (default {| MapController.radarTileLayers := ∅ |}
                      (mapController (sampleCard [frameA; frameB; frameC] 1)))
                   eq_refl _)).
  split; [reflexivity|]. split; cbn; lia.
Defined.

(** *** Which layer is visible *)

Definition shown (o : Q) (l : MapController.TileLayer) : MapController.TileLayer :=
  {| MapController.tileUrl := MapController.tileUrl l;
     MapController.opacity := o |}.

Lemma setOpacities_lookup (ids : list string) :
  forall (i0 visible : nat) (o : Q) (m : MapController.t),
    NoDup ids ->
    (forall (k : nat) (lid : string),
        ids !! k = Some lid ->
        MapController.radarTileLayers (setOpacities ids i0 visible o m) !! lid
        = shown (if (i0 + k =? visible)%nat then o else 0%Q)
            <$> MapController.radarTileLayers m !! lid)
    /\ (forall lid : string,
           lid ∉ ids ->
           MapController.radarTileLayers (setOpacities ids i0 visible o m) !! lid
           = MapController.radarTileLayers m !! lid).
Proof.
  induction ids as [|a r IH]; intros i0 visible o m Hnd.
  - split; [intros k lid Hk; discriminate | reflexivity].
  - apply NoDup_cons in Hnd. destruct Hnd as [Ha Hnd].
    cbn [setOpacities].
    destruct (IH (S i0) visible o
                (MapController.setRadarLayerOpacity a
                   (if (i0 =? visible)%nat then o else 0%Q) m) Hnd)
      as (IHin & IHout).
    split.
    + intros [|k] lid Hk.
      * cbn in Hk. injection Hk as <-. rewrite (IHout a Ha).
        unfold MapController.setRadarLayerOpacity.
        cbn [MapController.radarTileLayers].
        rewrite lookup_alter_eq, Nat.add_0_r. reflexivity.
      * cbn in Hk. rewrite (IHin k lid Hk).
        assert (a <> lid).
        { intros ->. apply Ha. eapply list_elem_of_lookup_2. exact Hk. }
        unfold MapController.setRadarLayerOpacity.
        cbn [MapController.radarTileLayers].
        rewrite lookup_alter_ne by assumption.
        replace (S i0 + k)%nat with (i0 + S k)%nat by lia. reflexivity.
    + intros lid Hlid. apply not_elem_of_cons in Hlid. destruct Hlid as [Hne Hlid].
      rewrite (IHout lid Hlid). unfold MapController.setRadarLayerOpacity.
      cbn [MapController.radarTileLayers].
      rewrite lookup_alter_ne by congruence. reflexivity.
Qed.

(** X16: after [applyVisibleFrame] on a window whose layer ids are pairwise
    distinct, the layer at the visible index has the overlay opacity and
    every other layer of the window has opacity 0, whether the body ran to
    its end or not; layers outside the window and all URLs are untouched. *)
Theorem applyVisibleFrame_one_visible (c : Card) (mc : MapController.t) :
  mapController c = Some mc ->
  NoDup (layerIds c) ->
  exists mc' : MapController.t,
    mapController (cardOf (applyVisibleFrame c)) = Some mc'
    /\ (forall (k : nat) (lid : string),
           layerIds c !! k = Some lid ->
           MapController.radarTileLayers mc' !! lid
           = shown (if (k =? frameIndex c)%nat then getOverlayOpacity c
                    else 0%Q)
               <$> MapController.radarTileLayers mc !! lid)
    /\ (forall lid : string,
           lid ∉ layerIds c ->
           MapController.radarTileLayers mc' !! lid
           = MapController.radarTileLayers mc !! lid).
Proof.
  intros Hmc Hnd.
  destruct (setOpacities_lookup (layerIds c) 0 (frameIndex c)
              (getOverlayOpacity c) mc Hnd) as (Hin & Hout).
  exists (setOpacities (layerIds c) 0 (frameIndex c) (getOverlayOpacity c) mc).
  split; [|split; assumption].
  unfold applyVisibleFrame. rewrite Hmc.
  destruct (length (radarFrames c) =? 0)%nat; [reflexivity|].
  destruct (radarFrames c !! frameIndex c); reflexivity.
Qed.

Lemma applyVisibleFrame_one_visible_witness :
  exists mc' : MapController.t,
    mapController (cardOf (applyVisibleFrame (sampleCard [frameA; frameB] 1)))
    = Some mc'
    /\ MapController.opacity
         <$> MapController.radarTileLayers mc' !! id frameB = Some 1%Q
    /\ MapController.opacity
         <$> MapController.radarTileLayers mc' !! id frameA = Some 0%Q.
Proof.
  destruct (applyVisibleFrame_one_visible (sampleCard [frameA; frameB] 1)
              (default {| MapController.radarTileLayers := ∅ |}
                 (mapController (sampleCard [frameA; frameB] 1))) eq_refl)
    as (mc' & Hmc' & Hin & _).
  - match goal with |- ?P => apply (bool_decide_unpack P) end.
    vm_compute. exact I.
  - exists mc'. split; [exact Hmc'|].
    rewrite (Hin 1%nat (id frameB) eq_refl), (Hin 0%nat (id frameA) eq_refl).
    split; vm_compute; reflexivity.
Defined.

End WindowInvariant.

(** ** The RainViewer card: a poll that succeeds *)

Section SuccessfulPoll.
Import RadarSource RasterCard.

(** The fields a change of the window leaves alone. *)
Definition sameSettings (c c' : Card) : Prop :=
  _config c' = _config c
  /\ snapshotTimer c' = snapshotTimer c
  /\ frameTimer c' = frameTimer c
  /\ retryCount c' = retryCount c
  /\ radarHost c' = radarHost c.

Lemma sameSettings_refl (c : Card) : sameSettings c c.
Proof. repeat split. Qed.

Lemma sameSettings_trans (a b c : Card) :
  sameSettings a b -> sameSettings b c -> sameSettings a c.
Proof.
  intros (H1 & H2 & H3 & H4 & H5) (K1 & K2 & K3 & K4 & K5).
  repeat split; congruence.
Qed.

Lemma addFrame_settings (f : RadarFrame) (c : Card) :
  sameSettings c (addFrame f c).
Proof.
  unfold addFrame. destruct (mapController c); repeat split.
Qed.

Lemma addFrames_settings (l : list RadarFrame) :
  forall c : Card, sameSettings c (addFrames l c).
Proof.
  induction l as [|f l IH]; intros c; [apply sameSettings_refl|].
  change (addFrames (f :: l) c) with (addFrames l (addFrame f c)).
  eapply sameSettings_trans; [apply addFrame_settings | apply IH].
Qed.

Lemma evictOne_settings (c : Card) : sameSettings c (evictOne c).
Proof.
  unfold evictOne.
  destruct (head (radarFrames c)); [destruct (0 <? _)%nat|]; repeat split.
Qed.

Lemma evictOne_n_settings (k : nat) (c : Card) :
  sameSettings c (Nat.iter k evictOne c).
Proof.
  induction k as [|k IH]; [apply sameSettings_refl|].
  rewrite Nat.iter_succ.
  eapply sameSettings_trans; [exact IH | apply evictOne_settings].
Qed.

Lemma mergeNewFrames_settings (allFrames : list RadarFrame) (frameCount : nat)
    (c : Card) :
  sameSettings c (mergeNewFrames allFrames frameCount c).
Proof.
  unfold mergeNewFrames.
  destruct (length _ =? 0)%nat; [apply sameSettings_refl|].
  rewrite evictWhileOver_turns.
  eapply sameSettings_trans; [apply addFrames_settings|].
  eapply sameSettings_trans; [apply evictOne_n_settings|].
  repeat split.
Qed.

Lemma replaceFrames_fields (frames : list RadarFrame) (c : Card)
    (mc : MapController.t) :
  mapController c = Some mc ->
  radarFrames (replaceFrames frames c) = frames
  /\ layerIds (replaceFrames frames c) = map id frames
  /\ frameIndex (replaceFrames frames c) = (length frames - 1)%nat
  /\ (exists mc', mapController (replaceFrames frames c) = Some mc')
  /\ sameSettings c (replaceFrames frames c).
Proof.
  intros Hmc. unfold replaceFrames. rewrite Hmc.
  set (c1 := with_frames c [] [] _).
  destruct (addFrames_fields frames c1 _ eq_refl) as (Hf & Hl & _ & Hm).
  cbn [radarFrames layerIds frameIndex mapController with_frameIndex].
  cbn in Hf, Hl. rewrite Hf, Hl.
  split; [reflexivity|]. split; [reflexivity|]. split.
  { unfold lastIndex. rewrite Hf.
    destruct (0 <? length frames)%nat eqn:E; [reflexivity|].
    apply Nat.ltb_ge in E. lia. }
  split; [exact Hm|].
  eapply sameSettings_trans; [|eapply sameSettings_trans;
                                 [apply (addFrames_settings frames c1)|]];
    repeat split.
Qed.

Lemma applyVisibleFrame_keeps (c : Card) :
  let c' := cardOf (applyVisibleFrame c) in
  radarFrames c' = radarFrames c
  /\ layerIds c' = layerIds c
  /\ frameIndex c' = frameIndex c
  /\ sameSettings c c'.
Proof.
  unfold applyVisibleFrame.
  destruct (mapController c); [|repeat split].
  destruct (length (radarFrames c) =? 0)%nat; [repeat split|].
  destruct (radarFrames c !! frameIndex c); repeat split.
Qed.

Lemma applyVisibleFrame_completes (c : Card) :
  (radarFrames c <> [] -> (frameIndex c < length (radarFrames c))%nat) ->
  applyVisibleFrame c = Normal (cardOf (applyVisibleFrame c)).
Proof.
  intros Hidx. unfold applyVisibleFrame.
  destruct (mapController c); [|reflexivity].
  destruct (length (radarFrames c) =? 0)%nat eqn:E; [reflexivity|].
  apply Nat.eqb_neq in E.
  assert (Hne : radarFrames c <> []) by (destruct (radarFrames c); cbn in *; congruence).
  destruct (lookup_lt_is_Some_2 (radarFrames c) (frameIndex c) (Hidx Hne))
    as [f Hf].
  rewrite Hf. reflexivity.
Qed.

Lemma mapFrames_length (raw : list RainviewerFrame) :
  forall frames : list RadarFrame,
    mapFrames raw = Js.Return frames -> length frames = length raw.
Proof.
  induction raw as [|f r IH]; intros frames H; cbn in H.
  - injection H as <-. reflexivity.
  - destruct (toRadarFrame f); [|discriminate].
    destruct (mapFrames r) as [xs|]; [|discriminate].
    injection H as <-. cbn. rewrite (IH xs eq_refl). reflexivity.
Qed.

Lemma fetchRadarSnapshot_nonempty (fetched : option Response)
    (snapshot : RadarSnapshot) :
  fetchRadarSnapshot fetched = Js.Return snapshot -> frames snapshot <> [].
Proof.
  unfold fetchRadarSnapshot. intros H.
  destruct fetched as [r|]; [|discriminate].
  destruct (negb (ok r)); [discriminate|].
  destruct (json r) as [data|]; [|discriminate].
  destruct (length _ =? 0)%nat; [discriminate|].
  destruct (mapFrames _) as [fs|]; [|discriminate].
  destruct (last fs) as [f|] eqn:E; [|discriminate].
  injection H as <-. cbn. intros ->. discriminate.
Qed.

Lemma setRadarLayer_keeps (lid url : string) (m : MapController.t)
    (x : string) :
  is_Some (MapController.radarTileLayers m !! x) ->
  is_Some (MapController.radarTileLayers (MapController.setRadarLayer lid url m) !! x).
Proof.
  intros Hx. unfold MapController.setRadarLayer.
  destruct (MapController.radarTileLayers m !! lid) eqn:E; [exact Hx|].
  cbn [MapController.radarTileLayers].
  destruct (decide (lid = x)) as [->|Hne].
  - rewrite lookup_insert_eq. eauto.
  - rewrite lookup_insert_ne by exact Hne. exact Hx.
Qed.

Lemma setRadarLayer_present (lid url : string) (m : MapController.t) :
  is_Some (MapController.radarTileLayers (MapController.setRadarLayer lid url m) !! lid).
Proof.
  unfold MapController.setRadarLayer.
  destruct (MapController.radarTileLayers m !! lid) eqn:E; [rewrite E; eauto|].
  cbn [MapController.radarTileLayers]. rewrite lookup_insert_eq. eauto.
Qed.

(** Every frame [addFrames] appends has a layer on the map afterwards. *)
Lemma addFrames_layers (l : list RadarFrame) :
  forall (c : Card) (mc : MapController.t),
    mapController c = Some mc ->
    exists mc' : MapController.t,
      mapController (addFrames l c) = Some mc'
      /\ (forall x : string,
             is_Some (MapController.radarTileLayers mc !! x) ->
             is_Some (MapController.radarTileLayers mc' !! x))
      /\ (forall f : RadarFrame,
             In f l -> is_Some (MapController.radarTileLayers mc' !! id f)).
Proof.
  induction l as [|f l IH]; intros c mc Hmc.
  - exists mc. split; [exact Hmc|]. split; [auto | intros f []].
  - change (addFrames (f :: l) c) with (addFrames l (addFrame f c)).
    set (mc1 := MapController.setRadarLayer (id f)
                  (buildRadarTileUrl (radarHost c) (path f)) mc).
    assert (Hmc1 : mapController (addFrame f c) = Some mc1).
    { unfold addFrame. rewrite Hmc. reflexivity. }
    destruct (IH _ _ Hmc1) as (mc' & Hmc' & Hkeep & Hnew).
    exists mc'. split; [exact Hmc'|]. split.
    + intros x Hx. apply Hkeep, setRadarLayer_keeps, Hx.
    + intros g [<-|Hg]; [|apply Hnew, Hg].
      apply Hkeep, setRadarLayer_present.
Qed.

Lemma replaceFrames_layers (frames : list RadarFrame) (c : Card)
    (mc : MapController.t) :
  mapController c = Some mc ->
  exists mc' : MapController.t,
    mapController (replaceFrames frames c) = Some mc'
    /\ forall f : RadarFrame,
         In f frames -> is_Some (MapController.radarTileLayers mc' !! id f).
Proof.
  intros Hmc. unfold replaceFrames. rewrite Hmc.
  set (c1 := with_frames c [] [] _).
  destruct (addFrames_layers frames c1 _ eq_refl) as (mc' & Hmc' & _ & Hnew).
  exists mc'. split; [exact Hmc' | exact Hnew].
Qed.

Lemma applyVisibleFrame_map (c : Card) (mc : MapController.t) :
  mapController c = Some mc ->
  mapController (cardOf (applyVisibleFrame c))
  = Some (setOpacities (layerIds c) 0 (frameIndex c) (getOverlayOpacity c) mc).
Proof.
  intros Hmc. unfold applyVisibleFrame. rewrite Hmc.
  destruct (length (radarFrames c) =? 0)%nat; [reflexivity|].
  destruct (radarFrames c !! frameIndex c); reflexivity.
Qed.

Lemma getOverlayOpacity_config (c c' : Card) :
  _config c' = _config c -> getOverlayOpacity c' = getOverlayOpacity c.
Proof. unfold getOverlayOpacity. intros ->. reflexivity. Qed.

(** X17: a poll that succeeds on a mounted card whose window is in good
    order leaves a non-empty window in good order, sets the retry counter
    back to zero, adopts the host of the manifest, arms the next poll at
    [getNextSnapshotDelayMs (latestTimeMs, now)] and restarts playback with
    [restart_delay] (1000 when absent) exactly when there are at least two
    frames.  On the first poll, on a reset, or when the window was empty,
    the window becomes the most recent [frame_count] (7 when absent) frames
    of the manifest with the newest shown: when the manifest's ids are
    pairwise distinct, the layer of the newest frame has the overlay
    opacity and the layer of every other frame of the window opacity 0. *)
Theorem successful_poll (resetFrames : bool) (fetched : option Response)
    (nowMs : Z) (c : Card) (cfg : Config) (mc : MapController.t)
    (snapshot : RadarSnapshot) :
  _config c = Some cfg ->
  mapController c = Some mc ->
  fetchRadarSnapshot fetched = Js.Return snapshot ->
  let capacity := default 7%nat (frame_count cfg) in
  (1 <= capacity)%nat ->
  windowOk capacity c ->
  let c' := refreshRadarSnapshot resetFrames fetched nowMs c in
  windowOk capacity c'
  /\ radarFrames c' <> []
  /\ retryCount c' = 0%nat
  /\ radarHost c' = host snapshot
  /\ snapshotTimer c'
     = Some {| delayMs := getNextSnapshotDelayMs (latestTimeMs snapshot) nowMs;
               callback := RefreshSnapshot; pending := true |}
  /\ frameTimer c'
     = (if (length (radarFrames c') <=? 1)%nat then None
        else Some {| delayMs := default 1000 (restart_delay cfg);
                     callback := AdvanceFrame; pending := true |})
  /\ (resetFrames = true \/ radarFrames c = [] ->
      radarFrames c' = Spec.mostRecent capacity (frames snapshot)
      /\ frameIndex c' = (length (radarFrames c') - 1)%nat
      /\ (NoDup (map id (frames snapshot)) ->
          exists mc' : MapController.t,
            mapController c' = Some mc'
            /\ forall (k : nat) (f : RadarFrame),
                 radarFrames c' !! k = Some f ->
                 MapController.opacity
                   <$> MapController.radarTileLayers mc' !! id f
                 = Some (if (k =? length (radarFrames c') - 1)%nat
                         then getOverlayOpacity c else 0%Q))).
Proof.
  intros Hcfg Hmc Hfetch capacity Hcap Hok c'. subst c'.
  unfold refreshRadarSnapshot. rewrite Hcfg, Hmc, Hfetch.
  set (c1 := with_retries_and_host c 0 (host snapshot)).
  assert (Hcap1 : frameCountOr7 c1 = capacity).
  { unfold frameCountOr7. cbn [c1 with_retries_and_host _config].
    rewrite Hcfg. reflexivity. }
  rewrite Hcap1. set (cap := capacity) in *.
  pose proof (fetchRadarSnapshot_nonempty fetched snapshot Hfetch) as Hne.
  assert (Hslice : Js.slice_from (- Z.of_nat cap) (frames snapshot)
                   = Spec.mostRecent cap (frames snapshot)).
  { unfold Js.slice_from, Spec.mostRecent.
    destruct (Z.ltb_spec (- Z.of_nat cap) 0); [|lia]. f_equal. lia. }
  assert (Hrecent : Spec.mostRecent cap (frames snapshot) <> []
                    /\ (length (Spec.mostRecent cap (frames snapshot)) <= cap)%nat).
  { unfold Spec.mostRecent. split.
    - intros E. apply (f_equal length) in E. rewrite length_drop in E.
      destruct (frames snapshot); [congruence | cbn in E; lia].
    - rewrite length_drop. lia. }
  set (c2 := if resetFrames || (length (radarFrames c1) =? 0)%nat
             then replaceFrames
                    (Js.slice_from (- Z.of_nat cap) (frames snapshot)) c1
             else mergeNewFrames (frames snapshot) cap c1).
  assert (H2 : windowOk cap c2 /\ radarFrames c2 <> []
               /\ sameSettings c1 c2
               /\ (resetFrames = true \/ radarFrames c = [] ->
                   radarFrames c2 = Spec.mostRecent cap (frames snapshot)
                   /\ frameIndex c2 = (length (radarFrames c2) - 1)%nat
                   /\ exists mc2 : MapController.t,
                        mapController c2 = Some mc2
                        /\ forall f : RadarFrame,
                             In f (radarFrames c2) ->
                             is_Some (MapController.radarTileLayers mc2
                                        !! id f))).
  { subst c2.
    destruct (resetFrames || (length (radarFrames c1) =? 0)%nat) eqn:Hb.
    - destruct (replaceFrames_fields
                  (Js.slice_from (- Z.of_nat cap) (frames snapshot)) c1 mc Hmc)
        as (Hf & Hl & Hi & _ & Hs).
      destruct (replaceFrames_layers
                  (Js.slice_from (- Z.of_nat cap) (frames snapshot)) c1 mc Hmc)
        as (mc2 & Hmc2 & Hlayers).
      rewrite Hslice in *.
      split; [|split; [rewrite Hf; apply Hrecent|
                       split; [exact Hs|]]].
      + unfold windowOk. rewrite Hf, Hl, Hi.
        split; [reflexivity|]. split; [apply Hrecent|].
        intros Hn. destruct (Spec.mostRecent cap (frames snapshot));
          [congruence | cbn; lia].
      + intros _. rewrite Hf. split; [reflexivity|]. split; [exact Hi|].
        exists mc2. split; [exact Hmc2 | exact Hlayers].
    - apply orb_false_iff in Hb. destruct Hb as [Hr He].
      apply Nat.eqb_neq in He. cbn in He.
      assert (Hnonempty : radarFrames c <> [])
        by (destruct (radarFrames c); cbn in *; congruence).
      destruct (mergeNewFrames_windowOk (frames snapshot) cap c1 mc Hmc Hok)
        as (Hw & _).
      split; [exact Hw|]. split.
      + unfold mergeNewFrames.
        destruct (length (framesToAdd (frames snapshot) cap c1) =? 0)%nat
          eqn:E; [exact Hnonempty|].
        apply Nat.eqb_neq in E.
        set (toAdd := framesToAdd (frames snapshot) cap c1) in *.
        destruct (addFrames_fields toAdd c1 mc Hmc) as (Hf1 & _).
        rewrite evictWhileOver_turns.
        destruct (evictOne_n_fields
                    (length (radarFrames (addFrames toAdd c1)) - cap)
                    (addFrames toAdd c1)) as (Hf2 & _); [lia|].
        cbn [radarFrames with_frameIndex]. rewrite Hf2. intros E2.
        apply (f_equal length) in E2. rewrite length_drop, Hf1, length_app in E2.
        cbn in E2. lia.
      + split; [apply mergeNewFrames_settings|].
        intros [Hreset | Hempty]; congruence. }
  destruct H2 as (Hw2 & Hne2 & Hs2 & Hreset2).
  destruct Hw2 as (Hids2 & Hlen2 & Hidx2).
  rewrite (applyVisibleFrame_completes c2 Hidx2).
  destruct (applyVisibleFrame_keeps c2) as (Hf3 & Hl3 & Hi3 & Hs3).
  assert (Hshown :
            resetFrames = true \/ radarFrames c = [] ->
            NoDup (map id (frames snapshot)) ->
            exists mc' : MapController.t,
              mapController (cardOf (applyVisibleFrame c2)) = Some mc'
              /\ forall (k : nat) (f : RadarFrame),
                   radarFrames c2 !! k = Some f ->
                   MapController.opacity
                     <$> MapController.radarTileLayers mc' !! id f
                   = Some (if (k =? length (radarFrames c2) - 1)%nat
                           then getOverlayOpacity c else 0%Q)).
  { intros Hcase Hnd.
    destruct (Hreset2 Hcase) as (Hf2 & Hi2 & mc2 & Hmc2 & Hlayers).
    assert (Hnd2 : NoDup (layerIds c2)).
    { rewrite Hids2, Hf2. unfold Spec.mostRecent.
      rewrite <- skipn_map.
      eapply sublist_NoDup; [exact Hnd | apply sublist_drop]. }
    destruct (setOpacities_lookup (layerIds c2) 0 (frameIndex c2)
                (getOverlayOpacity c2) mc2 Hnd2) as (Hin & _).
    eexists. split; [apply applyVisibleFrame_map; exact Hmc2|].
    intros k f Hk.
    assert (Hlid : layerIds c2 !! k = Some (id f)).
    { rewrite Hids2, list_lookup_fmap, Hk. reflexivity. }
    rewrite (Hin k (id f) Hlid).
    destruct (Hlayers f) as [layer Hlayer].
    { apply list_elem_of_In. eapply list_elem_of_lookup_2. exact Hk. }
    rewrite Hlayer. cbn. rewrite Hi2.
    rewrite (getOverlayOpacity_config c c2); [reflexivity|].
    destruct Hs2 as (S1 & _). rewrite S1. reflexivity. }
  set (c3 := cardOf (applyVisibleFrame c2)) in *.
  destruct Hs2 as (S1 & S2 & S3 & S4 & S5).
  destruct Hs3 as (T1 & T2 & T3 & T4 & T5).
  unfold scheduleNextFrame, scheduleNextSnapshot, restartDelayOr1000.
  cbn [_config with_snapshotTimer with_frameTimer radarFrames].
  rewrite T1, S1. cbn [_config c1 with_retries_and_host]. rewrite Hcfg, Hf3.
  assert (Hreset3 :
            resetFrames = true \/ radarFrames c = [] ->
            radarFrames c2 = Spec.mostRecent cap (frames snapshot)
            /\ frameIndex c2 = (length (radarFrames c2) - 1)%nat
            /\ (NoDup (map id (frames snapshot)) ->
                exists mc' : MapController.t,
                  mapController c3 = Some mc'
                  /\ forall (k : nat) (f : RadarFrame),
                       radarFrames c2 !! k = Some f ->
                       MapController.opacity
                         <$> MapController.radarTileLayers mc' !! id f
                       = Some (if (k =? length (radarFrames c2) - 1)%nat
                               then getOverlayOpacity c else 0%Q))).
  { intros Hcase. destruct (Hreset2 Hcase) as (Hf2 & Hi2 & _).
    split; [exact Hf2|]. split; [exact Hi2|]. apply Hshown, Hcase. }
  clear Hreset2 Hshown.
  destruct (length (radarFrames c2) <=? 1)%nat eqn:E1;
    cbn [radarFrames layerIds frameIndex retryCount radarHost snapshotTimer
         frameTimer mapController with_snapshotTimer with_frameTimer windowOk];
    unfold windowOk;
    cbn [radarFrames layerIds frameIndex retryCount radarHost snapshotTimer
         frameTimer mapController with_snapshotTimer with_frameTimer];
    rewrite ?Hf3, ?Hl3, ?Hi3, ?T4, ?S4, ?T5, ?S5, ?E1;
    (split; [split; [exact Hids2 | split; [exact Hlen2 | exact Hidx2]]|]);
    (split; [exact Hne2|]); (split; [reflexivity|]); (split; [reflexivity|]);
    (split; [reflexivity|]); (split; [reflexivity|]); exact Hreset3.
Qed.

Definition sampleManifest : Response :=
  {| ok := true; status := 200;
     json :=
       Some {| rv_host := Some "https://tilecache.rainviewer.com";
               radar :=
                 Some {| past :=
                           Some [ {| time := 1771143600;
                                     rv_path := "/v2/radar/1771143600" |};
                                  {| time := 1771144200;
                                     rv_path := "/v2/radar/1771144200" |};
                                  {| time := 1771144800;
                                     rv_path := "/v2/radar/1771144800" |};
                                  {| time := 1771145400;
                                     rv_path := "/v2/radar/1771145400" |} ]
                      |} |} |}.

(** What [fetchRadarSnapshot] makes of [sampleManifest]. *)
Definition sampleSnapshot : RadarSnapshot :=
  Eval vm_compute in
    match fetchRadarSnapshot (Some sampleManifest) with
    | Js.Return snapshot => snapshot
    | Js.Throw => {| host := ""; frames := []; latestTimeMs := 0 |}
    end.

Lemma successful_poll_witness :
  let c' :=
    refreshRadarSnapshot true (Some sampleManifest) 1771145460000
      (tunedCard [frameA] 0) in
  retryCount c' = 0%nat
  /\ option_map delayMs (snapshotTimer c') = Some 555000
  /\ length (radarFrames c') = 3%nat
  /\ option_map delayMs (frameTimer c') = Some 2000
  /\ exists mc' : MapController.t,
       mapController c' = Some mc'
       /\ MapController.opacity
            <$> MapController.radarTileLayers mc' !! "2026-02-15T08:50:00.000Z"
          = Some (getOverlayOpacity (tunedCard [frameA] 0))
       /\ MapController.opacity
            <$> MapController.radarTileLayers mc' !! "2026-02-15T08:40:00.000Z"
          = Some 0%Q.
Proof.
  intros c'.
  destruct (successful_poll true (Some sampleManifest) 1771145460000
              (tunedCard [frameA] 0) tunedConfig
              (default {| MapController.radarTileLayers := ∅ |}
                 (mapController (tunedCard [frameA] 0)))
              sampleSnapshot eq_refl eq_refl)
    as (_ & _ & Hretry & _ & Htimer & Hframe & Hreset).
  - vm_compute. reflexivity.
  - cbn. lia.
  - split; [reflexivity|]. split; cbn; lia.
  - fold c' in Hretry, Htimer, Hframe, Hreset.
    destruct (Hreset (or_introl eq_refl)) as (Hwindow & _ & Hshown).
    assert (Hlen : length (radarFrames c') = 3%nat)
      by (rewrite Hwindow; reflexivity).
    split; [exact Hretry|]. split; [rewrite Htimer; reflexivity|].
    split; [exact Hlen|].
    split; [rewrite Hframe, Hlen; reflexivity|].
    destruct Hshown as (mc' & Hmc' & Hop).
    { match goal with |- ?P => apply (bool_decide_unpack P) end.
      vm_compute. exact I. }
    exists mc'. split; [exact Hmc'|].
    rewrite Hlen, Hwindow in Hop.
    split; [exact (Hop 2%nat _ eq_refl) | exact (Hop 1%nat _ eq_refl)].
Defined.

End SuccessfulPoll.

(** ** The RainViewer manifest and the playback cycle *)

Section ManifestAndCycle.
Import RadarSource RasterCard.

Lemma mapFrames_lookup (raw : list RainviewerFrame) :
  forall (frames : list RadarFrame) (i : nat) (f : RainviewerFrame),
    mapFrames raw = Js.Return frames ->
    raw !! i = Some f ->
    exists fr : RadarFrame,
      frames !! i = Some fr
      /\ toRadarFrame f = Js.Return fr.
Proof.
  induction raw as [|g r IH]; intros frames i f H Hi; [discriminate|].
  cbn in H. destruct (toRadarFrame g) as [x|] eqn:Hx; [|discriminate].
  destruct (mapFrames r) as [xs|] eqn:Hxs; [|discriminate].
  injection H as <-. destruct i as [|i].
  - cbn in Hi. injection Hi as <-. exists x. auto.
  - cbn in Hi. destruct (IH xs i f eq_refl Hi) as (fr & Hfr & Hto).
    exists fr. auto.
Qed.

Lemma toRadarFrame_fields (f : RainviewerFrame) (fr : RadarFrame) :
  toRadarFrame f = Js.Return fr ->
  timeMs fr = time f * 1000
  /\ path fr = rv_path f
  /\ id fr = timestampIso fr
  /\ JsDate.toISOString (Some (time f * 1000)) = Js.Return (id fr)
  /\ Z.abs (time f * 1000) <= JsDate.maxTime.
Proof.
  unfold toRadarFrame, JsDate.mkDate. intros H.
  destruct (Z.leb_spec (Z.abs (time f * 1000)) JsDate.maxTime) as [Hle|Hgt].
  - destruct (JsDate.toISOString (Some (time f * 1000))) as [iso|] eqn:E;
      [|discriminate].
    injection H as <-. cbn. auto.
  - cbn in H. discriminate.
Qed.

(** X18: when [fetchRadarSnapshot] resolves, the response was [ok], its
    manifest listed at least one frame, and the snapshot holds one frame
    per listed frame, in the same order: [timeMs] is the listed time in
    milliseconds, the path is the listed path, the id is the ISO timestamp
    of that time, which lies in the range of [Date]; [latestTimeMs] is the
    time of the last listed frame and the host defaults to the public tile
    cache. *)
Theorem fetchRadarSnapshot_resolves (fetched : option Response)
    (snapshot : RadarSnapshot) :
  fetchRadarSnapshot fetched = Js.Return snapshot ->
  exists (response : Response) (data : RainviewerApiResponse)
         (raw : list RainviewerFrame) (newest : RainviewerFrame),
    fetched = Some response
    /\ ok response = true
    /\ json response = Some data
    /\ radar data = Some {| past := Some raw |}
    /\ last raw = Some newest
    /\ host snapshot = default RAINVIEWER_DEFAULT_HOST (rv_host data)
    /\ latestTimeMs snapshot = time newest * 1000
    /\ length (frames snapshot) = length raw
    /\ forall (i : nat) (f : RainviewerFrame),
         raw !! i = Some f ->
         exists fr : RadarFrame,
           frames snapshot !! i = Some fr
           /\ timeMs fr = time f * 1000
           /\ path fr = rv_path f
           /\ id fr = timestampIso fr
           /\ JsDate.toISOString (Some (time f * 1000)) = Js.Return (id fr)
           /\ Z.abs (time f * 1000) <= JsDate.maxTime.
Proof.
  unfold fetchRadarSnapshot. intros H.
  destruct fetched as [r|]; [|discriminate].
  destruct (ok r) eqn:Hok; [|discriminate]. cbn [negb] in H.
  destruct (json r) as [data|] eqn:Hjson; [|discriminate].
  destruct (radar data) as [[[raw|]]|] eqn:Hradar;
    cbn [default past from_option Datatypes.id length Nat.eqb] in H;
    try discriminate.
  destruct (length raw =? 0)%nat eqn:Hlen; [discriminate|].
  destruct (mapFrames raw) as [fs|] eqn:Hmap; [|discriminate].
  destruct (last fs) as [lf|] eqn:Hlast; [|discriminate].
  injection H as <-. cbn [host frames latestTimeMs].
  pose proof (mapFrames_length raw fs Hmap) as Hl.
  assert (Hnewest : exists newest, last raw = Some newest).
  { destruct (last raw) eqn:E; [eauto|].
    apply last_None in E. subst raw. discriminate. }
  destruct Hnewest as (newest & Hnewest).
  exists r, data, raw, newest.
  repeat (split; [reflexivity || assumption|]).
  split.
  - rewrite last_lookup in Hnewest. rewrite last_lookup in Hlast.
    destruct (mapFrames_lookup raw fs _ newest Hmap Hnewest) as (fr & Hfr & Hto).
    rewrite <- Hl, Hlast in Hfr. injection Hfr as ->.
    apply toRadarFrame_fields in Hto. apply Hto.
  - split; [exact Hl|].
    intros i f Hi.
    destruct (mapFrames_lookup raw fs i f Hmap Hi) as (fr & Hfr & Hto).
    exists fr. split; [exact Hfr|]. apply toRadarFrame_fields. exact Hto.
Qed.

Lemma fetchRadarSnapshot_resolves_witness :
  exists snapshot : RadarSnapshot,
    fetchRadarSnapshot (Some sampleManifest) = Js.Return snapshot
    /\ latestTimeMs snapshot = 1771145400000
    /\ length (frames snapshot) = 4%nat.
Proof.
  destruct (fetchRadarSnapshot (Some sampleManifest)) as [snapshot|] eqn:E;
    [|vm_compute in E; discriminate].
  exists snapshot. split; [reflexivity|].
  destruct (fetchRadarSnapshot_resolves (Some sampleManifest) snapshot E)
    as (r & data & raw & newest & Hr & _ & Hj & Hrad & Hlast & _ & Hlatest
        & Hlen & _).
  injection Hr as <-.
  unfold sampleManifest in Hj. cbn [json] in Hj. injection Hj as <-.
  cbn [radar] in Hrad. injection Hrad as <-.
  cbn [last] in Hlast. injection Hlast as <-.
  split; [exact Hlatest | exact Hlen].
Defined.

(** [k] fires of the playback timer in a row. *)
Fixpoint fireTimes (k : nat) (c : Card) : completion :=
  match k with
  | O => Normal c
  | S k' =>
      match fireFrameTimer c with
      | Normal c' => fireTimes k' c'
      | Abrupt c' => Abrupt c'
      end
  end.

Lemma fireTimes_index (k : nat) :
  forall (c : Card) (cfg : Config) (tm : Timer),
    _config c = Some cfg ->
    armed (frameTimer c) = Some tm ->
    (2 <= length (radarFrames c))%nat ->
    (frameIndex c < length (radarFrames c))%nat ->
    exists c' : Card,
      fireTimes k c = Normal c'
      /\ radarFrames c' = radarFrames c
      /\ frameIndex c' = ((frameIndex c + k) mod length (radarFrames c))%nat.
Proof.
  induction k as [|k IH]; intros c cfg tm Hcfg Harmed Hlen Hidx.
  - exists c. rewrite Nat.add_0_r, Nat.mod_small by exact Hidx. auto.
  - destruct (fireFrameTimer_step c cfg tm Hcfg Harmed)
      as (c1 & Hfire & Hf1 & Hc1 & Hstep & _).
    destruct (Hstep Hlen) as (Hi1 & Ht1).
    cbn [fireTimes]. rewrite Hfire.
    destruct (IH c1 cfg _ Hc1 Ht1) as (c' & Hk & Hf & Hi).
    + rewrite Hf1. exact Hlen.
    + rewrite Hf1, Hi1. apply Nat.mod_upper_bound. lia.
    + exists c'. split; [exact Hk|]. split; [congruence|].
      rewrite Hi, Hf1, Hi1.
      rewrite Nat.Div0.add_mod_idemp_l. f_equal. lia.
Qed.

(** X19: on a configured card with an armed playback timer and at least
    two frames, [k] fires in a row all complete, never touch the frames and
    move the visible index to [(index + k) mod length]; so a number of fires
    equal to the length shows every frame once and comes back to the
    start. *)
Theorem playback_cycle (c : Card) (cfg : Config) (tm : Timer) (k : nat) :
  _config c = Some cfg ->
  armed (frameTimer c) = Some tm ->
  (2 <= length (radarFrames c))%nat ->
  (frameIndex c < length (radarFrames c))%nat ->
  (exists c' : Card,
      fireTimes k c = Normal c'
      /\ radarFrames c' = radarFrames c
      /\ frameIndex c' = ((frameIndex c + k) mod length (radarFrames c))%nat)
  /\ exists c'' : Card,
       fireTimes (length (radarFrames c)) c = Normal c''
       /\ frameIndex c'' = frameIndex c.
Proof.
  intros Hcfg Harmed Hlen Hidx. split.
  - exact (fireTimes_index k c cfg tm Hcfg Harmed Hlen Hidx).
  - destruct (fireTimes_index (length (radarFrames c)) c cfg tm
                Hcfg Harmed Hlen Hidx) as (c'' & Hk & _ & Hi).
    exists c''. split; [exact Hk|]. rewrite Hi.
    rewrite <- (Nat.mul_1_l (length (radarFrames c))) at 1.
    rewrite Nat.Div0.mod_add. apply Nat.mod_small. exact Hidx.
Qed.

Lemma playback_cycle_witness :
  exists c'' : Card,
    fireTimes 3 (sampleCard [frameA; frameB; frameC] 1) = Normal c''
    /\ frameIndex c'' = 1%nat.
Proof.
  exact (proj2 (playback_cycle (sampleCard [frameA; frameB; frameC] 1)
                  sampleConfig
                  {| delayMs := 250; callback := AdvanceFrame; pending := true |}
                  0 eq_refl eq_refl (le_S _ _ (le_n 2)) (le_S _ _ (le_n 2)))).
Defined.

End ManifestAndCycle.

(** ** Normalizing a normalized configuration; the stub configuration *)

Section ConfigRoundTrip.
Import Config.

(** A string that does not start with white space. *)
Definition startsClean (s : Js.utf16) : Prop :=
  match s with
  | [] => True
  | c :: _ => Js.is_space c = false
  end.

Lemma trimStart_startsClean (s : Js.utf16) : startsClean (Js.trimStart s).
Proof.
  induction s as [|c r IH]; cbn; [exact I|].
  destruct (Js.is_space c) eqn:E; [exact IH | exact E].
Qed.

Lemma trimStart_of_startsClean (s : Js.utf16) :
  startsClean s -> Js.trimStart s = s.
Proof.
  destruct s as [|c r]; cbn; [reflexivity|]. intros ->. reflexivity.
Qed.

Lemma trimEnd_startsClean (s : Js.utf16) :
  startsClean s -> startsClean (Js.trimEnd s).
Proof.
  destruct s as [|c r]; cbn; [trivial|]. intros E. rewrite E.
  destruct (Js.trimEnd r); exact E.
Qed.

Lemma trimEnd_cons (c : N) (r : Js.utf16) :
  Js.trimEnd (c :: r)
  = match Js.trimEnd r with
    | [] => if Js.is_space c then [] else [c]
    | r' => c :: r'
    end.
Proof. reflexivity. Qed.

Lemma trimEnd_idempotent (s : Js.utf16) :
  Js.trimEnd (Js.trimEnd s) = Js.trimEnd s.
Proof.
  induction s as [|c r IH]; [reflexivity|].
  rewrite (trimEnd_cons c r). destruct (Js.trimEnd r) as [|d r'] eqn:E.
  - destruct (Js.is_space c) eqn:Hc; [reflexivity|].
    rewrite trimEnd_cons. cbn [Js.trimEnd]. rewrite Hc. reflexivity.
  - rewrite trimEnd_cons, IH. reflexivity.
Qed.

Lemma trim_idempotent (s : Js.utf16) : Js.trim (Js.trim s) = Js.trim s.
Proof.
  unfold Js.trim.
  rewrite (trimStart_of_startsClean (Js.trimEnd (Js.trimStart s))).
  - apply trimEnd_idempotent.
  - apply trimEnd_startsClean, trimStart_startsClean.
Qed.

(** [clamp] returns one of its three arguments. *)
Lemma clamp_cases (v lo hi : Q) :
  clamp v lo hi = v \/ clamp v lo hi = lo \/ clamp v lo hi = hi.
Proof.
  unfold clamp, Qmin, Qmax, GenericMinMax.gmin, GenericMinMax.gmax.
  destruct (lo ?= v)%Q; destruct (hi ?= _)%Q; auto.
Qed.

Lemma clamp_fixed (v lo hi : Q) :
  (lo < hi)%Q -> clamp (clamp v lo hi) lo hi = clamp v lo hi.
Proof.
  intros Hlt.
  assert (Hrefl : forall q : Q, (q ?= q)%Q = Eq)
    by (intros q; apply Qeq_alt; reflexivity).
  assert (Hlohi : (lo ?= hi)%Q = Lt) by (apply Qlt_alt; exact Hlt).
  assert (Hhilo : (hi ?= lo)%Q = Gt) by (apply Qgt_alt; exact Hlt).
  unfold clamp, Qmin, Qmax, GenericMinMax.gmin, GenericMinMax.gmax.
  destruct (lo ?= v)%Q eqn:E1.
  - rewrite Hhilo, Hrefl, Hhilo. reflexivity.
  - destruct (hi ?= v)%Q eqn:E2.
    + rewrite Hlohi, Hrefl. reflexivity.
    + rewrite Hlohi, Hrefl. reflexivity.
    + rewrite E1, E2. reflexivity.
  - rewrite Hhilo, Hrefl, Hhilo. reflexivity.
Qed.

Lemma rounded_inject_Z (z : Z) : rounded (inject_Z z) = inject_Z z.
Proof.
  unfold rounded, Js.round. f_equal.
  rewrite (Qfloor_comp _ ((1 # 2) + inject_Z z)) by ring.
  rewrite Qfloor_add_Z. reflexivity.
Qed.

Lemma roundedClamp_fixed (v : Q) (lo hi : Z) :
  lo < hi ->
  let out := clamp (rounded v) (inject_Z lo) (inject_Z hi) in
  clamp (rounded out) (inject_Z lo) (inject_Z hi) = out.
Proof.
  intros Hlt out.
  assert (Hr : rounded out = out).
  { unfold out.
    destruct (clamp_cases (rounded v) (inject_Z lo) (inject_Z hi))
      as [-> | [-> | ->]]; [unfold rounded at 2 | |]; apply rounded_inject_Z. }
  rewrite Hr. apply clamp_fixed. rewrite <- Zlt_Qlt. exact Hlt.
Qed.

Definition mapStyleName (style : MapStyle) : string :=
  match style with
  | Light => "Light"
  | Dark => "Dark"
  end.

(** A [BomRasterRadarCardConfig] read as a
    [Partial<BomRasterRadarCardConfig>]: every key is present. *)
Definition toPartial (cfg : CardConfig) : PartialConfig :=
  {| p_entity := Some (entity cfg);
     p_card_title := card_title cfg;
     p_hide_header := Some (hide_header cfg);
     p_map_style := Some (mapStyleName (map_style cfg));
     p_zoom_level := Some (Finite (zoom_level cfg));
     p_show_marker := Some (show_marker cfg);
     p_show_zoom := Some (show_zoom cfg);
     p_show_scale := Some (show_scale cfg);
     p_show_recenter := Some (show_recenter cfg);
     p_frame_count := Some (Finite (frame_count cfg));
     p_frame_delay := Some (Finite (frame_delay cfg));
     p_restart_delay := Some (Finite (restart_delay cfg));
     p_overlay_transparency := Some (Finite (overlay_transparency cfg)) |}.

Lemma roundedField_fixed (input : option number) (lo hi : Z) (dflt : Q) :
  lo < hi ->
  clamp (rounded dflt) (inject_Z lo) (inject_Z hi) = dflt ->
  let out :=
    match toFiniteNumber input with
    | Some v => clamp (rounded v) (inject_Z lo) (inject_Z hi)
    | None => dflt
    end in
  clamp (rounded out) (inject_Z lo) (inject_Z hi) = out.
Proof.
  intros Hlt Hd out. unfold out.
  destruct (toFiniteNumber input) as [v|]; [|exact Hd].
  apply roundedClamp_fixed. exact Hlt.
Qed.

(** X20: [normalizeConfig] is idempotent: a configuration it returned,
    handed to it again with the same options, comes back unchanged, and
    the second call does not throw. *)
Theorem normalizeConfig_idempotent (CARD_TYPE : string)
    (config : PartialConfig) (options : NormalizeConfigOptions)
    (cfg : CardConfig) :
  normalizeConfig CARD_TYPE config options = Js.Return cfg ->
  normalizeConfig CARD_TYPE (toPartial cfg) options = Js.Return cfg.
Proof.
  unfold normalizeConfig. intros H.
  destruct (default false (requireEntity options)
            && (length (sanitizeEntity (p_entity config)) =? 0)%nat)
    eqn:Hthrow; [discriminate|].
  injection H as <-.
  cbn [toPartial p_entity p_card_title p_hide_header p_map_style p_zoom_level
       p_show_marker p_show_zoom p_show_scale p_show_recenter p_frame_count
       p_frame_delay p_restart_delay p_overlay_transparency
       entity card_title hide_header map_style zoom_level show_marker
       show_zoom show_scale show_recenter frame_count frame_delay
       restart_delay overlay_transparency toFiniteNumber].
  assert (Hentity : sanitizeEntity (Some (sanitizeEntity (p_entity config)))
                    = sanitizeEntity (p_entity config)).
  { destruct (p_entity config); cbn [sanitizeEntity];
      [apply trim_idempotent | reflexivity]. }
  rewrite Hentity, Hthrow.
  f_equal. f_equal.
  - destruct (p_card_title config) as [t|]; [|reflexivity].
    destruct (0 <? length (Js.trim t))%nat eqn:E; [|reflexivity].
    rewrite E. reflexivity.
  - destruct (p_hide_header config) as [[|]|]; reflexivity.
  - destruct (p_map_style config) as [v|]; cbn [sanitizeMapStyle];
      [destruct (String.eqb v "Dark")|]; reflexivity.
  - apply (roundedField_fixed (p_zoom_level config) 3 10);
      [lia | reflexivity].
  - destruct (p_show_marker config) as [[|]|]; reflexivity.
  - destruct (p_show_zoom config) as [[|]|]; reflexivity.
  - destruct (p_show_scale config) as [[|]|]; reflexivity.
  - destruct (p_show_recenter config) as [[|]|]; reflexivity.
  - apply (roundedField_fixed (p_frame_count config) 1 24);
      [lia | reflexivity].
  - apply (roundedField_fixed (p_frame_delay config) 100 5000);
      [lia | reflexivity].
  - apply (roundedField_fixed (p_restart_delay config) 100 10000);
      [lia | reflexivity].
  - destruct (toFiniteNumber (p_overlay_transparency config)) as [v|];
      [|reflexivity].
    apply clamp_fixed. reflexivity.
Qed.

Lemma normalizeConfig_idempotent_witness :
  exists cfg : CardConfig,
    normalizeConfig "custom:bom-raster-radar-card" clampTestInput
      {| requireEntity := Some true |} = Js.Return cfg
    /\ normalizeConfig "custom:bom-raster-radar-card" (toPartial cfg)
         {| requireEntity := Some true |} = Js.Return cfg.
Proof.
  eexists. split.
  - vm_compute. reflexivity.
  - apply (normalizeConfig_idempotent _ clampTestInput). vm_compute.
    reflexivity.
Defined.

Import StubConfig.

Definition noSpace (p : Js.utf16) : Prop :=
  forall c : N, In c p -> Js.is_space c = false.

Lemma startsWith_trimEnd (p : Js.utf16) :
  noSpace p ->
  forall s : Js.utf16, Js.startsWith p s = true ->
    Js.startsWith p (Js.trimEnd s) = true.
Proof.
  induction p as [|a p IH]; intros Hp s H; [reflexivity|].
  destruct s as [|b s]; [discriminate|].
  cbn [Js.startsWith] in H. apply andb_true_iff in H as [Hab H].
  apply N.eqb_eq in Hab. subst b.
  assert (Ha : Js.is_space a = false) by (apply Hp; left; reflexivity).
  assert (Hp' : noSpace p) by (intros c Hc; apply Hp; right; exact Hc).
  pose proof (IH Hp' s H) as Hrec.
  rewrite trimEnd_cons. destruct (Js.trimEnd s) as [|d r].
  - rewrite Ha. cbn [Js.startsWith]. rewrite N.eqb_refl.
    destruct p; [reflexivity | discriminate].
  - cbn [Js.startsWith]. rewrite N.eqb_refl. exact Hrec.
Qed.

Lemma startsWith_trim (p s : Js.utf16) :
  noSpace p -> p <> [] ->
  Js.startsWith p s = true -> Js.startsWith p (Js.trim s) = true.
Proof.
  intros Hp Hne H. unfold Js.trim.
  rewrite trimStart_of_startsClean; [apply startsWith_trimEnd; assumption|].
  destruct p as [|a p]; [congruence|].
  destruct s as [|b s]; [discriminate|].
  cbn [Js.startsWith] in H. apply andb_true_iff in H as [Hab _].
  apply N.eqb_eq in Hab. subst b. apply Hp. left. reflexivity.
Qed.

Lemma find_Some (pred : Js.utf16 -> bool) (l : list Js.utf16)
    (e : Js.utf16) :
  find pred l = Some e ->
  pred e = true
  /\ exists (before after : list Js.utf16),
       l = before ++ e :: after
       /\ forall x : Js.utf16, In x before -> pred x = false.
Proof.
  induction l as [|a r IH]; [discriminate|]. cbn [find].
  destruct (pred a) eqn:Ha.
  - intros [= <-]. split; [exact Ha|]. exists [], r.
    split; [reflexivity|]. intros x [].
  - intros H. destruct (IH H) as (He & before & after & -> & Hb).
    split; [exact He|]. exists (a :: before), after.
    split; [reflexivity|]. intros x [<-|Hx]; [exact Ha | apply Hb, Hx].
Qed.

Lemma find_None (pred : Js.utf16 -> bool) (l : list Js.utf16) :
  find pred l = None -> forall x : Js.utf16, In x l -> pred x = false.
Proof.
  induction l as [|a r IH]; [intros _ x []|]. cbn [find].
  destruct (pred a) eqn:Ha; [discriminate|].
  intros H x [<-|Hx]; [exact Ha | apply IH; assumption].
Qed.

Lemma noSpace_compute (p : Js.utf16) :
  forallb (fun c => negb (Js.is_space c)) p = true -> noSpace p.
Proof.
  intros H c Hc. rewrite forallb_forall in H.
  apply negb_true_iff, H, Hc.
Qed.

(** The entity [pickStubEntity] returns is the first one of the
    [device_tracker] domain when there is one, else the first one of the
    [person] domain, else the example entity. *)
Lemma pickStubEntity_cases (stateKeys entities : option (list Js.utf16)) :
  let allEntities :=
    match entities with
    | Some es => es
    | None => default [] stateKeys
    end in
  let e := pickStubEntity stateKeys entities in
  (Js.startsWith (Js.units "device_tracker.") e = true
   /\ exists before after : list Js.utf16,
        allEntities = before ++ e :: after
        /\ forall x : Js.utf16, In x before ->
             Js.startsWith (Js.units "device_tracker.") x = false)
  \/ (Js.startsWith (Js.units "person.") e = true
      /\ (forall x : Js.utf16, In x allEntities ->
            Js.startsWith (Js.units "device_tracker.") x = false)
      /\ exists before after : list Js.utf16,
           allEntities = before ++ e :: after
           /\ forall x : Js.utf16, In x before ->
                Js.startsWith (Js.units "person.") x = false)
  \/ (e = Js.units "device_tracker.example"
      /\ forall x : Js.utf16, In x allEntities ->
           Js.startsWith (Js.units "device_tracker.") x = false
           /\ Js.startsWith (Js.units "person.") x = false).
Proof.
  intros allEntities e. unfold e, pickStubEntity. fold allEntities.
  destruct (find (Js.startsWith (Js.units "device_tracker.")) allEntities)
    as [d|] eqn:Hd.
  - left. cbn [default from_option Datatypes.id].
    apply find_Some in Hd. exact Hd.
  - pose proof (find_None _ _ Hd) as Hnone.
    destruct (find (Js.startsWith (Js.units "person.")) allEntities)
      as [p|] eqn:Hp.
    + right. left. cbn [default from_option Datatypes.id].
      apply find_Some in Hp. destruct Hp as (Hp1 & Hp2). auto.
    + right. right. cbn [default from_option Datatypes.id].
      split; [reflexivity|]. intros x Hx. split; [apply Hnone, Hx|].
      apply (find_None _ _ Hp), Hx.
Qed.

(** X21: [getStubConfig] never throws, whatever entities Home Assistant
    knows: it returns the trimmed entity chosen by [pickStubEntity], which
    is the first [device_tracker] entity if there is one, else the first
    [person] entity, else [device_tracker.example]; the returned entity
    still starts with its domain, and every other field has its default. *)
Theorem getStubConfig_returns (CARD_TYPE : string)
    (stateKeys entities : option (list Js.utf16)) :
  let allEntities :=
    match entities with
    | Some es => es
    | None => default [] stateKeys
    end in
  exists cfg : CardConfig,
    getStubConfig CARD_TYPE stateKeys entities = Js.Return cfg
    /\ entity cfg = Js.trim (pickStubEntity stateKeys entities)
    /\ (Js.startsWith (Js.units "device_tracker.") (entity cfg)
        || Js.startsWith (Js.units "person.") (entity cfg)) = true
    /\ (forall x : Js.utf16, In x allEntities ->
          Js.startsWith (Js.units "device_tracker.") x = true ->
          Js.startsWith (Js.units "device_tracker.") (entity cfg) = true)
    /\ type cfg = CARD_TYPE
    /\ card_title cfg = None
    /\ hide_header cfg = false
    /\ map_style cfg = Light
    /\ zoom_level cfg = DEFAULT_ZOOM_LEVEL
    /\ frame_count cfg = DEFAULT_FRAME_COUNT
    /\ frame_delay cfg = DEFAULT_FRAME_DELAY
    /\ restart_delay cfg = DEFAULT_RESTART_DELAY
    /\ overlay_transparency cfg = 0%Q
    /\ show_marker cfg = true /\ show_zoom cfg = true
    /\ show_scale cfg = true /\ show_recenter cfg = true.
Proof.
  intros allEntities.
  assert (Hdt : noSpace (Js.units "device_tracker."))
    by (apply noSpace_compute; reflexivity).
  assert (Hpe : noSpace (Js.units "person."))
    by (apply noSpace_compute; reflexivity).
  pose proof (pickStubEntity_cases stateKeys entities) as Hcases.
  cbn zeta in Hcases. fold allEntities in Hcases.
  set (e := pickStubEntity stateKeys entities) in *.
  assert (Hdomain :
            Js.startsWith (Js.units "device_tracker.") (Js.trim e) = true
            \/ (Js.startsWith (Js.units "person.") (Js.trim e) = true
                /\ forall x : Js.utf16, In x allEntities ->
                     Js.startsWith (Js.units "device_tracker.") x = false)).
  { destruct Hcases as [(H & _) | [(H & Hn & _) | (-> & Hn)]].
    - left. apply startsWith_trim; [exact Hdt | discriminate | exact H].
    - right. split; [|exact Hn].
      apply startsWith_trim; [exact Hpe | discriminate | exact H].
    - left. reflexivity. }
  assert (Hne : (length (Js.trim e) =? 0)%nat = false).
  { destruct (Js.trim e); [|reflexivity].
    destruct Hdomain as [H | (H & _)]; vm_compute in H; discriminate. }
  unfold getStubConfig, normalizeConfig. fold e.
  cbn [stubInput p_entity sanitizeEntity requireEntity default from_option
       Datatypes.id andb].
  rewrite Hne. eexists. split; [reflexivity|].
  cbn [entity type card_title hide_header map_style zoom_level frame_count
       frame_delay restart_delay overlay_transparency show_marker show_zoom
       show_scale show_recenter].
  split; [reflexivity|]. split.
  - destruct Hdomain as [-> | (-> & _)]; [reflexivity | apply orb_true_r].
  - split; [|repeat split; reflexivity].
    intros x Hx Hstart. destruct Hdomain as [H | (_ & Hn)]; [exact H|].
    rewrite (Hn x Hx) in Hstart. discriminate.
Qed.

End ConfigRoundTrip.

(** ** The retry back-off *)

Section RetryBackoff.
Import RadarSource.

(** X22: the retry delay never shrinks as failures accumulate: more
    failures give a delay at least as long, always between 5 and 60
    seconds, and doubling exactly until the cap is reached. *)
Theorem getRetryDelayMs_monotone (m n : nat) :
  (m <= n)%nat ->
  5000 <= getRetryDelayMs m <= getRetryDelayMs n
  /\ getRetryDelayMs n <= 60000
  /\ (getRetryDelayMs (S m) = 2 * getRetryDelayMs m
      \/ getRetryDelayMs (S m) = 60000).
Proof.
  intros Hmn.
  split; [split; [apply getRetryDelayMs_pos|]|split; [apply getRetryDelayMs_le_cap|]].
  - unfold getRetryDelayMs.
    assert (2 ^ Z.of_nat m <= 2 ^ Z.of_nat n) by (apply Z.pow_le_mono_r; lia).
    lia.
  - unfold getRetryDelayMs.
    rewrite Nat2Z.inj_succ, Z.pow_succ_r by lia.
    assert (0 < 2 ^ Z.of_nat m) by (apply Z.pow_pos_nonneg; lia).
    lia.
Qed.

Lemma getRetryDelayMs_monotone_witness :
  5000 <= getRetryDelayMs 1 <= getRetryDelayMs 3
  /\ getRetryDelayMs 3 <= 60000
  /\ (getRetryDelayMs 2 = 2 * getRetryDelayMs 1
      \/ getRetryDelayMs 2 = 60000).
Proof.
  apply (getRetryDelayMs_monotone 1 3). lia.
Defined.

End RetryBackoff.
